(** * ConnectionBridge: a shallow embedding of
    [integration_testing/connection_bridge.go]

    The bridge relays the wire traffic of two nodes through four peer legs.
    This development embeds the bridge's handshake ([getVersionMessage],
    [startConnection]), its orchestration ([Start], [Disconnect], [Restart],
    [waitForConnection]) and its router task ([routeTraffic]) and states the
    bridge's specification against them.

    Layout: fixed-width integers; nodes, messages, connections and peers;
    the bridge record and the store it lives in; a state monad with panics
    and parking that the sequential operations are written in; the router
    task as a step machine interleaved with its environment; theorems. *)

From Stdlib Require Import ZArith Lia.
From stdpp Require Import base option list strings.

Local Open Scope Z_scope.

(** ** Fixed-width integers, as Go's conversions compute them *)

Definition uint64 (z : Z) : Z := z mod 2 ^ 64.
Definition uint32 (z : Z) : Z := z mod 2 ^ 32.
Definition int64 (z : Z) : Z := (z + 2 ^ 63) mod 2 ^ 64 - 2 ^ 63.

(** [time.Second], in nanoseconds, the unit of [time.Duration]. *)
Definition Second : Z := 1000000000.

(** ** Library constants

    The service-flag bits of [lib] are declared outside this file of the
    repository; the embedding takes them as parameters. *)

Class ServiceFlags := {
  SFFullNode : Z;
  SFHyperSync : Z;
  SFArchivalNode : Z
}.

(** ** Nodes *)

(** Modelled from the spec: what the bridge consumes from a node (section
    6): its protocol parameters, a configuration view (listening port,
    minimum fee-rate policy, hypersync and archival flags) and the current
    chain-tip height of its server. [cmd.Node] is outside this file. *)
Record DeSoParams := {
  ProtocolVersion : Z;
  ParamsUserAgent : string
}.

Record Config := {
  ProtocolPort : Z;
  HyperSync : bool;
  ArchivalMode : bool;
  MinFeerate : Z
}.

(** [node.Server.GetBlockchain().BlockTip().Header.Height], a [uint64]. *)
Record Server := {
  BlockTipHeight : Z
}.

Record Node := {
  Params : DeSoParams;
  NodeConfig : Config;
  NodeServer : option Server
}.

(** ** Messages *)

(** Modelled from the spec: the message kinds of section 6. A version
    message carries protocol version, service bitset, timestamp, nonce,
    user agent, starting block height and minimum fee rate; a verack
    carries a nonce. [lib.MsgDeSoVersion] and its siblings are outside this
    file. *)
Record MsgDeSoVersion := {
  Version : Z;
  Services : Z;
  TstampSecs : Z;
  Nonce : Z;
  UserAgent : string;
  StartBlockHeight : Z;
  MinFeeRateNanosPerKB : Z
}.

Inductive MsgType :=
| MsgTypeVersion
| MsgTypeVerack
| MsgTypeAddr
| MsgTypeGetAddr
| MsgTypeOther (code : Z).

(** The wire messages the bridge tells apart; every other kind is opaque. *)
Inductive DeSoMessage :=
| MsgVersion (ver : MsgDeSoVersion)
| MsgDeSoVerack (nonce : Z)
| MsgDeSoAddr (addrList : list Z)
| MsgDeSoGetAddr
| MsgDeSoOther (code : Z) (payload : list Z).

Definition GetMsgType (m : DeSoMessage) : MsgType :=
  match m with
  | MsgVersion _ => MsgTypeVersion
  | MsgDeSoVerack _ => MsgTypeVerack
  | MsgDeSoAddr _ => MsgTypeAddr
  | MsgDeSoGetAddr => MsgTypeGetAddr
  | MsgDeSoOther c _ => MsgTypeOther c
  end.

(** Modelled from the spec: [lib.NewMessage(lib.MsgTypeVersion)], a version
    message with Go's zero value in every field. *)
Definition NewVersionMessage : MsgDeSoVersion :=
  {| Version := 0; Services := 0; TstampSecs := 0; Nonce := 0;
     UserAgent := EmptyString; StartBlockHeight := 0;
     MinFeeRateNanosPerKB := 0 |}.

(** The errors the bridge meets: a failed read or write of the wire layer,
    the timeout of [ReadWithTimeout], the two errors [startConnection]
    builds for the verack ("message is not verack", "verack message nonce
    doesn't match"), and the "Timed out" of [waitForConnection]. *)
Inductive Error :=
| ErrIO
| ErrReadTimeout
| ErrNotVerack (t : MsgType)
| ErrVerackNonce (received sent : Z)
| ErrTimedOut.

(** ** Connections and peers *)

(** What the remote end of a socket delivers next: a decoded message, or a
    failure of the read. *)
Inductive Arrival :=
| Arrive (m : DeSoMessage)
| Fault.

(** Modelled from the spec: the socket under a peer leg, with the
    send-message, receive-message and close operations of the consumed
    peer contract (section 6); [lib.Peer] and [net.Conn] are outside this
    file. [inbox] is what the remote end has sent and the bridge has not
    read yet, [outbox] what the bridge has written, [wfaults] the outcome
    of the coming writes ([true] fails; none listed succeeds). *)
Record Conn := {
  inbox : list Arrival;
  wfaults : list bool;
  outbox : list DeSoMessage;
  closed : bool
}.

Record Peer := {
  ID : Z;
  isOutbound : bool;
  VersionNonceSent : Z;
  VersionNonceReceived : Z;
  TimeConnected : Z;
  TimeOffsetSecs : Z;
  VersionNegotiated : bool;
  PConn : Conn;
  disconnectCalls : nat
}.

Record Listener := {
  closeCalls : nat
}.

Inductive ReadResult :=
| ReadOk (m : DeSoMessage)
| ReadErr (e : Error)
| ReadBlocked.

(** Modelled from the spec: receive-message on a socket. A closed socket
    fails the read; otherwise the read takes the next arrival, and blocks
    when there is none. *)
Definition connRead (c : Conn) : ReadResult * Conn :=
  if closed c then (ReadErr ErrIO, c)
  else match inbox c with
       | [] => (ReadBlocked, c)
       | Arrive m :: q =>
           (ReadOk m, {| inbox := q; wfaults := wfaults c;
                         outbox := outbox c; closed := closed c |})
       | Fault :: q =>
           (ReadErr ErrIO, {| inbox := q; wfaults := wfaults c;
                              outbox := outbox c; closed := closed c |})
       end.

(** Modelled from the spec: send-message on a socket. A closed socket
    fails the write, and so does a write the socket is scripted to fail;
    a write that succeeds appends to the outbox. *)
Definition connWrite (m : DeSoMessage) (c : Conn) : option Error * Conn :=
  if closed c then (Some ErrIO, c)
  else match wfaults c with
       | true :: r =>
           (Some ErrIO, {| inbox := inbox c; wfaults := r;
                           outbox := outbox c; closed := closed c |})
       | false :: r =>
           (None, {| inbox := inbox c; wfaults := r;
                     outbox := outbox c ++ [m]; closed := closed c |})
       | [] =>
           (None, {| inbox := inbox c; wfaults := [];
                     outbox := outbox c ++ [m]; closed := closed c |})
       end.

Definition connClose (c : Conn) : Conn :=
  {| inbox := inbox c; wfaults := wfaults c; outbox := outbox c;
     closed := true |}.

Definition connDeliver (a : Arrival) (c : Conn) : Conn :=
  {| inbox := inbox c ++ [a]; wfaults := wfaults c; outbox := outbox c;
     closed := closed c |}.

(** Modelled from the spec: [lib.NewPeer], a leg constructed from a socket
    with its handshake state cleared (section 3, Peer Leg). *)
Definition NewPeer (conn : Conn) (outbound : bool) : Peer :=
  {| ID := 0; isOutbound := outbound; VersionNonceSent := 0;
     VersionNonceReceived := 0; TimeConnected := 0; TimeOffsetSecs := 0;
     VersionNegotiated := false; PConn := conn; disconnectCalls := 0 |}.

Definition set_ID (v : Z) (p : Peer) : Peer :=
  {| ID := v; isOutbound := isOutbound p;
     VersionNonceSent := VersionNonceSent p;
     VersionNonceReceived := VersionNonceReceived p;
     TimeConnected := TimeConnected p; TimeOffsetSecs := TimeOffsetSecs p;
     VersionNegotiated := VersionNegotiated p; PConn := PConn p;
     disconnectCalls := disconnectCalls p |}.

Definition set_VersionNonceSent (v : Z) (p : Peer) : Peer :=
  {| ID := ID p; isOutbound := isOutbound p;
     VersionNonceSent := v;
     VersionNonceReceived := VersionNonceReceived p;
     TimeConnected := TimeConnected p; TimeOffsetSecs := TimeOffsetSecs p;
     VersionNegotiated := VersionNegotiated p; PConn := PConn p;
     disconnectCalls := disconnectCalls p |}.

Definition set_VersionNonceReceived (v : Z) (p : Peer) : Peer :=
  {| ID := ID p; isOutbound := isOutbound p;
     VersionNonceSent := VersionNonceSent p;
     VersionNonceReceived := v;
     TimeConnected := TimeConnected p; TimeOffsetSecs := TimeOffsetSecs p;
     VersionNegotiated := VersionNegotiated p; PConn := PConn p;
     disconnectCalls := disconnectCalls p |}.

Definition set_TimeConnected (v : Z) (p : Peer) : Peer :=
  {| ID := ID p; isOutbound := isOutbound p;
     VersionNonceSent := VersionNonceSent p;
     VersionNonceReceived := VersionNonceReceived p;
     TimeConnected := v; TimeOffsetSecs := TimeOffsetSecs p;
     VersionNegotiated := VersionNegotiated p; PConn := PConn p;
     disconnectCalls := disconnectCalls p |}.

Definition set_TimeOffsetSecs (v : Z) (p : Peer) : Peer :=
  {| ID := ID p; isOutbound := isOutbound p;
     VersionNonceSent := VersionNonceSent p;
     VersionNonceReceived := VersionNonceReceived p;
     TimeConnected := TimeConnected p; TimeOffsetSecs := v;
     VersionNegotiated := VersionNegotiated p; PConn := PConn p;
     disconnectCalls := disconnectCalls p |}.

Definition set_VersionNegotiated (v : bool) (p : Peer) : Peer :=
  {| ID := ID p; isOutbound := isOutbound p;
     VersionNonceSent := VersionNonceSent p;
     VersionNonceReceived := VersionNonceReceived p;
     TimeConnected := TimeConnected p; TimeOffsetSecs := TimeOffsetSecs p;
     VersionNegotiated := v; PConn := PConn p;
     disconnectCalls := disconnectCalls p |}.

Definition set_PConn (v : Conn) (p : Peer) : Peer :=
  {| ID := ID p; isOutbound := isOutbound p;
     VersionNonceSent := VersionNonceSent p;
     VersionNonceReceived := VersionNonceReceived p;
     TimeConnected := TimeConnected p; TimeOffsetSecs := TimeOffsetSecs p;
     VersionNegotiated := VersionNegotiated p; PConn := v;
     disconnectCalls := disconnectCalls p |}.

(** Modelled from the spec: [lib.Peer.Disconnect], the disconnect/close
    operation of the peer contract; it closes the socket, which fails any
    read in flight on it. *)
Definition peerDisconnect (p : Peer) : Peer :=
  {| ID := ID p; isOutbound := isOutbound p;
     VersionNonceSent := VersionNonceSent p;
     VersionNonceReceived := VersionNonceReceived p;
     TimeConnected := TimeConnected p; TimeOffsetSecs := TimeOffsetSecs p;
     VersionNegotiated := VersionNegotiated p;
     PConn := connClose (PConn p);
     disconnectCalls := S (disconnectCalls p) |}.

(** Modelled from the spec: [net.Listener.Close], counted. *)
Definition listenerClose (l : Listener) : Listener :=
  {| closeCalls := S (closeCalls l) |}.

(** ** Router tasks

    One task per [go bridge.routeTraffic(source, destination)]. [pc] is the
    point of the function the task is at; [reads], [writes], [discarded],
    [sleeps] and [doneSignals] log what the task has done so far: the
    messages [source.ReadDeSoMessage] returned, the messages handed to
    [destination.WriteDeSoMessage], the messages dropped by the [disabled]
    check that follows the read, the [time.Sleep] calls, and the
    [waitGroup.Done] calls. *)

Inductive ExitKind :=
| ExitDone      (* left the loop by [break] and ran [waitGroup.Done()] *)
| ExitRestart.  (* [return] after [bridge.Restart()] *)

Inductive PC :=
| Entry          (* about to run [bridge.waitGroup.Add(1)] *)
| LoopTop        (* about to test [bridge.disabled] at the head of the loop *)
| Reading        (* inside [source.ReadDeSoMessage()] *)
| CallRestart    (* about to call [bridge.Restart()] *)
| RestartWait    (* inside [waitGroup.Wait()] of Restart's [Disconnect] *)
| RestartStart   (* about to call [bridge.Start()] from [Restart] *)
| Exited (k : ExitKind).

Record Task := {
  pc : PC;
  source : option nat;
  destination : option nat;
  reads : list DeSoMessage;
  writes : list DeSoMessage;
  discarded : list DeSoMessage;
  sleeps : nat;
  doneSignals : nat
}.

Definition newTask (src dst : option nat) : Task :=
  {| pc := Entry; source := src; destination := dst; reads := [];
     writes := []; discarded := []; sleeps := 0; doneSignals := 0 |}.

Definition set_pc (v : PC) (t : Task) : Task :=
  {| pc := v; source := source t; destination := destination t;
     reads := reads t; writes := writes t; discarded := discarded t;
     sleeps := sleeps t; doneSignals := doneSignals t |}.

Definition log_read (m : DeSoMessage) (t : Task) : Task :=
  {| pc := pc t; source := source t; destination := destination t;
     reads := reads t ++ [m]; writes := writes t; discarded := discarded t;
     sleeps := sleeps t; doneSignals := doneSignals t |}.

Definition log_write (m : DeSoMessage) (t : Task) : Task :=
  {| pc := pc t; source := source t; destination := destination t;
     reads := reads t; writes := writes t ++ [m]; discarded := discarded t;
     sleeps := sleeps t; doneSignals := doneSignals t |}.

Definition log_discard (m : DeSoMessage) (t : Task) : Task :=
  {| pc := pc t; source := source t; destination := destination t;
     reads := reads t; writes := writes t; discarded := discarded t ++ [m];
     sleeps := sleeps t; doneSignals := doneSignals t |}.

Definition log_sleep (t : Task) : Task :=
  {| pc := pc t; source := source t; destination := destination t;
     reads := reads t; writes := writes t; discarded := discarded t;
     sleeps := S (sleeps t); doneSignals := doneSignals t |}.

Definition log_done (t : Task) : Task :=
  {| pc := pc t; source := source t; destination := destination t;
     reads := reads t; writes := writes t; discarded := discarded t;
     sleeps := sleeps t; doneSignals := S (doneSignals t) |}.

(** ** The bridge and its store

    The bridge holds pointers: a leg is an index into [peers], a listener
    an index into [listeners], [None] is Go's [nil]. [waitGroup] is the
    counter of the [sync.WaitGroup]. The handoff channel [newPeerChan]
    carries no state between calls; what a receive on it observes is the
    environment's (see [waitForConnection]). *)

Record ConnectionBridge := {
  nodeA : Node;
  connectionInboundA : option nat;
  connectionOutboundA : option nat;
  outboundListenerA : option nat;
  nodeB : Node;
  connectionInboundB : option nat;
  connectionOutboundB : option nat;
  outboundListenerB : option nat;
  paused : bool;
  disabled : bool;
  waitGroup : Z;
  connectionAttempt : Z
}.

Definition NewConnectionBridge (a b : Node) : ConnectionBridge :=
  {| nodeA := a; connectionInboundA := None; connectionOutboundA := None;
     outboundListenerA := None;
     nodeB := b; connectionInboundB := None; connectionOutboundB := None;
     outboundListenerB := None;
     paused := false; disabled := false; waitGroup := 0;
     connectionAttempt := 0 |}.

Definition set_connectionInboundA (v : option nat) (b : ConnectionBridge) :=
  {| nodeA := nodeA b; connectionInboundA := v;
     connectionOutboundA := connectionOutboundA b;
     outboundListenerA := outboundListenerA b;
     nodeB := nodeB b; connectionInboundB := connectionInboundB b;
     connectionOutboundB := connectionOutboundB b;
     outboundListenerB := outboundListenerB b;
     paused := paused b; disabled := disabled b; waitGroup := waitGroup b;
     connectionAttempt := connectionAttempt b |}.

Definition set_connectionOutboundA (v : option nat) (b : ConnectionBridge) :=
  {| nodeA := nodeA b; connectionInboundA := connectionInboundA b;
     connectionOutboundA := v;
     outboundListenerA := outboundListenerA b;
     nodeB := nodeB b; connectionInboundB := connectionInboundB b;
     connectionOutboundB := connectionOutboundB b;
     outboundListenerB := outboundListenerB b;
     paused := paused b; disabled := disabled b; waitGroup := waitGroup b;
     connectionAttempt := connectionAttempt b |}.

Definition set_outboundListenerA (v : option nat) (b : ConnectionBridge) :=
  {| nodeA := nodeA b; connectionInboundA := connectionInboundA b;
     connectionOutboundA := connectionOutboundA b;
     outboundListenerA := v;
     nodeB := nodeB b; connectionInboundB := connectionInboundB b;
     connectionOutboundB := connectionOutboundB b;
     outboundListenerB := outboundListenerB b;
     paused := paused b; disabled := disabled b; waitGroup := waitGroup b;
     connectionAttempt := connectionAttempt b |}.

Definition set_connectionInboundB (v : option nat) (b : ConnectionBridge) :=
  {| nodeA := nodeA b; connectionInboundA := connectionInboundA b;
     connectionOutboundA := connectionOutboundA b;
     outboundListenerA := outboundListenerA b;
     nodeB := nodeB b; connectionInboundB := v;
     connectionOutboundB := connectionOutboundB b;
     outboundListenerB := outboundListenerB b;
     paused := paused b; disabled := disabled b; waitGroup := waitGroup b;
     connectionAttempt := connectionAttempt b |}.

Definition set_connectionOutboundB (v : option nat) (b : ConnectionBridge) :=
  {| nodeA := nodeA b; connectionInboundA := connectionInboundA b;
     connectionOutboundA := connectionOutboundA b;
     outboundListenerA := outboundListenerA b;
     nodeB := nodeB b; connectionInboundB := connectionInboundB b;
     connectionOutboundB := v;
     outboundListenerB := outboundListenerB b;
     paused := paused b; disabled := disabled b; waitGroup := waitGroup b;
     connectionAttempt := connectionAttempt b |}.

Definition set_outboundListenerB (v : option nat) (b : ConnectionBridge) :=
  {| nodeA := nodeA b; connectionInboundA := connectionInboundA b;
     connectionOutboundA := connectionOutboundA b;
     outboundListenerA := outboundListenerA b;
     nodeB := nodeB b; connectionInboundB := connectionInboundB b;
     connectionOutboundB := connectionOutboundB b;
     outboundListenerB := v;
     paused := paused b; disabled := disabled b; waitGroup := waitGroup b;
     connectionAttempt := connectionAttempt b |}.

Definition set_paused (v : bool) (b : ConnectionBridge) :=
  {| nodeA := nodeA b; connectionInboundA := connectionInboundA b;
     connectionOutboundA := connectionOutboundA b;
     outboundListenerA := outboundListenerA b;
     nodeB := nodeB b; connectionInboundB := connectionInboundB b;
     connectionOutboundB := connectionOutboundB b;
     outboundListenerB := outboundListenerB b;
     paused := v; disabled := disabled b; waitGroup := waitGroup b;
     connectionAttempt := connectionAttempt b |}.

Definition set_disabled (v : bool) (b : ConnectionBridge) :=
  {| nodeA := nodeA b; connectionInboundA := connectionInboundA b;
     connectionOutboundA := connectionOutboundA b;
     outboundListenerA := outboundListenerA b;
     nodeB := nodeB b; connectionInboundB := connectionInboundB b;
     connectionOutboundB := connectionOutboundB b;
     outboundListenerB := outboundListenerB b;
     paused := paused b; disabled := v; waitGroup := waitGroup b;
     connectionAttempt := connectionAttempt b |}.

Definition set_waitGroup (v : Z) (b : ConnectionBridge) :=
  {| nodeA := nodeA b; connectionInboundA := connectionInboundA b;
     connectionOutboundA := connectionOutboundA b;
     outboundListenerA := outboundListenerA b;
     nodeB := nodeB b; connectionInboundB := connectionInboundB b;
     connectionOutboundB := connectionOutboundB b;
     outboundListenerB := outboundListenerB b;
     paused := paused b; disabled := disabled b; waitGroup := v;
     connectionAttempt := connectionAttempt b |}.

Record System := {
  peers : list Peer;
  listeners : list Listener;
  bridge : ConnectionBridge;
  tasks : list Task
}.

Definition set_peers (v : list Peer) (s : System) : System :=
  {| peers := v; listeners := listeners s; bridge := bridge s;
     tasks := tasks s |}.

Definition set_listeners (v : list Listener) (s : System) : System :=
  {| peers := peers s; listeners := v; bridge := bridge s;
     tasks := tasks s |}.

Definition set_bridge (v : ConnectionBridge) (s : System) : System :=
  {| peers := peers s; listeners := listeners s; bridge := v;
     tasks := tasks s |}.

Definition set_tasks (v : list Task) (s : System) : System :=
  {| peers := peers s; listeners := listeners s; bridge := bridge s;
     tasks := v |}.

(** ** The monad of the sequential operations

    A call either returns a value and a new store, parks in
    [waitGroup.Wait()] (the store is what it had reached; it resumes only
    when other tasks bring the counter to zero), or panics. *)

Inductive Outcome (A : Type) : Type :=
| Returned (a : A) (s : System)
| Parked (s : System)
| Panicked.

Arguments Returned {A} a s.
Arguments Parked {A} s.
Arguments Panicked {A}.

Definition M (A : Type) : Type := System -> Outcome A.

Definition ret {A} (a : A) : M A := fun s => Returned a s.

Definition bind {A B} (m : M A) (f : A -> M B) : M B :=
  fun s => match m s with
           | Returned a s' => f a s'
           | Parked s' => Parked s'
           | Panicked => Panicked
           end.

Definition panic {A} : M A := fun _ => Panicked.

#[global] Instance M_ret : MRet M := @ret.
#[global] Instance M_bind : MBind M := fun A B f m => bind m f.

(** Go's [if err := m; err != nil { return err }]. *)
Definition orReturn (m : M (option Error)) (k : M (option Error))
  : M (option Error) :=
  err ← m;
  match err with
  | Some e => ret (Some e)
  | None => k
  end.

Notation "'try!' m ; k" := (orReturn m k)
  (at level 20, m at level 100, k at level 200, only parsing).

Definition getBridge : M ConnectionBridge := fun s => Returned (bridge s) s.

Definition modifyBridge (f : ConnectionBridge -> ConnectionBridge) : M unit :=
  fun s => Returned tt (set_bridge (f (bridge s)) s).

(** Dereferencing a leg pointer; [nil] or a dangling index panics. *)
Definition derefPeer (p : option nat) : M Peer :=
  fun s => match p with
           | Some i => match peers s !! i with
                       | Some x => Returned x s
                       | None => Panicked
                       end
           | None => Panicked
           end.

Definition modifyPeer (p : option nat) (f : Peer -> Peer) : M unit :=
  fun s => match p with
           | Some i => match peers s !! i with
                       | Some x => Returned tt (set_peers (<[i:=f x]> (peers s)) s)
                       | None => Panicked
                       end
           | None => Panicked
           end.

Definition allocPeer (x : Peer) : M (option nat) :=
  fun s => Returned (Some (length (peers s))) (set_peers (peers s ++ [x]) s).

Definition allocListener (l : Listener) : M (option nat) :=
  fun s => Returned (Some (length (listeners s)))
                    (set_listeners (listeners s ++ [l]) s).

Definition modifyListener (p : option nat) (f : Listener -> Listener) : M unit :=
  fun s => match p with
           | Some i => match listeners s !! i with
                       | Some x =>
                           Returned tt (set_listeners (<[i:=f x]> (listeners s)) s)
                       | None => Panicked
                       end
           | None => Panicked
           end.

(** [go bridge.routeTraffic(source, destination)]. *)
Definition goRouteTraffic (src dst : option nat) : M unit :=
  fun s => Returned tt (set_tasks (tasks s ++ [newTask src dst]) s).

Definition ReadDeSoMessage (p : option nat) : M ReadResult :=
  x ← derefPeer p;
  let '(r, c) := connRead (PConn x) in
  modifyPeer p (set_PConn c) ;;
  ret r.

Definition WriteDeSoMessage (p : option nat) (m : DeSoMessage)
  : M (option Error) :=
  x ← derefPeer p;
  let '(err, c) := connWrite m (PConn x) in
  modifyPeer p (set_PConn c) ;;
  ret err.

(** Modelled from the spec: [lib.Peer.ReadWithTimeout], the bounded-wait
    variant of receive (section 6). It runs the read callback and returns
    what the callback returns; when the callback's read is still blocked
    at the deadline it returns a timeout error. A callback yields [None]
    when its read blocks. *)
Definition ReadWithTimeout (readFunc : M (option (option Error)))
  : M (option Error) :=
  r ← readFunc;
  match r with
  | None => ret (Some ErrReadTimeout)
  | Some err => ret err
  end.

#[global] Instance MsgType_eq_dec : EqDecision MsgType.
Proof. solve_decision. Defined.

(** ** The environment of a run

    What the code obtains from outside the bridge: random numbers, the
    clock, the outcome of listening and dialling, and what arrives on the
    handoff channel. *)

(** For one handshake: [lib.RandInt64(math.MaxInt64)] and the two readings
    of [time.Now().Unix()]. *)
Record HandshakeEnv := {
  hsRand : Z;
  hsNow : Z;
  hsNowReply : Z
}.

(** A peer sent on [newPeerChan] by the accept goroutine of
    [createOutboundConnection]: the time, in nanoseconds after the receive
    began, at which the send is ready, the accepted socket and the random
    number drawn for [peer.ID]. *)
Record Accepted := {
  accDelay : Z;
  accConn : Conn;
  accRand : Z
}.

Record StartEnv := {
  envListenA : bool;
  envListenB : bool;
  envDialA : option Conn;
  envRandInA : Z;
  envDialB : option Conn;
  envRandInB : Z;
  envHsInA : HandshakeEnv;
  envHsInB : HandshakeEnv;
  envAcceptA : option Accepted;
  envTieA : bool;
  envAcceptB : option Accepted;
  envTieB : bool;
  envHsOutA : HandshakeEnv;
  envHsOutB : HandshakeEnv
}.

Section Bridge.

Context {flags : ServiceFlags}.

(** ** Connection factory *)

(** [net.Listen("tcp", "127.0.0.1:0")] followed by [panic(err)] on error. *)
Definition netListen (ok : bool) : M (option nat) :=
  if ok then allocListener {| closeCalls := 0 |} else panic.

(** [createInboundConnection]: resolve and dial the node ([dial] is the
    socket obtained, [None] when resolving or dialling fails, which
    panics), wrap the socket with [lib.NewPeer(conn, true, ...)] and draw
    the peer's ID. *)
Definition createInboundConnection (node : Node) (dial : option Conn) (rand : Z)
  : M (option nat) :=
  match dial with
  | None => panic
  | Some conn =>
      let peer := NewPeer conn true in
      let peer := set_ID (uint64 rand) peer in
      allocPeer peer
  end.

(** [createOutboundConnection] only launches concurrent activity: the
    goroutine that accepts on the listener and sends the wrapped socket on
    [newPeerChan], and the node's own dial. Neither runs in the caller;
    the caller sees their effect when it receives from the channel. *)
Definition createOutboundConnection (node otherNode : Node) (ll : option nat)
  : M unit :=
  ret tt.

(** ** Handshake engine *)

Definition getVersionMessage (node : Node) (now rand : Z) : MsgDeSoVersion :=
  let ver := NewVersionMessage in
  let version := ProtocolVersion (Params node) in
  let tstampSecs := now in
  let nonce := uint64 rand in
  let userAgent := ParamsUserAgent (Params node) in
  let services := SFFullNode in
  let services :=
    if HyperSync (NodeConfig node) then
      let services := Z.lor services SFHyperSync in
      if ArchivalMode (NodeConfig node) then Z.lor services SFArchivalNode
      else services
    else services in
  let startBlockHeight :=
    match NodeServer node with
    | Some server => uint32 (BlockTipHeight server)
    | None => StartBlockHeight ver
    end in
  {| Version := version; Services := services; TstampSecs := tstampSecs;
     Nonce := nonce; UserAgent := userAgent;
     StartBlockHeight := startBlockHeight;
     MinFeeRateNanosPerKB := MinFeerate (NodeConfig node) |}.

(** The callback of the first [ReadWithTimeout]. *)
Definition readVersionReply (connection : option nat) (io : HandshakeEnv)
  : M (option (option Error)) :=
  r ← ReadDeSoMessage connection;
  match r with
  | ReadBlocked => ret None
  | ReadErr e => ret (Some (Some e))
  | ReadOk msg =>
      (* here [err == nil] *)
      let err : option Error := None in
      match msg with
      | MsgVersion verMsg =>
          modifyPeer connection (set_VersionNonceReceived (Nonce verMsg)) ;;
          modifyPeer connection (set_TimeConnected (TstampSecs verMsg)) ;;
          modifyPeer connection
            (set_TimeOffsetSecs (int64 (TstampSecs verMsg - hsNowReply io))) ;;
          ret (Some None)
      | _ =>
          (* [if !ok { return err }] *)
          ret (Some err)
      end
  end.

(** The callback of the second [ReadWithTimeout]. *)
Definition readVerackReply (connection : option nat)
  : M (option (option Error)) :=
  r ← ReadDeSoMessage connection;
  match r with
  | ReadBlocked => ret None
  | ReadErr e => ret (Some (Some e))
  | ReadOk msg =>
      if decide (GetMsgType msg ≠ MsgTypeVerack)
      then ret (Some (Some (ErrNotVerack (GetMsgType msg))))
      else
        match msg with
        | MsgDeSoVerack nonce =>
            p ← derefPeer connection;
            if negb (nonce =? VersionNonceSent p)
            then ret (Some (Some (ErrVerackNonce nonce (VersionNonceSent p))))
            else ret (Some None)
        | _ => panic
        end
  end.

Definition startConnection (connection : option nat) (otherNode : Node)
    (io : HandshakeEnv) : M (option Error) :=
  (* Prepare the version message. *)
  let versionMessage := getVersionMessage otherNode (hsNow io) (hsRand io) in
  modifyPeer connection (set_VersionNonceSent (Nonce versionMessage)) ;;
  (* Send the version message. *)
  try! WriteDeSoMessage connection (MsgVersion versionMessage);
  (* Wait for a response to the version message. *)
  try! ReadWithTimeout (readVersionReply connection io);
  (* Now prepare the verack message. *)
  p ← derefPeer connection;
  let verackMsg := MsgDeSoVerack (VersionNonceReceived p) in
  (* And send it to the connection. *)
  try! WriteDeSoMessage connection verackMsg;
  (* And finally wait for connection's response to the verack message. *)
  try! ReadWithTimeout (readVerackReply connection);
  modifyPeer connection (set_VersionNegotiated true) ;;
  ret None.

(** ** Bridge orchestrator *)

(** The ticker of [waitForConnection]: [30 * time.Second]. *)
Definition waitTimeout : Z := 30 * Second.

Inductive Selected :=
| FromTicker
| FromChan (a : Accepted).

(** The [select] of [waitForConnection]: the channel case when a peer is
    ready before the ticker fires, the ticker case when none is or it comes
    later; when both are ready at once Go picks either ([tie]). The second
    component is the time the select took. *)
Definition selectHandoff (h : option Accepted) (tie : bool) : Selected * Z :=
  match h with
  | None => (FromTicker, waitTimeout)
  | Some a =>
      if accDelay a <? waitTimeout then (FromChan a, Z.max 0 (accDelay a))
      else if accDelay a =? waitTimeout
      then (if tie then FromChan a else FromTicker, waitTimeout)
      else (FromTicker, waitTimeout)
  end.

Definition waitElapsed (h : option Accepted) (tie : bool) : Z :=
  snd (selectHandoff h tie).

(** The peer the accept goroutine wraps: [lib.NewPeer(conn, false, ...)]
    with a random ID. *)
Definition acceptedPeer (a : Accepted) : Peer :=
  set_ID (uint64 (accRand a)) (NewPeer (accConn a) false).

Definition waitForConnection (h : option Accepted) (tie : bool)
  : M (option nat * option Error) :=
  match fst (selectHandoff h tie) with
  | FromTicker => ret (None, Some ErrTimedOut)
  | FromChan a =>
      peer ← allocPeer (acceptedPeer a);
      ret (peer, None)
  end.

Definition Start (env : StartEnv) : M (option Error) :=
  modifyBridge (set_disabled false) ;;
  (* Start the outbound listeners for A and B. *)
  listenerA ← netListen (envListenA env);
  listenerB ← netListen (envListenB env);
  modifyBridge (set_outboundListenerA listenerA) ;;
  modifyBridge (set_outboundListenerB listenerB) ;;
  (* Initialize inbound connections to nodes. *)
  b ← getBridge;
  peer ← createInboundConnection (nodeA b) (envDialA env) (envRandInA env);
  modifyBridge (set_connectionInboundA peer) ;;
  b ← getBridge;
  peer ← createInboundConnection (nodeB b) (envDialB env) (envRandInB env);
  modifyBridge (set_connectionInboundB peer) ;;
  (* Start the inbound connections. *)
  b ← getBridge;
  try! startConnection (connectionInboundA b) (nodeB b) (envHsInA env);
  b ← getBridge;
  try! startConnection (connectionInboundB b) (nodeA b) (envHsInB env);
  (* Initialize outbound connections from nodes. *)
  b ← getBridge;
  createOutboundConnection (nodeA b) (nodeB b) (outboundListenerA b) ;;
  '(peer, err) ← waitForConnection (envAcceptA env) (envTieA env);
  modifyBridge (set_connectionOutboundA peer) ;;
  try! ret err;
  b ← getBridge;
  createOutboundConnection (nodeB b) (nodeA b) (outboundListenerB b) ;;
  '(peer, err) ← waitForConnection (envAcceptB env) (envTieB env);
  modifyBridge (set_connectionOutboundB peer) ;;
  try! ret err;
  (* Start the outbound connections from nodes. *)
  b ← getBridge;
  try! startConnection (connectionOutboundA b) (nodeB b) (envHsOutA env);
  b ← getBridge;
  try! startConnection (connectionOutboundB b) (nodeB b) (envHsOutB env);
  (* Start the communication routing between the two nodes. *)
  b ← getBridge;
  goRouteTraffic (connectionOutboundA b) (connectionInboundB b) ;;
  goRouteTraffic (connectionInboundB b) (connectionOutboundA b) ;;
  goRouteTraffic (connectionOutboundB b) (connectionInboundA b) ;;
  goRouteTraffic (connectionInboundA b) (connectionOutboundB b) ;;
  ret None.

(** [waitGroup.Wait()]: returns when the counter is zero, blocks
    otherwise. *)
Definition waitGroupWait : M unit :=
  fun s => if waitGroup (bridge s) =? 0 then Returned tt s else Parked s.

Definition Disconnect : M unit :=
  b ← getBridge;
  if disabled b then ret tt
  else
    modifyBridge (set_disabled true) ;;
    modifyPeer (connectionInboundA b) peerDisconnect ;;
    modifyPeer (connectionInboundB b) peerDisconnect ;;
    modifyPeer (connectionOutboundA b) peerDisconnect ;;
    modifyPeer (connectionOutboundB b) peerDisconnect ;;
    modifyListener (outboundListenerA b) listenerClose ;;
    modifyListener (outboundListenerB b) listenerClose ;;
    waitGroupWait.

(** Stop and start the connection bridge; the result of [Start] is
    dropped. *)
Definition Restart (env : StartEnv) : M unit :=
  Disconnect ;;
  _ ← Start env;
  ret tt.

End Bridge.

(** ** The router task

    [routeTraffic] runs concurrently with the other routers, with the
    nodes at the far end of each socket and with whoever toggles the
    bridge's flags. A run of the system is a schedule of events: a task
    advancing to its next suspension point, or the environment (the nodes,
    the test driver) acting on the shared state. Between two suspension points a task runs without
    interleaving; the flags and sockets it meets there are the ones the
    events before its turn left. *)

Inductive Event :=
| Tick (i : nat)                        (* task [i] advances *)
| TickStart (i : nat) (env : StartEnv)  (* task [i] advances; a [Start] it
                                           reaches runs in [env] *)
| Deliver (p : nat) (a : Arrival)       (* the far end of leg [p] sends *)
| CloseConn (p : nat)                   (* the socket of leg [p] goes down *)
| SetPaused (v : bool)                  (* [bridge.paused = v] *)
| SetDisabled (v : bool)                (* [bridge.disabled = v] *)
| CallStart (env : StartEnv)            (* the test driver calls [Start] *)
| CallDisconnect.                       (* the test driver calls
                                           [Disconnect] *)

Section Router.

Context {flags : ServiceFlags}.

Definition waitGroupAdd (delta : Z) : M unit :=
  modifyBridge (fun b => set_waitGroup (waitGroup b + delta) b).

Definition setTask (i : nat) (t : Task) (s : System) : System :=
  set_tasks (<[i:=t]> (tasks s)) s.

(** What task [i], whose local state is [t], does when it is scheduled in
    store [s]. [None] is a panic of the process. *)
Definition routeTraffic (i : nat) (env : option StartEnv) (t : Task)
    (s : System) : option System :=
  match pc t with
  | Entry =>
      (* bridge.waitGroup.Add(1) *)
      match waitGroupAdd 1 s with
      | Returned _ s1 => Some (setTask i (set_pc LoopTop t) s1)
      | _ => None
      end
  | LoopTop =>
      if disabled (bridge s) then
        (* break; bridge.waitGroup.Done() *)
        match waitGroupAdd (-1) s with
        | Returned _ s1 => Some (setTask i (set_pc (Exited ExitDone) (log_done t)) s1)
        | _ => None
        end
      else if paused (bridge s) then
        (* time.Sleep(100 * time.Millisecond); continue *)
        Some (setTask i (log_sleep t) s)
      else
        Some (setTask i (set_pc Reading t) s)
  | Reading =>
      (* inMsg, err := source.ReadDeSoMessage() *)
      match ReadDeSoMessage (source t) s with
      | Returned ReadBlocked _ => Some s
      | Returned (ReadErr _) s1 =>
          if disabled (bridge s1) then
            match waitGroupAdd (-1) s1 with
            | Returned _ s2 =>
                Some (setTask i (set_pc (Exited ExitDone) (log_done t)) s2)
            | _ => None
            end
          else
            (* err != nil: bridge.Restart(); return *)
            Some (setTask i (set_pc CallRestart t) s1)
      | Returned (ReadOk inMsg) s1 =>
          let t := log_read inMsg t in
          if disabled (bridge s1) then
            match waitGroupAdd (-1) s1 with
            | Returned _ s2 =>
                Some (setTask i (set_pc (Exited ExitDone)
                                   (log_done (log_discard inMsg t))) s2)
            | _ => None
            end
          else
            match inMsg with
            | MsgDeSoAddr _ =>
                (* empty case: leaves the switch, next iteration *)
                Some (setTask i (set_pc LoopTop t) s1)
            | MsgDeSoGetAddr =>
                (* continue *)
                Some (setTask i (set_pc LoopTop t) s1)
            | _ =>
                (* default: destination.WriteDeSoMessage(inMsg) *)
                let t := log_write inMsg t in
                match WriteDeSoMessage (destination t) inMsg s1 with
                | Returned None s2 => Some (setTask i (set_pc LoopTop t) s2)
                | Returned (Some _) s2 =>
                    (* bridge.Restart(); return *)
                    Some (setTask i (set_pc CallRestart t) s2)
                | _ => None
                end
            end
      | _ => None
      end
  | CallRestart =>
      (* Restart: bridge.Disconnect() *)
      match Disconnect s with
      | Returned _ s1 => Some (setTask i (set_pc RestartStart t) s1)
      | Parked s1 => Some (setTask i (set_pc RestartWait t) s1)
      | Panicked => None
      end
  | RestartWait =>
      (* still inside bridge.waitGroup.Wait() *)
      match waitGroupWait s with
      | Returned _ s1 => Some (setTask i (set_pc RestartStart t) s1)
      | Parked _ => Some s
      | Panicked => None
      end
  | RestartStart =>
      (* Restart: bridge.Start(), result dropped; then return *)
      match env with
      | None => Some s
      | Some e =>
          match Start e s with
          | Returned _ s1 => Some (setTask i (set_pc (Exited ExitRestart) t) s1)
          | _ => None
          end
      end
  | Exited _ => Some s
  end.

Definition taskStep (i : nat) (env : option StartEnv) (s : System)
  : option System :=
  match tasks s !! i with
  | Some t => routeTraffic i env t s
  | None => Some s
  end.

Definition deliverTo (a : Arrival) (x : Peer) : Peer :=
  set_PConn (connDeliver a (PConn x)) x.

Definition closeSocket (x : Peer) : Peer :=
  set_PConn (connClose (PConn x)) x.

Definition step (e : Event) (s : System) : option System :=
  match e with
  | Tick i => taskStep i None s
  | TickStart i env => taskStep i (Some env) s
  | Deliver p a => Some (set_peers (alter (deliverTo a) p (peers s)) s)
  | CloseConn p => Some (set_peers (alter closeSocket p (peers s)) s)
  | SetPaused v => Some (set_bridge (set_paused v (bridge s)) s)
  | SetDisabled v => Some (set_bridge (set_disabled v (bridge s)) s)
  | CallStart env =>
      match Start env s with
      | Returned _ s1 => Some s1
      | Parked s1 => Some s1
      | Panicked => None
      end
  | CallDisconnect =>
      (* a driver that parks in the wait has torn the bridge down *)
      match Disconnect s with
      | Returned _ s1 => Some s1
      | Parked s1 => Some s1
      | Panicked => None
      end
  end.

Fixpoint run (sched : list Event) (s : System) : option System :=
  match sched with
  | [] => Some s
  | e :: rest =>
      match step e s with
      | Some s' => run rest s'
      | None => None
      end
  end.

End Router.

(** The kinds the router forwards: every kind but the address list and the
    address request. *)
Definition forwarded (m : DeSoMessage) : bool :=
  match m with
  | MsgDeSoAddr _ => false
  | MsgDeSoGetAddr => false
  | _ => true
  end.

(** Tasks that have run [waitGroup.Add(1)] and not [waitGroup.Done()]. *)
Definition outstanding (t : Task) : bool :=
  match pc t with
  | Entry => false
  | Exited ExitDone => false
  | _ => true
  end.

Definition countOutstanding (ts : list Task) : Z :=
  Z.of_nat (length (List.filter outstanding ts)).

(** The messages a schedule delivers to leg [p]. *)
Fixpoint deliveredTo (p : nat) (sched : list Event) : list DeSoMessage :=
  match sched with
  | [] => []
  | Deliver q (Arrive m) :: rest =>
      if decide (q = p) then m :: deliveredTo p rest else deliveredTo p rest
  | _ :: rest => deliveredTo p rest
  end.

(** ** Concrete scenarios

    Two nodes that differ in every field of their version message, sockets
    that answer a handshake, and an assignment of the three service flags
    to bits 0, 1 and 2. *)

Definition desoFlags : ServiceFlags :=
  {| SFFullNode := 1; SFHyperSync := 2; SFArchivalNode := 4 |}.

Definition exNodeA : Node :=
  {| Params := {| ProtocolVersion := 1; ParamsUserAgent := "nodeA" |};
     NodeConfig := {| ProtocolPort := 18000; HyperSync := true;
                      ArchivalMode := true; MinFeerate := 1000 |};
     NodeServer := Some {| BlockTipHeight := 10 |} |}.

Definition exNodeB : Node :=
  {| Params := {| ProtocolVersion := 2; ParamsUserAgent := "nodeB" |};
     NodeConfig := {| ProtocolPort := 18001; HyperSync := false;
                      ArchivalMode := true; MinFeerate := 2000 |};
     NodeServer := Some {| BlockTipHeight := 20 |} |}.

(** The version message a node answers with. *)
Definition exReply (nonce : Z) : MsgDeSoVersion :=
  {| Version := 1; Services := 1; TstampSecs := 1700000005; Nonce := nonce;
     UserAgent := "node"; StartBlockHeight := 10;
     MinFeeRateNanosPerKB := 1000 |}.

(** A socket whose far end answers the handshake: its version, then a
    verack echoing the nonce [sent] to it. *)
Definition exSocket (nonce sent : Z) : Conn :=
  {| inbox := [Arrive (MsgVersion (exReply nonce));
               Arrive (MsgDeSoVerack sent)];
     wfaults := []; outbox := []; closed := false |}.

Definition exHs (rand : Z) : HandshakeEnv :=
  {| hsRand := rand; hsNow := 1700000000; hsNowReply := 1700000001 |}.

(** The environment of a run of [Start] in which both nodes answer the
    inbound handshakes, and [acceptA] and [acceptB] are what the two
    receives on the handoff channel observe. *)
Definition exEnvOf (acceptA acceptB : option Accepted) : StartEnv :=
  {| envListenA := true; envListenB := true;
     envDialA := Some (exSocket 501 101); envRandInA := 11;
     envDialB := Some (exSocket 502 102); envRandInB := 12;
     envHsInA := exHs 101; envHsInB := exHs 102;
     envAcceptA := acceptA; envTieA := false;
     envAcceptB := acceptB; envTieB := false;
     envHsOutA := exHs 103; envHsOutB := exHs 104 |}.

Definition exAcceptA : Accepted :=
  {| accDelay := 2 * Second; accConn := exSocket 503 103; accRand := 13 |}.

Definition exAcceptB : Accepted :=
  {| accDelay := 3 * Second; accConn := exSocket 504 104; accRand := 14 |}.

(** Every step of [Start] succeeds. *)
Definition exEnv : StartEnv := exEnvOf (Some exAcceptA) (Some exAcceptB).

(** Node A never dials the listener: nothing arrives on the channel. *)
Definition exEnvNoDial : StartEnv := exEnvOf None (Some exAcceptB).

(** Node A dials, and then stays silent during the handshake. *)
Definition exSilentSocket : Conn :=
  {| inbox := []; wfaults := []; outbox := []; closed := false |}.

Definition exEnvSilent : StartEnv :=
  exEnvOf (Some {| accDelay := 2 * Second; accConn := exSilentSocket;
                   accRand := 13 |})
          (Some exAcceptB).

Definition exSystem : System :=
  {| peers := []; listeners := [];
     bridge := NewConnectionBridge exNodeA exNodeB; tasks := [] |}.

(** A socket whose far end answers the version message with a message of
    another kind (an address request), then a verack echoing [sent]. *)
Definition exWrongKindSocket (sent : Z) : Conn :=
  {| inbox := [Arrive MsgDeSoGetAddr; Arrive (MsgDeSoVerack sent)];
     wfaults := []; outbox := []; closed := false |}.

(** A store holding one fresh leg on the socket [conn]. *)
Definition exLegSystem (conn : Conn) : System :=
  {| peers := [NewPeer conn true]; listeners := [];
     bridge := NewConnectionBridge exNodeA exNodeB; tasks := [] |}.

(** The bridge of the example after a successful [Start]: legs 0 and 1 are
    the inbound legs of A and B, legs 2 and 3 the outbound legs of A and
    B; task 0 routes leg 2 to leg 1, task 1 leg 1 to leg 2, task 2 leg 3
    to leg 0 and task 3 leg 0 to leg 3. No task has run yet. *)
Definition exStarted : System :=
  match Start (flags := desoFlags) exEnv exSystem with
  | Returned _ s => s
  | _ => exSystem
  end.

Definition exPing : DeSoMessage := MsgDeSoOther 18 [1; 2; 3].
Definition exPong : DeSoMessage := MsgDeSoOther 19 [4; 5].

(** All four routers start; router 0 is reading when node A's socket goes
    down. Router 0 sees the read fail and restarts the bridge; the other
    routers see the bridge disabled and leave; router 0 runs again. *)
Definition exReadFailure : list Event :=
  [Tick 0; Tick 1; Tick 2; Tick 3; Tick 0; CloseConn 2; Tick 0; Tick 0;
   Tick 1; Tick 2; Tick 3; Tick 0].

(** Router 0 is reading; node A sends a message, and the bridge is disabled
    before the router runs again. *)
Definition exDisabledAfterRead : list Event :=
  [Tick 0; Tick 0; Deliver 2 (Arrive exPing); SetDisabled true; Tick 0].

(** Router 0 relays a mix of messages from node A. *)
Definition exTraffic : list Event :=
  [Tick 0; Deliver 2 (Arrive exPing); Deliver 2 (Arrive (MsgDeSoAddr [7]));
   Tick 0; Tick 0; Tick 0; Tick 0; Deliver 2 (Arrive MsgDeSoGetAddr);
   Deliver 2 (Arrive exPong); Tick 0; Tick 0; Tick 0; Tick 0; Tick 0].

(** The bridge is paused; node A sends an address list; the bridge is
    resumed and router 0 runs until it waits for more. *)
Definition exPausedAddr : list Event :=
  [Tick 0; SetPaused true; Deliver 2 (Arrive (MsgDeSoAddr [7])); Tick 0;
   Tick 0; SetPaused false; Tick 0; Tick 0; Tick 0; Tick 0].

(** The bridge is paused; node A sends three messages while router 0
    polls. *)
Definition exPausedTraffic : list Event :=
  [Deliver 2 (Arrive exPing); Tick 0; Deliver 2 (Arrive MsgDeSoGetAddr);
   Tick 0; Tick 0; Deliver 2 (Arrive exPong)].

(** The started bridge of the example with router 0 at the head of its
    loop and the bridge paused. *)
Definition exPaused : System :=
  match run (flags := desoFlags) [Tick 0; SetPaused true] exStarted with
  | Some s => s
  | None => exStarted
  end.

(** The started bridge of the example with router 0 at the head of its
    loop and three messages from node A waiting on its source. *)
Definition exQueued : System :=
  match run (flags := desoFlags)
          [Tick 0; Deliver 2 (Arrive exPing);
           Deliver 2 (Arrive (MsgDeSoAddr [7])); Deliver 2 (Arrive exPong)]
          exStarted with
  | Some s => s
  | None => exStarted
  end.

(** The started bridge of the example once its four routers have added
    themselves to the wait group. *)
Definition exRunning : System :=
  match run (flags := desoFlags) [Tick 0; Tick 1; Tick 2; Tick 3]
          exStarted with
  | Some s => s
  | None => exStarted
  end.

(** Router 0 is already inside the read when the bridge is paused; node A
    then sends a ping and the router runs. *)
Definition exPausedInFlight : list Event :=
  [Tick 0; Tick 0; SetPaused true; Deliver 2 (Arrive exPing); Tick 0].

(** As [exReadFailure], but the bridge is disabled by someone else between
    the failed read of router 0 and its call of [Restart]: the
    [Disconnect] of the restart is then the no-op, and its [Start] runs,
    here with every step succeeding. *)
Definition exReadFailureRace : list Event :=
  [Tick 0; Tick 1; Tick 2; Tick 3; Tick 0; CloseConn 2; Tick 0;
   SetDisabled true; Tick 0; TickStart 0 exEnv].

(** ** Auxiliary definitions for the proofs *)

(** The store with leg [c] replaced by [x]. *)
Definition withPeer (c : nat) (x : Peer) (s : System) : System :=
  set_peers (<[c:=x]> (peers s)) s.

(** What a call leaves of an outcome: a property of the value and store a
    call returns with, one of the store it parks with; a panic leaves
    nothing to state. *)
Definition post {A} (o : Outcome A) (Q : A -> System -> Prop)
    (QP : System -> Prop) : Prop :=
  match o with
  | Returned a s' => Q a s'
  | Parked s' => QP s'
  | Panicked => True
  end.

(** [m] relates the store it starts in to every store it stops in. *)
Definition preserves {A} (R : System -> System -> Prop) (m : M A) : Prop :=
  forall s, post (m s) (fun _ s' => R s s') (fun s' => R s s').

(** A task as [go routeTraffic] creates it. *)
Definition freshTask (t : Task) : Prop :=
  exists src dst, t = newTask src dst.

(** What no operation of the bridge changes except the router tasks
    themselves: the wait-group counter moves only in [routeTraffic], and
    the task list only grows, by fresh tasks. *)
Record Frame (s s' : System) : Prop := {
  frame_waitGroup : waitGroup (bridge s') = waitGroup (bridge s);
  frame_tasks : exists new, tasks s' = tasks s ++ new /\ Forall freshTask new
}.

(** No leg was disconnected and no listener closed between [s] and [s']:
    every leg and listener of [s'] has received as many [Disconnect] or
    [Close] calls as it had in [s], none if it is new. *)
Record Untouched (s s' : System) : Prop := {
  untouched_peers_len : (length (peers s) <= length (peers s'))%nat;
  untouched_peers : forall i p', peers s' !! i = Some p' ->
      disconnectCalls p' = default 0%nat (disconnectCalls <$> peers s !! i);
  untouched_listeners_len :
    (length (listeners s) <= length (listeners s'))%nat;
  untouched_listeners : forall i l', listeners s' !! i = Some l' ->
      closeCalls l' = default 0%nat (closeCalls <$> listeners s !! i)
}.

(** No router was launched and the [disabled] flag was left alone. *)
Record Quiet (s s' : System) : Prop := {
  quiet_tasks : tasks s' = tasks s;
  quiet_disabled : disabled (bridge s') = disabled (bridge s)
}.

(** A call that returns an error has launched no router and left
    [disabled] alone. *)
Definition quietOnError (m : M (option Error)) : Prop :=
  forall s, post (m s)
                 (fun r s' => match r with Some _ => Quiet s s' | None => True end)
                 (fun _ => True).

Section Leg.

Context {flags : ServiceFlags}.

(** [startConnection] seen from the leg it runs on: the error it returns
    and the leg it leaves ([startConnection_run] proves that this is what
    [startConnection] computes). *)
Definition legHandshake (node : Node) (io : HandshakeEnv) (x : Peer)
  : option Error * Peer :=
  let ver := getVersionMessage node (hsNow io) (hsRand io) in
  let x := set_VersionNonceSent (Nonce ver) x in
  let '(err, c) := connWrite (MsgVersion ver) (PConn x) in
  let x := set_PConn c x in
  match err with
  | Some e => (Some e, x)
  | None =>
      let '(r, c) := connRead (PConn x) in
      let x := set_PConn c x in
      match r with
      | ReadBlocked => (Some ErrReadTimeout, x)
      | ReadErr e => (Some e, x)
      | ReadOk msg =>
          let x :=
            match msg with
            | MsgVersion verMsg =>
                set_TimeOffsetSecs (int64 (TstampSecs verMsg - hsNowReply io))
                  (set_TimeConnected (TstampSecs verMsg)
                     (set_VersionNonceReceived (Nonce verMsg) x))
            | _ => x
            end in
          let '(err, c) :=
            connWrite (MsgDeSoVerack (VersionNonceReceived x)) (PConn x) in
          let x := set_PConn c x in
          match err with
          | Some e => (Some e, x)
          | None =>
              let '(r, c) := connRead (PConn x) in
              let x := set_PConn c x in
              match r with
              | ReadBlocked => (Some ErrReadTimeout, x)
              | ReadErr e => (Some e, x)
              | ReadOk (MsgDeSoVerack nonce) =>
                  if negb (nonce =? VersionNonceSent x)
                  then (Some (ErrVerackNonce nonce (VersionNonceSent x)), x)
                  else (None, set_VersionNegotiated true x)
              | ReadOk msg => (Some (ErrNotVerack (GetMsgType msg)), x)
              end
          end
      end
  end.

(** The leg [createInboundConnection] builds from a dialled socket. *)
Definition inboundPeer (conn : Conn) (rand : Z) : Peer :=
  set_ID (uint64 rand) (NewPeer conn true).

End Leg.

(** ** The router's control flow as a relation

    [localStep b t delta t']: scheduled once with the bridge in state [b],
    a task in local state [t] can move to [t'], changing the wait-group
    counter by [delta]. [routeTraffic_localStep] proves that every move of
    [routeTraffic] is one of these. *)

Inductive localStep (b : ConnectionBridge) : Task -> Z -> Task -> Prop :=
| ls_stay t :
    localStep b t 0 t
| ls_add t :
    pc t = Entry ->
    localStep b t 1 (set_pc LoopTop t)
| ls_break t :
    pc t = LoopTop ->
    localStep b t (-1) (set_pc (Exited ExitDone) (log_done t))
| ls_sleep t :
    pc t = LoopTop ->
    localStep b t 0 (log_sleep t)
| ls_read t :
    pc t = LoopTop ->
    localStep b t 0 (set_pc Reading t)
| ls_error_break t :
    pc t = Reading ->
    localStep b t (-1) (set_pc (Exited ExitDone) (log_done t))
| ls_error_restart t :
    pc t = Reading ->
    localStep b t 0 (set_pc CallRestart t)
| ls_discard t m :
    pc t = Reading ->
    localStep b t (-1)
      (set_pc (Exited ExitDone) (log_done (log_discard m (log_read m t))))
| ls_filter t m :
    pc t = Reading -> forwarded m = false ->
    localStep b t 0 (set_pc LoopTop (log_read m t))
| ls_forward t m :
    pc t = Reading -> forwarded m = true ->
    localStep b t 0 (set_pc LoopTop (log_write m (log_read m t)))
| ls_write_restart t m :
    pc t = Reading -> forwarded m = true ->
    localStep b t 0 (set_pc CallRestart (log_write m (log_read m t)))
| ls_disconnect_returned t :
    pc t = CallRestart ->
    localStep b t 0 (set_pc RestartStart t)
| ls_disconnect_parked t :
    pc t = CallRestart ->
    localStep b t 0 (set_pc RestartWait t)
| ls_wait_over t :
    pc t = RestartWait -> waitGroup b = 0 ->
    localStep b t 0 (set_pc RestartStart t)
| ls_started t :
    pc t = RestartStart ->
    localStep b t 0 (set_pc (Exited ExitRestart) t).

(** ** Invariants of a run *)

(** What a router has handed to its destination, against what it has read:
    the reads with the address kinds removed, in order; the one exception
    is a last message read when the [disabled] check after the read found
    the flag set, which is dropped. *)
Definition logsInv (t : Task) : Prop :=
  (discarded t = [] /\ writes t = List.filter forwarded (reads t)) \/
  (exists front m,
      reads t = front ++ [m] /\ discarded t = [m] /\
      writes t = List.filter forwarded front /\ pc t = Exited ExitDone).

(** A task has run [waitGroup.Done()] once when it left by [break], and
    not at all otherwise. *)
Definition doneInv (t : Task) : Prop :=
  doneSignals t = match pc t with
                  | Exited ExitDone => 1%nat
                  | _ => 0%nat
                  end.

(** The wait-group counter counts the tasks that have added themselves and
    not signalled. *)
Definition waitGroupInv (s : System) : Prop :=
  waitGroup (bridge s) = countOutstanding (tasks s).

(** ** Schedules *)

Definition ticks (i n : nat) : list Event := repeat (Tick i) n.

(** A schedule during which only task [i] runs and the far end of leg [p]
    sends messages. *)
Definition pauseSchedule (i p : nat) (sched : list Event) : Prop :=
  Forall (fun e => e = Tick i \/ exists m, e = Deliver p (Arrive m)) sched.

(** Task [i] is at the head of its loop, routing leg [p] to leg [d]; [q]
    is what leg [p] holds unread; both sockets are up, no write is going to
    fail, and the bridge is not disabled. *)
Record Ready (i p d : nat) (q : list DeSoMessage) (s : System) : Prop := {
  ready_task : exists t, tasks s !! i = Some t /\ pc t = LoopTop /\
                         source t = Some p /\ destination t = Some d;
  ready_distinct : p <> d;
  ready_source : exists x, peers s !! p = Some x /\
                           closed (PConn x) = false /\
                           inbox (PConn x) = map Arrive q;
  ready_destination : exists y, peers s !! d = Some y /\
                                closed (PConn y) = false /\
                                wfaults (PConn y) = [];
  ready_enabled : disabled (bridge s) = false
}.

(** The logs of task [i] and the outbox of leg [d]. *)
Definition readsOf (i : nat) (s : System) : list DeSoMessage :=
  default [] (reads <$> tasks s !! i).

Definition writesOf (i : nat) (s : System) : list DeSoMessage :=
  default [] (writes <$> tasks s !! i).

Definition outboxOf (d : nat) (s : System) : list DeSoMessage :=
  default [] ((fun y => outbox (PConn y)) <$> peers s !! d).

Definition pcOf (i : nat) (s : System) : option PC :=
  pc <$> tasks s !! i.

Definition doneSignalsOf (i : nat) (s : System) : option nat :=
  doneSignals <$> tasks s !! i.

(** The invariant of every run that starts from freshly launched tasks. *)
Record SystemInv (s : System) : Prop := {
  inv_waitGroup : waitGroupInv s;
  inv_logs : Forall logsInv (tasks s);
  inv_done : Forall doneInv (tasks s)
}.

(** Task [i] is inside the [waitGroup.Wait()] of the [Disconnect] of its
    own [Restart], having signalled nothing. *)
Definition waitingInRestart (i : nat) (s : System) : Prop :=
  exists t, tasks s !! i = Some t /\ pc t = RestartWait /\
            doneSignals t = 0%nat.

(** ** What a call of [Start] leaves *)

(** The four routes of a started bridge, over the legs [inA], [inB],
    [outA] and [outB], in the order [Start] launches them. *)
Definition routes (inA inB outA outB : nat) : list Task :=
  [newTask (Some outA) (Some inB); newTask (Some inB) (Some outA);
   newTask (Some outB) (Some inA); newTask (Some inA) (Some outB)].

(** [s'] is [s] after a [Start] that got through its first half: two new
    listeners and the two new inbound legs are in the store and the bridge
    points at them; the legs and listeners of [s] are still there,
    unchanged; [new] is every leg created. *)
Record Begun (s s' : System) (new : list Peer) : Prop := {
  begun_peers : peers s' = peers s ++ new;
  begun_fresh : Forall (fun x => disconnectCalls x = 0%nat) new;
  begun_listeners :
    listeners s'
      = listeners s ++ [{| closeCalls := 0 |}; {| closeCalls := 0 |}];
  begun_listenerA : outboundListenerA (bridge s') = Some (length (listeners s));
  begun_listenerB :
    outboundListenerB (bridge s') = Some (length (listeners s) + 1)%nat;
  begun_inboundA : connectionInboundA (bridge s') = Some (length (peers s));
  begun_inboundB :
    connectionInboundB (bridge s') = Some (length (peers s) + 1)%nat;
  begun_nodeA : nodeA (bridge s') = nodeA (bridge s);
  begun_nodeB : nodeB (bridge s') = nodeB (bridge s);
  begun_paused : paused (bridge s') = paused (bridge s);
  begun_waitGroup : waitGroup (bridge s') = waitGroup (bridge s);
  begun_enabled : disabled (bridge s') = false
}.

(** A socket whose far end answers the version message with its own and
    then, instead of a verack, sends an address request. *)
Definition exNoVerackSocket : Conn :=
  {| inbox := [Arrive (MsgVersion (exReply 501)); Arrive MsgDeSoGetAddr];
     wfaults := []; outbox := []; closed := false |}.

(** ** Teardown *)

(** A pointer into a store of [n] objects that can be dereferenced. *)
Definition validPtr (n : nat) (p : option nat) : bool :=
  match p with
  | Some i => bool_decide (i < n)%nat
  | None => false
  end.

(** The leg fields and the listener fields of the bridge, in the order
    [Disconnect] goes through them. *)
Definition legsOf (b : ConnectionBridge) : list (option nat) :=
  [connectionInboundA b; connectionInboundB b;
   connectionOutboundA b; connectionOutboundB b].

Definition listenersOf (b : ConnectionBridge) : list (option nat) :=
  [outboundListenerA b; outboundListenerB b].

(** Every leg and listener field of the bridge points at an object of the
    store. *)
Definition wired (s : System) : bool :=
  forallb (validPtr (length (peers s))) (legsOf (bridge s)) &&
  forallb (validPtr (length (listeners s))) (listenersOf (bridge s)).

(** ** Runs of a disabled bridge *)



(** ** Shutdown *)

(** A router that is going to leave by [break] once the bridge is
    disabled: it has not entered the loop, or is at the head of the loop,
    or is inside a read on a leg whose socket is closed, or has left
    already. *)
Definition leaving (s : System) (t : Task) : bool :=
  match pc t with
  | Entry | LoopTop | Exited ExitDone => true
  | Reading =>
      match source t with
      | Some c =>
          match peers s !! c with
          | Some x => closed (PConn x)
          | None => false
          end
      | None => false
      end
  | _ => false
  end.

(** Every router is scheduled twice, in the order launched. *)
Definition drainSchedule (n : nat) : list Event :=
  flat_map (fun i => [Tick i; Tick i]) (seq 0 n).

(** The started bridge of the example with routers 0 and 1 inside their
    reads and routers 2 and 3 at the head of their loops, after the test
    driver has called [Disconnect]. *)
Definition exStopped : System :=
  match run (flags := desoFlags)
          [Tick 0; Tick 1; Tick 2; Tick 3; Tick 0; Tick 1; CallDisconnect]
          exStarted with
  | Some s => s
  | None => exStarted
  end.

(** ** Pointers in a run *)




(** Router 0 of the example is inside its read, a ping from node A is
    waiting on its source, and the socket of its destination has gone
    down. *)
Definition exWriteFailure : System :=
  match run (flags := desoFlags)
          [Tick 0; Tick 0; Deliver 2 (Arrive exPing); CloseConn 1]
          exStarted with
  | Some s => s
  | None => exStarted
  end.

(** * Theorems *)

(** ** Running the monad *)

Lemma bind_run {A B} (m : M A) (f : A -> M B) (s : System) :
  (m ≫= f) s = match m s with
               | Returned a s' => f a s'
               | Parked s' => Parked s'
               | Panicked => Panicked
               end.
Proof. reflexivity. Qed.

Lemma orReturn_run (m k : M (option Error)) (s : System) :
  orReturn m k s = match m s with
                   | Returned (Some e) s' => Returned (Some e) s'
                   | Returned None s' => k s'
                   | Parked s' => Parked s'
                   | Panicked => Panicked
                   end.
Proof.
  unfold orReturn. rewrite bind_run.
  destruct (m s) as [[e|] s'|s'|]; reflexivity.
Qed.

Lemma post_mono {A} (o : Outcome A) (Q Q' : A -> System -> Prop)
    (QP QP' : System -> Prop) :
  (forall a s, Q a s -> Q' a s) -> (forall s, QP s -> QP' s) ->
  post o Q QP -> post o Q' QP'.
Proof. intros HQ HP. destruct o; simpl; auto. Qed.

Section Preserves.

Context (R : System -> System -> Prop) `{!PreOrder R}.

Lemma preserves_ret {A} (a : A) : preserves R (ret a).
Proof. intros s. simpl. reflexivity. Qed.

Lemma preserves_bind {A B} (m : M A) (f : A -> M B) :
  preserves R m -> (forall a, preserves R (f a)) -> preserves R (m ≫= f).
Proof.
  intros Hm Hf s. rewrite bind_run. specialize (Hm s).
  destruct (m s) as [a s'|s'|]; simpl in *; auto.
  specialize (Hf a s').
  destruct (f a s') as [b s''|s''|]; simpl in *; auto; by etrans.
Qed.

Lemma preserves_orReturn (m k : M (option Error)) :
  preserves R m -> preserves R k -> preserves R (orReturn m k).
Proof.
  intros Hm Hk. unfold orReturn. apply preserves_bind; [done|].
  intros [e|]; [apply preserves_ret | done].
Qed.

Lemma preserves_getBridge : preserves R getBridge.
Proof. intros s. simpl. reflexivity. Qed.

End Preserves.

(** ** The three frames are preorders *)

#[global] Instance Frame_preorder : PreOrder Frame.
Proof.
  split.
  - intros s. split; [done|]. exists []. by rewrite app_nil_r.
  - intros s1 s2 s3 [Hw1 (n1 & Ht1 & Hf1)] [Hw2 (n2 & Ht2 & Hf2)]. split.
    + congruence.
    + exists (n1 ++ n2). rewrite Ht2, Ht1, <- app_assoc. split; [done|].
      by apply Forall_app.
Qed.

#[global] Instance Untouched_preorder : PreOrder Untouched.
Proof.
  split.
  - intros s. split; try lia.
    + intros i p' H. by rewrite H.
    + intros i l' H. by rewrite H.
  - intros s1 s2 s3 [Hl1 Hp1 Hm1 Hq1] [Hl2 Hp2 Hm2 Hq2]. split; try lia.
    + intros i p3 H3. rewrite (Hp2 _ _ H3).
      destruct (peers s2 !! i) as [p2|] eqn:E2; simpl.
      * by apply Hp1.
      * apply lookup_ge_None in E2.
        rewrite (proj2 (lookup_ge_None (peers s1) i)) by lia. done.
    + intros i l3 H3. rewrite (Hq2 _ _ H3).
      destruct (listeners s2 !! i) as [l2|] eqn:E2; simpl.
      * by apply Hq1.
      * apply lookup_ge_None in E2.
        rewrite (proj2 (lookup_ge_None (listeners s1) i)) by lia. done.
Qed.

#[global] Instance Quiet_preorder : PreOrder Quiet.
Proof.
  split.
  - intros s. by split.
  - intros s1 s2 s3 [H1 H2] [H3 H4]. split; congruence.
Qed.

(** ** Sockets *)

Lemma connWrite_spec (m : DeSoMessage) (c : Conn) :
  closed (snd (connWrite m c)) = closed c /\
  (fst (connWrite m c) = None -> outbox (snd (connWrite m c)) = outbox c ++ [m]) /\
  (fst (connWrite m c) <> None -> outbox (snd (connWrite m c)) = outbox c).
Proof.
  unfold connWrite. destruct (closed c) eqn:E; [by repeat split|].
  destruct (wfaults c) as [|[] r]; simpl; repeat split; try done.
Qed.

Lemma connRead_spec (c : Conn) :
  closed (snd (connRead c)) = closed c /\
  outbox (snd (connRead c)) = outbox c.
Proof.
  unfold connRead. destruct (closed c) eqn:E; [by split|].
  destruct (inbox c) as [|[m|] q]; simpl; by split.
Qed.

(** ** Operations on one leg *)

Lemma withPeer_lookup (c : nat) (x : Peer) (s : System) :
  (c < length (peers s))%nat -> peers (withPeer c x s) !! c = Some x.
Proof. intros. simpl. by apply list_lookup_insert_eq. Qed.

Lemma withPeer_lookup_ne (c i : nat) (x : Peer) (s : System) :
  c ≠ i -> peers (withPeer c x s) !! i = peers s !! i.
Proof. intros. simpl. by apply list_lookup_insert_ne. Qed.

Lemma withPeer_withPeer (c : nat) (x y : Peer) (s : System) :
  withPeer c y (withPeer c x s) = withPeer c y s.
Proof. unfold withPeer, set_peers. simpl. by rewrite list_insert_insert_eq. Qed.

Lemma derefPeer_run (c : nat) (x : Peer) (s : System) :
  peers s !! c = Some x -> derefPeer (Some c) s = Returned x s.
Proof. intros H. unfold derefPeer. by rewrite H. Qed.

Lemma modifyPeer_run (c : nat) (x : Peer) (f : Peer -> Peer) (s : System) :
  peers s !! c = Some x ->
  modifyPeer (Some c) f s = Returned tt (withPeer c (f x) s).
Proof. intros H. unfold modifyPeer. by rewrite H. Qed.

Lemma ReadDeSoMessage_run (c : nat) (x : Peer) (s : System) :
  peers s !! c = Some x ->
  ReadDeSoMessage (Some c) s =
    Returned (fst (connRead (PConn x)))
             (withPeer c (set_PConn (snd (connRead (PConn x))) x) s).
Proof.
  intros H. unfold ReadDeSoMessage. rewrite bind_run, (derefPeer_run _ _ _ H).
  destruct (connRead (PConn x)) as [r c'].
  rewrite bind_run, (modifyPeer_run _ _ _ _ H). reflexivity.
Qed.

Lemma WriteDeSoMessage_run (c : nat) (x : Peer) (m : DeSoMessage) (s : System) :
  peers s !! c = Some x ->
  WriteDeSoMessage (Some c) m s =
    Returned (fst (connWrite m (PConn x)))
             (withPeer c (set_PConn (snd (connWrite m (PConn x))) x) s).
Proof.
  intros H. unfold WriteDeSoMessage. rewrite bind_run, (derefPeer_run _ _ _ H).
  destruct (connWrite m (PConn x)) as [r c'].
  rewrite bind_run, (modifyPeer_run _ _ _ _ H). reflexivity.
Qed.

(** A leg operation on a [nil] or dangling pointer panics. *)
Lemma ReadDeSoMessage_nil (p : option nat) (s : System) :
  (forall c, p = Some c -> peers s !! c = None) ->
  ReadDeSoMessage p s = Panicked.
Proof.
  intros H. unfold ReadDeSoMessage. rewrite bind_run. unfold derefPeer.
  destruct p as [c|]; [|done]. by rewrite (H c eq_refl).
Qed.

Lemma WriteDeSoMessage_nil (p : option nat) (m : DeSoMessage) (s : System) :
  (forall c, p = Some c -> peers s !! c = None) ->
  WriteDeSoMessage p m s = Panicked.
Proof.
  intros H. unfold WriteDeSoMessage. rewrite bind_run. unfold derefPeer.
  destruct p as [c|]; [|done]. by rewrite (H c eq_refl).
Qed.

(** One step of symbolic execution on leg [c]. *)
Ltac leg_step :=
  match goal with
  | |- context [ (_ ≫= _) _ ] => rewrite bind_run
  | |- context [ modifyPeer (Some ?c) ?f (withPeer ?c ?x ?s) ] =>
      rewrite (modifyPeer_run c x f (withPeer c x s))
        by (apply withPeer_lookup; assumption);
      rewrite withPeer_withPeer
  | |- context [ derefPeer (Some ?c) (withPeer ?c ?x ?s) ] =>
      rewrite (derefPeer_run c x (withPeer c x s))
        by (apply withPeer_lookup; assumption)
  | |- context [ ReadDeSoMessage (Some ?c) (withPeer ?c ?x ?s) ] =>
      rewrite (ReadDeSoMessage_run c x (withPeer c x s))
        by (apply withPeer_lookup; assumption);
      rewrite withPeer_withPeer
  | |- context [ WriteDeSoMessage (Some ?c) ?m (withPeer ?c ?x ?s) ] =>
      rewrite (WriteDeSoMessage_run c x m (withPeer c x s))
        by (apply withPeer_lookup; assumption);
      rewrite withPeer_withPeer
  end.

Ltac leg_simpl :=
  cbn [PConn set_PConn set_VersionNonceSent set_TimeOffsetSecs
       set_TimeConnected set_VersionNonceReceived set_VersionNegotiated
       VersionNonceReceived VersionNonceSent VersionNegotiated
       disconnectCalls fst snd].

Section Handshake.

Context {flags : ServiceFlags}.

(** [startConnection] touches the leg it is given and nothing else; on a
    [nil] or dangling leg it panics. *)
Lemma startConnection_run (conn : option nat) (node : Node)
    (io : HandshakeEnv) (s : System) :
  startConnection conn node io s =
    match conn with
    | Some c =>
        match peers s !! c with
        | Some x => Returned (fst (legHandshake node io x))
                             (withPeer c (snd (legHandshake node io x)) s)
        | None => Panicked
        end
    | None => Panicked
    end.
Proof.
  unfold startConnection.
  destruct conn as [c|]; [|reflexivity].
  destruct (peers s !! c) as [x|] eqn:Hx.
  2:{ rewrite bind_run. unfold modifyPeer. by rewrite Hx. }
  assert (Hlt : (c < length (peers s))%nat) by (eapply lookup_lt_Some; eauto).
  rewrite bind_run, (modifyPeer_run _ _ _ _ Hx).
  unfold legHandshake, orReturn, ReadWithTimeout, readVersionReply,
    readVerackReply.
  repeat leg_step. leg_simpl.
  destruct (connWrite _ _) as [[e|] c1]; leg_simpl; cbv beta iota;
    [reflexivity|].
  repeat leg_step. leg_simpl.
  destruct (connRead c1) as [r c2]; leg_simpl; cbv beta iota.
  destruct r as [msg|e|]; [|reflexivity|reflexivity].
  destruct msg as [verMsg| | | |]; repeat leg_step; unfold ret at 1 2;
    cbv beta iota; repeat leg_step.
  all: leg_simpl.
  all: destruct (connWrite _ c2) as [[e|] c3]; leg_simpl; cbv beta iota;
    [reflexivity|].
  all: repeat leg_step.
  all: leg_simpl.
  all: destruct (connRead c3) as [r c4]; leg_simpl; cbv beta iota.
  all: destruct r as [msg|e|]; [|reflexivity|reflexivity].
  all: destruct msg as [?|nn| | |]; cbn [GetMsgType];
    (destruct (decide _) as [Hd|Hd];
     [try reflexivity; try congruence
     |try (exfalso; apply Hd; discriminate)]).
  all: repeat leg_step.
  all: leg_simpl.
  all: destruct (negb _); unfold ret; cbv beta iota; try reflexivity.
  all: repeat leg_step; reflexivity.
Qed.

(** What the handshake does on its leg, whatever the far end does. *)
Lemma legHandshake_invariants (node : Node) (io : HandshakeEnv) (x : Peer) :
  let ver := getVersionMessage node (hsNow io) (hsRand io) in
  let x' := snd (legHandshake node io x) in
  disconnectCalls x' = disconnectCalls x /\
  closed (PConn x') = closed (PConn x) /\
  VersionNonceSent x' = Nonce ver /\
  (outbox (PConn x') = outbox (PConn x) \/
   exists rest, outbox (PConn x') = outbox (PConn x) ++ MsgVersion ver :: rest).
Proof.
  cbv zeta. unfold legHandshake.
  set (ver := getVersionMessage _ _ _). leg_simpl.
  pose proof (connWrite_spec (MsgVersion ver) (PConn x)) as (Hc1 & Ho1 & He1).
  destruct (connWrite (MsgVersion ver) (PConn x)) as [[e|] c1]; leg_simpl;
    cbn [fst snd] in *.
  { repeat split; auto. }
  specialize (Ho1 eq_refl). clear He1.
  pose proof (connRead_spec c1) as (Hc2 & Ho2).
  destruct (connRead c1) as [r c2]; cbn [fst snd] in *.
  assert (Hout : forall c, outbox c = outbox c2 \/
                           (exists m, outbox c = outbox c2 ++ [m]) ->
            outbox c = outbox (PConn x) \/
            exists rest, outbox c = outbox (PConn x) ++ MsgVersion ver :: rest).
  { intros c [H|[m H]]; right; rewrite H, Ho2, Ho1; eauto.
    exists [m]. by rewrite <- app_assoc. }
  destruct r as [msg|e|]; leg_simpl;
    [|repeat split; auto; congruence..].
  set (x2 := match msg with MsgVersion _ => _ | _ => _ end).
  assert (Hx2 : disconnectCalls x2 = disconnectCalls x /\ PConn x2 = c2 /\
                VersionNonceSent x2 = Nonce ver).
  { subst x2. destruct msg; repeat split; reflexivity. }
  destruct Hx2 as (Hd2 & Hp2 & Hn2). clearbody x2.
  pose proof (connWrite_spec (MsgDeSoVerack (VersionNonceReceived x2))
                (PConn x2)) as (Hc3 & Ho3 & He3).
  destruct (connWrite _ (PConn x2)) as [[e|] c3]; leg_simpl;
    cbn [fst snd] in *.
  { repeat split; auto; [congruence|]. apply Hout. left.
    rewrite He3 by done. congruence. }
  specialize (Ho3 eq_refl). clear He3.
  pose proof (connRead_spec c3) as (Hc4 & Ho4).
  destruct (connRead c3) as [r c4]; cbn [fst snd] in *.
  assert (Hfin : closed c4 = closed (PConn x) /\
            (outbox c4 = outbox (PConn x) \/
             exists rest, outbox c4 = outbox (PConn x) ++ MsgVersion ver :: rest)).
  { split; [congruence|]. apply Hout. right. rewrite Ho4, Ho3, Hp2. eauto. }
  destruct Hfin as (Hf1 & Hf2).
  destruct r as [[?|nn| | |]|e|]; leg_simpl; try (repeat split; auto; fail).
  destruct (negb _); leg_simpl; repeat split; auto.
Qed.

End Handshake.

(** ** The synthesized version message *)

Section Version.

Context {flags : ServiceFlags}.

Lemma getVersionMessage_fields (node : Node) (now rand : Z) :
  let ver := getVersionMessage node now rand in
  Version ver = ProtocolVersion (Params node) /\
  UserAgent ver = ParamsUserAgent (Params node) /\
  Services ver =
    (if HyperSync (NodeConfig node)
     then if ArchivalMode (NodeConfig node)
          then Z.lor (Z.lor SFFullNode SFHyperSync) SFArchivalNode
          else Z.lor SFFullNode SFHyperSync
     else SFFullNode) /\
  StartBlockHeight ver =
    match NodeServer node with
    | Some server => BlockTipHeight server mod 2 ^ 32
    | None => 0
    end /\
  MinFeeRateNanosPerKB ver = MinFeerate (NodeConfig node) /\
  Nonce ver = rand mod 2 ^ 64.
Proof. unfold getVersionMessage. simpl. repeat split; reflexivity. Qed.

(** C5 (as amended). The version message synthesized for a node is built
    from that node, the clock and the random draw alone: protocol version,
    user agent and minimum fee rate are the node's; the service flags are
    the full-node flag, with the hypersync flag when the node enables
    hypersync and the archival flag when it enables hypersync and archival
    mode together; the start height is the node's chain-tip height reduced
    to 32 bits, zero when the node has no server; the nonce is the random
    draw. On every leg the handshake returns, the nonce is recorded as the
    leg's sent-nonce, also when the write of the version message fails,
    and when anything was written the version message came first. *)
Theorem getVersionMessage_built_from_node (node : Node) (io : HandshakeEnv) :
  let ver := getVersionMessage node (hsNow io) (hsRand io) in
  (Version ver = ProtocolVersion (Params node) /\
   UserAgent ver = ParamsUserAgent (Params node) /\
   Services ver =
     (if HyperSync (NodeConfig node)
      then if ArchivalMode (NodeConfig node)
           then Z.lor (Z.lor SFFullNode SFHyperSync) SFArchivalNode
           else Z.lor SFFullNode SFHyperSync
      else SFFullNode) /\
   StartBlockHeight ver =
     match NodeServer node with
     | Some server => BlockTipHeight server mod 2 ^ 32
     | None => 0
     end /\
   MinFeeRateNanosPerKB ver = MinFeerate (NodeConfig node) /\
   Nonce ver = hsRand io mod 2 ^ 64) /\
  forall (c : nat) (x : Peer) (s : System),
    peers s !! c = Some x ->
    exists r x',
      startConnection (Some c) node io s = Returned r (withPeer c x' s) /\
      VersionNonceSent x' = Nonce ver /\
      (outbox (PConn x') = outbox (PConn x) \/
       exists rest,
         outbox (PConn x') = outbox (PConn x) ++ MsgVersion ver :: rest).
Proof.
  cbv zeta. split; [apply getVersionMessage_fields|].
  intros c x s Hx. rewrite startConnection_run, Hx.
  destruct (legHandshake_invariants node io x) as (_ & _ & Hn & Ho).
  eauto.
Qed.

End Version.

(** C5, witness: the handshake of the inbound leg of node B in the example
    run. *)
Lemma getVersionMessage_built_from_node_witness :
  exists r x',
    startConnection (flags := desoFlags) (Some 0%nat) exNodeB (exHs 101)
      (exLegSystem (exSocket 501 101))
    = Returned r (withPeer 0 x' (exLegSystem (exSocket 501 101))) /\
    VersionNonceSent x' = 101 /\
    (outbox (PConn x') = [] \/
     exists rest,
       outbox (PConn x') =
       [] ++ MsgVersion (getVersionMessage (flags := desoFlags) exNodeB
                           1700000000 101) :: rest).
Proof.
  apply (proj2 (getVersionMessage_built_from_node (flags := desoFlags)
                  exNodeB (exHs 101)) 0%nat
               (NewPeer (exSocket 501 101) true)).
  reflexivity.
Defined.

(** C5, counterexample. Node B of the example enables archival mode, not
    hypersync; the version message synthesized for it carries the
    full-node flag only, so the archival flag is not copied from the
    node's configuration. *)
Lemma getVersionMessage_archival_needs_hypersync :
  ArchivalMode (NodeConfig exNodeB) = true /\
  Services (getVersionMessage (flags := desoFlags) exNodeB 1700000000 101)
    = @SFFullNode desoFlags /\
  Z.land (Services (getVersionMessage (flags := desoFlags) exNodeB
                      1700000000 101))
         (@SFArchivalNode desoFlags) = 0.
Proof. repeat split; reflexivity. Qed.

(** ** The handshake *)

Section HandshakeOutcomes.

Context {flags : ServiceFlags}.

(** A handshake that returns an error leaves the negotiated flag as it
    found it; one that returns none sets it. *)
Lemma legHandshake_negotiated (node : Node) (io : HandshakeEnv) (x : Peer) :
  VersionNegotiated (snd (legHandshake node io x)) =
    match fst (legHandshake node io x) with
    | None => true
    | Some _ => VersionNegotiated x
    end.
Proof.
  unfold legHandshake. leg_simpl.
  destruct (connWrite _ _) as [[e|] c1]; leg_simpl; [done|].
  destruct (connRead c1) as [[msg|e|] c2]; leg_simpl; [|done..].
  set (x2 := match msg with MsgVersion _ => _ | _ => _ end).
  assert (Hx2 : VersionNegotiated x2 = VersionNegotiated x)
    by (subst x2; destruct msg; reflexivity).
  clearbody x2.
  destruct (connWrite _ _) as [[e|] c3]; leg_simpl; [done|].
  destruct (connRead c3) as [[[?|nn| | |]|e|] c4]; leg_simpl; try done.
  destruct (negb _); leg_simpl; done.
Qed.

(** No reply to the version message within the timeout: an error. *)
Lemma legHandshake_version_timeout (node : Node) (io : HandshakeEnv) (x : Peer) :
  closed (PConn x) = false -> wfaults (PConn x) = [] -> inbox (PConn x) = [] ->
  fst (legHandshake node io x) = Some ErrReadTimeout.
Proof.
  intros Hc Hw Hi. unfold legHandshake, connWrite, connRead. leg_simpl.
  rewrite Hc, Hw. leg_simpl. cbn [closed inbox]. by rewrite ?Hc, ?Hi.
Qed.

(** A version reply, then no verack within the timeout: an error. *)
Lemma legHandshake_verack_timeout (node : Node) (io : HandshakeEnv) (x : Peer)
    (reply : MsgDeSoVersion) :
  closed (PConn x) = false -> wfaults (PConn x) = [] ->
  inbox (PConn x) = [Arrive (MsgVersion reply)] ->
  fst (legHandshake node io x) = Some ErrReadTimeout.
Proof.
  intros Hc Hw Hi. unfold legHandshake, connWrite, connRead. leg_simpl.
  rewrite Hc, Hw. leg_simpl. cbn [closed inbox wfaults].
  rewrite ?Hc, ?Hi. leg_simpl. cbn [closed inbox wfaults]. by rewrite ?Hc.
Qed.

(** A verack whose nonce is not the one sent: an error. *)
Lemma legHandshake_verack_nonce (node : Node) (io : HandshakeEnv) (x : Peer)
    (first : DeSoMessage) (nonce : Z) (rest : list Arrival) :
  closed (PConn x) = false -> wfaults (PConn x) = [] ->
  inbox (PConn x) = Arrive first :: Arrive (MsgDeSoVerack nonce) :: rest ->
  nonce <> uint64 (hsRand io) ->
  fst (legHandshake node io x)
    = Some (ErrVerackNonce nonce (uint64 (hsRand io))).
Proof.
  intros Hc Hw Hi Hn. unfold legHandshake, connWrite, connRead. leg_simpl.
  rewrite Hc, Hw. leg_simpl. cbn [closed inbox wfaults].
  rewrite ?Hc, ?Hi. leg_simpl.
  assert (E : (nonce =? uint64 (hsRand io)) = false) by by apply Z.eqb_neq.
  destruct first; leg_simpl; cbn [closed inbox wfaults]; rewrite ?Hc;
    leg_simpl; cbn [Nonce getVersionMessage]; by rewrite E.
Qed.

(** A reply to the version message that is not a version message is let
    through: the callback returns the nil error of the read, and a verack
    with the right nonce then completes the handshake. *)
Lemma legHandshake_wrong_kind (node : Node) (io : HandshakeEnv) (x : Peer)
    (first : DeSoMessage) (rest : list Arrival) :
  closed (PConn x) = false -> wfaults (PConn x) = [] ->
  inbox (PConn x)
    = Arrive first :: Arrive (MsgDeSoVerack (uint64 (hsRand io))) :: rest ->
  fst (legHandshake node io x) = None /\
  VersionNegotiated (snd (legHandshake node io x)) = true.
Proof.
  intros Hc Hw Hi.
  assert (fst (legHandshake node io x) = None) as H.
  { unfold legHandshake, connWrite, connRead. leg_simpl.
    rewrite Hc, Hw. leg_simpl. cbn [closed inbox wfaults].
    rewrite ?Hc, ?Hi. leg_simpl.
    destruct first; leg_simpl; cbn [closed inbox wfaults]; rewrite ?Hc;
      leg_simpl; cbn [Nonce getVersionMessage]; by rewrite Z.eqb_refl. }
  split; [done|]. by rewrite legHandshake_negotiated, H.
Qed.

End HandshakeOutcomes.

(** C2, at the failing input. The far end answers the version message with
    an address request and then sends a verack with the nonce it was sent.
    [startConnection] returns no error, and the leg is negotiated. *)
Theorem startConnection_wrong_kind_negotiates :
  GetMsgType MsgDeSoGetAddr <> MsgTypeVersion /\
  exists s',
    startConnection (flags := desoFlags) (Some 0%nat) exNodeB (exHs 101)
      (exLegSystem (exWrongKindSocket 101)) = Returned None s' /\
    VersionNegotiated <$> peers s' !! 0%nat = Some true.
Proof.
  split; [discriminate|].
  set (o := startConnection _ _ _ _). vm_compute in o. subst o.
  eexists. split; reflexivity.
Qed.

(** ** Frames of the store operations *)

Lemma Frame_set_peers (ps : list Peer) (s : System) : Frame s (set_peers ps s).
Proof. split; [done|]. exists []. by rewrite app_nil_r. Qed.

Lemma Frame_set_listeners (ls : list Listener) (s : System) :
  Frame s (set_listeners ls s).
Proof. split; [done|]. exists []. by rewrite app_nil_r. Qed.

Lemma Frame_set_bridge (b : ConnectionBridge) (s : System) :
  waitGroup b = waitGroup (bridge s) -> Frame s (set_bridge b s).
Proof. intros H. split; [done|]. exists []. by rewrite app_nil_r. Qed.

Lemma Frame_spawn (src dst : option nat) (s : System) :
  Frame s (set_tasks (tasks s ++ [newTask src dst]) s).
Proof.
  split; [done|]. exists [newTask src dst]. split; [done|].
  repeat constructor. by exists src, dst.
Qed.

Lemma Quiet_set_peers (ps : list Peer) (s : System) : Quiet s (set_peers ps s).
Proof. by split. Qed.

Lemma Quiet_set_listeners (ls : list Listener) (s : System) :
  Quiet s (set_listeners ls s).
Proof. by split. Qed.

Lemma Quiet_set_bridge (b : ConnectionBridge) (s : System) :
  disabled b = disabled (bridge s) -> Quiet s (set_bridge b s).
Proof. by split. Qed.

Lemma Untouched_set_bridge (b : ConnectionBridge) (s : System) :
  Untouched s (set_bridge b s).
Proof.
  split; simpl; try lia.
  - intros i p' H. by rewrite H.
  - intros i l' H. by rewrite H.
Qed.

Lemma Untouched_set_tasks (ts : list Task) (s : System) :
  Untouched s (set_tasks ts s).
Proof.
  split; simpl; try lia.
  - intros i p' H. by rewrite H.
  - intros i l' H. by rewrite H.
Qed.

Lemma Untouched_allocPeer (x : Peer) (s : System) :
  disconnectCalls x = 0%nat -> Untouched s (set_peers (peers s ++ [x]) s).
Proof.
  intros Hx. split; simpl.
  - rewrite length_app. lia.
  - intros i p' H. destruct (peers s !! i) as [p|] eqn:E.
    + rewrite (lookup_app_l_Some _ _ _ _ E) in H. by inversion H.
    + apply lookup_ge_None in E. rewrite lookup_app_r in H by done.
      destruct (i - length (peers s))%nat; simpl in H; [|done].
      inversion H. by subst.
  - lia.
  - intros i l' H. by rewrite H.
Qed.

Lemma Untouched_allocListener (l : Listener) (s : System) :
  closeCalls l = 0%nat -> Untouched s (set_listeners (listeners s ++ [l]) s).
Proof.
  intros Hx. split; simpl.
  - lia.
  - intros i p' H. by rewrite H.
  - rewrite length_app. lia.
  - intros i l' H. destruct (listeners s !! i) as [p|] eqn:E.
    + rewrite (lookup_app_l_Some _ _ _ _ E) in H. by inversion H.
    + apply lookup_ge_None in E. rewrite lookup_app_r in H by done.
      destruct (i - length (listeners s))%nat; simpl in H; [|done].
      inversion H. by subst.
Qed.

Lemma Untouched_withPeer (c : nat) (x x' : Peer) (s : System) :
  peers s !! c = Some x -> disconnectCalls x' = disconnectCalls x ->
  Untouched s (withPeer c x' s).
Proof.
  intros Hx Hd. split; simpl.
  - by rewrite length_insert.
  - intros i p' H. destruct (decide (c = i)) as [->|Hne].
    + rewrite list_lookup_insert_eq in H by (by eapply lookup_lt_Some).
      inversion H. subst. by rewrite Hx.
    + rewrite list_lookup_insert_ne in H by done. by rewrite H.
  - lia.
  - intros i l' H. by rewrite H.
Qed.

Section Frames.

Context {flags : ServiceFlags}.

Lemma startConnection_Frame conn node io :
  preserves Frame (startConnection conn node io).
Proof.
  intros s. rewrite startConnection_run.
  destruct conn as [c|]; [|exact I].
  destruct (peers s !! c); [|exact I]. apply Frame_set_peers.
Qed.

Lemma startConnection_Quiet conn node io :
  preserves Quiet (startConnection conn node io).
Proof.
  intros s. rewrite startConnection_run.
  destruct conn as [c|]; [|exact I].
  destruct (peers s !! c); [|exact I]. apply Quiet_set_peers.
Qed.

Lemma startConnection_Untouched conn node io :
  preserves Untouched (startConnection conn node io).
Proof.
  intros s. rewrite startConnection_run.
  destruct conn as [c|]; [|exact I].
  destruct (peers s !! c) as [x|] eqn:Hx; [|exact I].
  apply (Untouched_withPeer c x); [done|].
  apply legHandshake_invariants.
Qed.

Lemma modifyBridge_Frame f :
  (forall b, waitGroup (f b) = waitGroup b) -> preserves Frame (modifyBridge f).
Proof. intros H s. by apply Frame_set_bridge. Qed.

Lemma modifyBridge_Quiet f :
  (forall b, disabled (f b) = disabled b) -> preserves Quiet (modifyBridge f).
Proof. intros H s. by apply Quiet_set_bridge. Qed.

Lemma modifyBridge_Untouched f : preserves Untouched (modifyBridge f).
Proof. intros s. apply Untouched_set_bridge. Qed.

Lemma netListen_Frame ok : preserves Frame (netListen ok).
Proof. destruct ok; intros s; [apply Frame_set_listeners|exact I]. Qed.

Lemma netListen_Quiet ok : preserves Quiet (netListen ok).
Proof. destruct ok; intros s; [apply Quiet_set_listeners|exact I]. Qed.

Lemma netListen_Untouched ok : preserves Untouched (netListen ok).
Proof. destruct ok; intros s; [by apply Untouched_allocListener|exact I]. Qed.

Lemma createInboundConnection_Frame node dial rand :
  preserves Frame (createInboundConnection node dial rand).
Proof. destruct dial; intros s; [apply Frame_set_peers|exact I]. Qed.

Lemma createInboundConnection_Quiet node dial rand :
  preserves Quiet (createInboundConnection node dial rand).
Proof. destruct dial; intros s; [apply Quiet_set_peers|exact I]. Qed.

Lemma createInboundConnection_Untouched node dial rand :
  preserves Untouched (createInboundConnection node dial rand).
Proof. destruct dial; intros s; [by apply Untouched_allocPeer|exact I]. Qed.

Lemma waitForConnection_run h tie s :
  waitForConnection h tie s =
    match fst (selectHandoff h tie) with
    | FromTicker => Returned (None, Some ErrTimedOut) s
    | FromChan a =>
        Returned (Some (length (peers s)), None)
                 (set_peers (peers s ++ [acceptedPeer a]) s)
    end.
Proof. unfold waitForConnection. by destruct (fst _). Qed.

Lemma waitForConnection_Frame h tie : preserves Frame (waitForConnection h tie).
Proof.
  intros s. rewrite waitForConnection_run.
  destruct (fst _); simpl; [reflexivity|apply Frame_set_peers].
Qed.

Lemma waitForConnection_Quiet h tie : preserves Quiet (waitForConnection h tie).
Proof.
  intros s. rewrite waitForConnection_run.
  destruct (fst _); simpl; [reflexivity|apply Quiet_set_peers].
Qed.

Lemma waitForConnection_Untouched h tie :
  preserves Untouched (waitForConnection h tie).
Proof.
  intros s. rewrite waitForConnection_run.
  destruct (fst _); simpl; [reflexivity|by apply Untouched_allocPeer].
Qed.

Lemma goRouteTraffic_Frame src dst : preserves Frame (goRouteTraffic src dst).
Proof. intros s. apply Frame_spawn. Qed.

Lemma goRouteTraffic_Untouched src dst :
  preserves Untouched (goRouteTraffic src dst).
Proof. intros s. apply Untouched_set_tasks. Qed.

End Frames.

(** Walks a sequence of binds, closing each operation with its frame. *)
Ltac preserves_tac :=
  repeat
    match goal with
    | |- preserves _ (orReturn _ _) => apply preserves_orReturn; [tc_solve| |]
    | |- preserves _ (_ ≫= _) => apply preserves_bind; [tc_solve| |intros ?]
    | |- preserves _ (let '(_, _) := ?x in _) => destruct x
    | |- preserves _ (ret _) => apply preserves_ret; tc_solve
    | |- preserves _ getBridge => apply preserves_getBridge; tc_solve
    | |- preserves Frame (startConnection _ _ _) => apply startConnection_Frame
    | |- preserves Quiet (startConnection _ _ _) => apply startConnection_Quiet
    | |- preserves Untouched (startConnection _ _ _) =>
        apply startConnection_Untouched
    | |- preserves Frame (modifyBridge _) =>
        apply modifyBridge_Frame; intros; reflexivity
    | |- preserves Quiet (modifyBridge _) =>
        apply modifyBridge_Quiet; intros; reflexivity
    | |- preserves Untouched (modifyBridge _) => apply modifyBridge_Untouched
    | |- preserves Frame (netListen _) => apply netListen_Frame
    | |- preserves Quiet (netListen _) => apply netListen_Quiet
    | |- preserves Untouched (netListen _) => apply netListen_Untouched
    | |- preserves Frame (createInboundConnection _ _ _) =>
        apply createInboundConnection_Frame
    | |- preserves Quiet (createInboundConnection _ _ _) =>
        apply createInboundConnection_Quiet
    | |- preserves Untouched (createInboundConnection _ _ _) =>
        apply createInboundConnection_Untouched
    | |- preserves Frame (waitForConnection _ _) =>
        apply waitForConnection_Frame
    | |- preserves Quiet (waitForConnection _ _) =>
        apply waitForConnection_Quiet
    | |- preserves Untouched (waitForConnection _ _) =>
        apply waitForConnection_Untouched
    | |- preserves Frame (goRouteTraffic _ _) => apply goRouteTraffic_Frame
    | |- preserves Untouched (goRouteTraffic _ _) =>
        apply goRouteTraffic_Untouched
    end.

Section StartFrames.

Context {flags : ServiceFlags}.

Lemma Start_Frame env : preserves Frame (Start env).
Proof. unfold Start, createOutboundConnection. preserves_tac. Qed.

Lemma Start_Untouched env : preserves Untouched (Start env).
Proof. unfold Start, createOutboundConnection. preserves_tac. Qed.

End StartFrames.

(** ** Start *)

Lemma lookup_two_l (l : list Peer) (a b : Peer) :
  ((l ++ [a]) ++ [b]) !! length l = Some a.
Proof. rewrite <- app_assoc. by apply list_lookup_middle. Qed.

Lemma lookup_two_r (l : list Peer) (a a' b : Peer) :
  <[length l := a']> ((l ++ [a]) ++ [b]) !! length (l ++ [a]) = Some b.
Proof.
  rewrite list_lookup_insert_ne by (rewrite length_app; simpl; lia).
  by apply list_lookup_middle.
Qed.

Section StartOutcomes.

Context {flags : ServiceFlags}.

Lemma quietOnError_bind {A} (m : M A) (f : A -> M (option Error)) :
  preserves Quiet m -> (forall a, quietOnError (f a)) ->
  quietOnError (m ≫= f).
Proof.
  intros Hm Hf s. rewrite bind_run. specialize (Hm s).
  destruct (m s) as [a s'|s'|]; simpl in *; auto.
  specialize (Hf a s').
  destruct (f a s') as [[e|] s''|s''|]; simpl in *; auto. by etrans.
Qed.

Lemma quietOnError_orReturn (m k : M (option Error)) :
  preserves Quiet m -> quietOnError k -> quietOnError (orReturn m k).
Proof.
  intros Hm Hk. unfold orReturn. apply quietOnError_bind; [done|].
  intros [e|]; [|done]. intros s. simpl. reflexivity.
Qed.

(** After clearing [disabled], [Start] launches no router and leaves the
    flag alone until every step has succeeded. *)
Lemma Start_error_quiet (env : StartEnv) (s : System) :
  post (Start env s)
       (fun r s' => match r with
                    | Some _ => tasks s' = tasks s /\
                                disabled (bridge s') = false
                    | None => True
                    end)
       (fun _ => True).
Proof.
  unfold Start. rewrite bind_run.
  change (modifyBridge (set_disabled false) s)
    with (Returned tt (set_bridge (set_disabled false (bridge s)) s)).
  cbv beta iota.
  set (s0 := set_bridge (set_disabled false (bridge s)) s).
  match goal with |- post (?rest s0) _ _ => assert (quietOnError rest) as H end.
  { unfold createOutboundConnection.
    repeat match goal with
           | |- quietOnError (goRouteTraffic _ _ ≫= _) => intros ?; exact I
           | |- quietOnError (orReturn _ _) =>
               apply quietOnError_orReturn; [preserves_tac|]
           | |- quietOnError (_ ≫= _) =>
               apply quietOnError_bind; [preserves_tac|intros ?]
           | |- quietOnError (let '(_, _) := ?x in _) => destruct x
           end. }
  eapply post_mono; [| |apply (H s0)]; [|done].
  intros [e|] s' Hq; [|done]. destruct Hq as [Ht Hd]. by rewrite Ht, Hd.
Qed.

(** C8. When [Start] returns an error it has launched no router task, the
    [disabled] flag is false, and no leg has been disconnected and no
    listener closed: every leg and listener has received as many
    [Disconnect] and [Close] calls as it had before the call, those
    created by this [Start] none. *)
Theorem Start_failure_cleans_nothing (env : StartEnv) (s s' : System)
    (e : Error) :
  Start env s = Returned (Some e) s' ->
  tasks s' = tasks s /\
  disabled (bridge s') = false /\
  Untouched s s'.
Proof.
  intros H.
  pose proof (Start_error_quiet env s) as Hq.
  pose proof (Start_Untouched env s) as Hu.
  rewrite H in Hq, Hu. simpl in Hq, Hu. destruct Hq. auto.
Qed.

Lemma Start_timeout_A (env : StartEnv) (s : System) (cA cB : Conn) :
  envListenA env = true -> envListenB env = true ->
  envDialA env = Some cA -> envDialB env = Some cB ->
  fst (legHandshake (nodeB (bridge s)) (envHsInA env)
         (inboundPeer cA (envRandInA env))) = None ->
  fst (legHandshake (nodeA (bridge s)) (envHsInB env)
         (inboundPeer cB (envRandInB env))) = None ->
  envAcceptA env = None ->
  exists s', Start env s = Returned (Some ErrTimedOut) s' /\ tasks s' = tasks s.
Proof.
  intros HlA HlB HdA HdB HhA HhB Hacc.
  unfold Start. rewrite HlA, HlB, HdA, HdB, Hacc.
  destruct s as [ps ls [nA iA oA lA nB iB oB lB pa di wg ca] ts].
  cbn [bridge nodeA nodeB] in HhA, HhB.
  unfold createOutboundConnection, netListen, createInboundConnection.
  repeat (rewrite bind_run; cbn).
  rewrite orReturn_run, startConnection_run. cbn.
  rewrite lookup_two_l. fold (inboundPeer cA (envRandInA env)).
  destruct (legHandshake nB _ _) as [r1 x1]. cbn in HhA. subst r1. cbn.
  rewrite bind_run. cbn.
  rewrite orReturn_run, startConnection_run. cbn.
  rewrite lookup_two_r. fold (inboundPeer cB (envRandInB env)).
  destruct (legHandshake nA _ _) as [r2 x2]. cbn in HhB. subst r2. cbn.
  repeat (rewrite bind_run; cbn).
  rewrite orReturn_run. cbn.
  eexists. split; reflexivity.
Qed.

Lemma Start_timeout_B (env : StartEnv) (s : System) (cA cB : Conn)
    (a : Accepted) :
  envListenA env = true -> envListenB env = true ->
  envDialA env = Some cA -> envDialB env = Some cB ->
  fst (legHandshake (nodeB (bridge s)) (envHsInA env)
         (inboundPeer cA (envRandInA env))) = None ->
  fst (legHandshake (nodeA (bridge s)) (envHsInB env)
         (inboundPeer cB (envRandInB env))) = None ->
  fst (selectHandoff (envAcceptA env) (envTieA env)) = FromChan a ->
  envAcceptB env = None ->
  exists s', Start env s = Returned (Some ErrTimedOut) s' /\ tasks s' = tasks s.
Proof.
  intros HlA HlB HdA HdB HhA HhB HaccA HaccB.
  unfold Start. rewrite HlA, HlB, HdA, HdB, HaccB.
  destruct s as [ps ls [nA iA oA lA nB iB oB lB pa di wg ca] ts].
  cbn [bridge nodeA nodeB] in HhA, HhB.
  unfold createOutboundConnection, netListen, createInboundConnection.
  repeat (rewrite bind_run; cbn).
  rewrite orReturn_run, startConnection_run. cbn.
  rewrite lookup_two_l. fold (inboundPeer cA (envRandInA env)).
  destruct (legHandshake nB _ _) as [r1 x1]. cbn in HhA. subst r1. cbn.
  rewrite bind_run. cbn.
  rewrite orReturn_run, startConnection_run. cbn.
  rewrite lookup_two_r. fold (inboundPeer cB (envRandInB env)).
  destruct (legHandshake nA _ _) as [r2 x2]. cbn in HhB. subst r2. cbn.
  rewrite bind_run. cbn. rewrite bind_run. cbn.
  rewrite bind_run, waitForConnection_run, HaccA. cbn.
  repeat (rewrite bind_run; cbn).
  rewrite orReturn_run. cbn.
  repeat (rewrite bind_run; cbn).
  rewrite orReturn_run. cbn.
  eexists. split; reflexivity.
Qed.

(** C7. With nothing delivered on the handoff channel, [waitForConnection]
    returns the timeout error, and it does so when the 30-second ticker
    fires. When the steps of [Start] before an acquisition succeed (both
    listeners open, both nodes dialled, both inbound handshakes complete,
    and for the second acquisition the first one delivered a leg) and the
    acquisition gets nothing, [Start] returns that timeout error and has
    launched no router task. *)
Theorem waitForConnection_timeout_aborts_Start :
  (forall (tie : bool) (s : System),
      waitForConnection None tie s = Returned (None, Some ErrTimedOut) s /\
      waitElapsed None tie = 30 * Second) /\
  (forall (env : StartEnv) (s : System) (cA cB : Conn),
      envListenA env = true -> envListenB env = true ->
      envDialA env = Some cA -> envDialB env = Some cB ->
      fst (legHandshake (nodeB (bridge s)) (envHsInA env)
             (inboundPeer cA (envRandInA env))) = None ->
      fst (legHandshake (nodeA (bridge s)) (envHsInB env)
             (inboundPeer cB (envRandInB env))) = None ->
      (envAcceptA env = None \/
       (exists a, fst (selectHandoff (envAcceptA env) (envTieA env))
                  = FromChan a) /\
       envAcceptB env = None) ->
      exists s',
        Start env s = Returned (Some ErrTimedOut) s' /\ tasks s' = tasks s).
Proof.
  split.
  - intros tie s. split; reflexivity.
  - intros env s cA cB HlA HlB HdA HdB HhA HhB [Hacc|[[a Ha] Hacc]].
    + by eapply Start_timeout_A.
    + by eapply Start_timeout_B.
Qed.

End StartOutcomes.

(** C7, witness: node A never dials in the example run. *)
Lemma waitForConnection_timeout_aborts_Start_witness :
  exists s',
    Start (flags := desoFlags) exEnvNoDial exSystem
      = Returned (Some ErrTimedOut) s' /\
    tasks s' = tasks exSystem.
Proof.
  apply (proj2 (waitForConnection_timeout_aborts_Start (flags := desoFlags))
               exEnvNoDial exSystem (exSocket 501 101) (exSocket 502 102));
    try reflexivity.
  left. reflexivity.
Defined.

(** C8, witness: node A dials and then stays silent, so the handshake of
    its outbound leg times out. *)
Lemma Start_failure_cleans_nothing_witness :
  exists s',
    Start (flags := desoFlags) exEnvSilent exSystem
      = Returned (Some ErrReadTimeout) s' /\
    tasks s' = tasks exSystem /\
    disabled (bridge s') = false /\
    Untouched exSystem s'.
Proof.
  eexists. split; [vm_compute; reflexivity|].
  eapply (Start_failure_cleans_nothing (flags := desoFlags) exEnvSilent).
  vm_compute. reflexivity.
Defined.

(** ** The outbound leg of node B, in every run *)

Section OutboundB.

Context {flags : ServiceFlags}.

(** A handshake that succeeds has written the version message first. *)
Lemma legHandshake_success_outbox (node : Node) (io : HandshakeEnv) (x : Peer) :
  fst (legHandshake node io x) = None ->
  exists rest,
    outbox (PConn (snd (legHandshake node io x))) =
    outbox (PConn x)
      ++ MsgVersion (getVersionMessage node (hsNow io) (hsRand io)) :: rest.
Proof.
  unfold legHandshake.
  set (ver := getVersionMessage _ _ _). leg_simpl.
  pose proof (connWrite_spec (MsgVersion ver) (PConn x)) as (Hc1 & Ho1 & He1).
  destruct (connWrite (MsgVersion ver) (PConn x)) as [[e|] c1]; leg_simpl;
    cbn [fst snd] in *; [done|].
  specialize (Ho1 eq_refl). clear He1.
  pose proof (connRead_spec c1) as (Hc2 & Ho2).
  destruct (connRead c1) as [r c2]; cbn [fst snd] in *.
  destruct r as [msg|e|]; leg_simpl; [|done..].
  set (x2 := match msg with MsgVersion _ => _ | _ => _ end).
  assert (Hp2 : PConn x2 = c2) by (subst x2; by destruct msg).
  clearbody x2.
  pose proof (connWrite_spec (MsgDeSoVerack (VersionNonceReceived x2))
                (PConn x2)) as (Hc3 & Ho3 & He3).
  destruct (connWrite _ (PConn x2)) as [[e|] c3]; leg_simpl;
    cbn [fst snd] in *; [done|].
  specialize (Ho3 eq_refl). clear He3.
  pose proof (connRead_spec c3) as (Hc4 & Ho4).
  destruct (connRead c3) as [r c4]; cbn [fst snd] in *.
  destruct r as [[?|nn| | |]|e|]; leg_simpl; try done.
  destruct (negb _); leg_simpl; [done|]. intros _.
  eexists. cbn [PConn set_VersionNegotiated set_PConn].
  rewrite Ho4, Ho3, Hp2, Ho2, Ho1, <- app_assoc. reflexivity.
Qed.

(** Whenever [Start] succeeds, the handshake on node B's outbound leg was
    driven with node B's own identity: the first message written on the
    leg is the version message synthesized from [bridge.nodeB]. *)
Lemma Start_success_outboundB (env : StartEnv) (s s' : System) :
  Start env s = Returned None s' ->
  exists p x rest,
    connectionOutboundB (bridge s') = Some p /\
    peers s' !! p = Some x /\
    outbox (PConn x) =
      default [] ((fun a => outbox (accConn a)) <$> envAcceptB env)
      ++ MsgVersion (getVersionMessage (nodeB (bridge s))
                       (hsNow (envHsOutB env)) (hsRand (envHsOutB env)))
      :: rest.
Proof.
  unfold Start.
  destruct s as [ps ls [nA iA oA lA nB iB oB lB pa di wg ca] ts].
  unfold createOutboundConnection, netListen, createInboundConnection.
  destruct (envListenA env); [|done].
  destruct (envListenB env); [|done].
  destruct (envDialA env) as [cA|]; [|done].
  destruct (envDialB env) as [cB|]; [|done].
  repeat (rewrite bind_run; cbn).
  rewrite orReturn_run, startConnection_run. cbn.
  rewrite lookup_two_l.
  destruct (legHandshake nB _ _) as [[e1|] x1]; cbn; [done|].
  rewrite bind_run. cbn.
  rewrite orReturn_run, startConnection_run. cbn.
  rewrite lookup_two_r.
  destruct (legHandshake nA _ _) as [[e2|] x2]; cbn; [done|].
  rewrite bind_run. cbn. rewrite bind_run. cbn.
  rewrite bind_run, waitForConnection_run.
  destruct (fst (selectHandoff (envAcceptA env) _)) as [|aA]; cbn.
  { repeat (rewrite bind_run; cbn). rewrite orReturn_run. cbn. done. }
  repeat (rewrite bind_run; cbn).
  rewrite orReturn_run. cbn.
  repeat (rewrite bind_run; cbn).
  rewrite waitForConnection_run.
  destruct (fst (selectHandoff (envAcceptB env) _)) as [|aB] eqn:HaB; cbn.
  { repeat (rewrite bind_run; cbn). rewrite orReturn_run. cbn. done. }
  assert (HB : envAcceptB env = Some aB).
  { unfold selectHandoff in HaB. destruct (envAcceptB env) as [a|]; [|done].
    repeat case_match; simpl in HaB; congruence. }
  repeat (rewrite bind_run; cbn).
  rewrite orReturn_run. cbn.
  repeat (rewrite bind_run; cbn).
  rewrite orReturn_run, startConnection_run. cbn.
  match goal with
  | |- context [ (?l ++ [acceptedPeer aA]) ++ [acceptedPeer aB] ] =>
      set (L := l)
  end.
  rewrite lookup_two_l.
  destruct (legHandshake nB (envHsOutA env) _) as [[e3|] x3]; cbn; [done|].
  rewrite bind_run. cbn.
  rewrite orReturn_run, startConnection_run. cbn.
  rewrite lookup_two_r.
  pose proof (legHandshake_success_outbox nB (envHsOutB env) (acceptedPeer aB))
    as Hout.
  destruct (legHandshake nB (envHsOutB env) _) as [[e4|] x4]; cbn; [done|].
  destruct (Hout eq_refl) as [rest Hrest]. cbn in Hrest.
  repeat (rewrite bind_run; cbn).
  intros [= <-]. cbn.
  exists (length (L ++ [acceptedPeer aA])), x4, rest.
  split; [done|]. split.
  - apply list_lookup_insert_eq. rewrite length_insert, !length_app. simpl. lia.
  - rewrite HB. exact Hrest.
Qed.
End OutboundB.

(** ** The impersonated node *)

(** C1, at the failing input. In the example run every step of [Start]
    succeeds. The version message written first on node B's outbound leg
    is the one synthesized from node B itself, not from node A: the fourth
    handshake of [Start] is driven with [bridge.nodeB]. The other three
    legs get the opposite node. *)
Theorem Start_outboundB_impersonates_nodeB :
  exists s' inA inB outA outB,
    Start (flags := desoFlags) exEnv exSystem = Returned None s' /\
    connectionInboundA (bridge s') = Some inA /\
    connectionInboundB (bridge s') = Some inB /\
    connectionOutboundA (bridge s') = Some outA /\
    connectionOutboundB (bridge s') = Some outB /\
    head (outboxOf inA s')
      = Some (MsgVersion (getVersionMessage (flags := desoFlags) exNodeB
                            1700000000 101)) /\
    head (outboxOf inB s')
      = Some (MsgVersion (getVersionMessage (flags := desoFlags) exNodeA
                            1700000000 102)) /\
    head (outboxOf outA s')
      = Some (MsgVersion (getVersionMessage (flags := desoFlags) exNodeB
                            1700000000 103)) /\
    head (outboxOf outB s')
      = Some (MsgVersion (getVersionMessage (flags := desoFlags) exNodeB
                            1700000000 104)) /\
    head (outboxOf outB s')
      <> Some (MsgVersion (getVersionMessage (flags := desoFlags) exNodeA
                             1700000000 104)).
Proof.
  set (o := Start exEnv exSystem). vm_compute in o. subst o.
  do 5 eexists. repeat split; try reflexivity.
  vm_compute. discriminate.
Qed.

(** ** Disconnect and the router's moves *)

Lemma modifyPeer_post (p : option nat) (f : Peer -> Peer) (s : System) :
  post (modifyPeer p f s) (fun _ s' => exists ps, s' = set_peers ps s)
       (fun _ => False).
Proof.
  unfold modifyPeer. destruct p as [i|]; [|exact I].
  destruct (peers s !! i); [|exact I]. simpl. eauto.
Qed.

Lemma modifyListener_post (p : option nat) (f : Listener -> Listener)
    (s : System) :
  post (modifyListener p f s) (fun _ s' => exists ls, s' = set_listeners ls s)
       (fun _ => False).
Proof.
  unfold modifyListener. destruct p as [i|]; [|exact I].
  destruct (listeners s !! i); [|exact I]. simpl. eauto.
Qed.

Lemma ReadDeSoMessage_post (p : option nat) (s : System) :
  post (ReadDeSoMessage p s) (fun _ s' => exists ps, s' = set_peers ps s)
       (fun _ => False).
Proof.
  destruct p as [c|]; [|by rewrite ReadDeSoMessage_nil].
  destruct (peers s !! c) as [x|] eqn:E.
  - rewrite (ReadDeSoMessage_run _ _ _ E). simpl. eauto.
  - rewrite ReadDeSoMessage_nil; [done|]. by intros ? [= <-].
Qed.

Lemma WriteDeSoMessage_post (p : option nat) (m : DeSoMessage) (s : System) :
  post (WriteDeSoMessage p m s) (fun _ s' => exists ps, s' = set_peers ps s)
       (fun _ => False).
Proof.
  destruct p as [c|]; [|by rewrite WriteDeSoMessage_nil].
  destruct (peers s !! c) as [x|] eqn:E.
  - rewrite (WriteDeSoMessage_run _ _ _ _ E). simpl. eauto.
  - rewrite WriteDeSoMessage_nil; [done|]. by intros ? [= <-].
Qed.

Section RouterMoves.

Context {flags : ServiceFlags}.

(** [Disconnect] on a disabled bridge changes nothing; otherwise it sets
    [disabled], and returns when the wait-group counter is zero and parks
    when it is not. It never touches the tasks or the counter. *)
Lemma Disconnect_outcome (s : System) :
  post (Disconnect s)
       (fun _ s' =>
          if disabled (bridge s) then s' = s
          else bridge s' = set_disabled true (bridge s) /\
               tasks s' = tasks s /\ waitGroup (bridge s) = 0)
       (fun s' =>
          disabled (bridge s) = false /\
          bridge s' = set_disabled true (bridge s) /\
          tasks s' = tasks s /\ waitGroup (bridge s) <> 0).
Proof.
  unfold Disconnect. rewrite bind_run. cbn [getBridge].
  destruct (disabled (bridge s)) eqn:E; [done|].
  rewrite bind_run. cbn [modifyBridge].
  set (s0 := set_bridge _ s).
  assert (H0 : bridge s0 = set_disabled true (bridge s) /\ tasks s0 = tasks s)
    by done.
  clearbody s0.
  repeat (rewrite bind_run;
          match goal with
          | |- context [ modifyPeer ?p ?f ?s1 ] =>
              let H := fresh in
              pose proof (modifyPeer_post p f s1) as H;
              destruct (modifyPeer p f s1) as [[] ?|?|]; simpl in H;
              [|done|exact I];
              destruct H as [? ->]
          | |- context [ modifyListener ?p ?f ?s1 ] =>
              let H := fresh in
              pose proof (modifyListener_post p f s1) as H;
              destruct (modifyListener p f s1) as [[] ?|?|]; simpl in H;
              [|done|exact I];
              destruct H as [? ->]
          end).
  unfold waitGroupWait. cbn [bridge set_peers set_listeners].
  destruct H0 as [Hb Ht]. rewrite Hb. cbn [waitGroup set_disabled].
  destruct (Z.eqb_spec (waitGroup (bridge s)) 0); simpl; auto.
Qed.

Lemma routeTraffic_localStep (i : nat) (env : option StartEnv) (t : Task)
    (s s' : System) :
  tasks s !! i = Some t ->
  routeTraffic i env t s = Some s' ->
  exists t' delta new,
    localStep (bridge s) t delta t' /\
    tasks s' = <[i:=t']> (tasks s) ++ new /\
    Forall freshTask new /\
    waitGroup (bridge s') = waitGroup (bridge s) + delta.
Proof.
  intros Hi.
  assert (Hstay : s' = s -> exists t' delta new,
    localStep (bridge s) t delta t' /\
    tasks s' = <[i:=t']> (tasks s) ++ new /\
    Forall freshTask new /\
    waitGroup (bridge s') = waitGroup (bridge s) + delta).
  { intros ->. exists t, 0, []. split; [constructor|].
    rewrite app_nil_r, list_insert_id by done. repeat split; [constructor|lia]. }
  assert (Hmove : forall t' delta s1,
    localStep (bridge s) t delta t' ->
    tasks s1 = tasks s ->
    waitGroup (bridge s1) = waitGroup (bridge s) + delta ->
    s' = setTask i t' s1 ->
    exists t' delta new,
    localStep (bridge s) t delta t' /\
    tasks s' = <[i:=t']> (tasks s) ++ new /\
    Forall freshTask new /\
    waitGroup (bridge s') = waitGroup (bridge s) + delta).
  { intros t' delta s1 Hl Ht Hw ->. exists t', delta, [].
    split; [done|]. simpl. rewrite Ht, app_nil_r. repeat split; [constructor|done]. }
  unfold routeTraffic.
  destruct (pc t) eqn:Hpc.
  - (* Entry *)
    cbn. intros [= <-]. eapply Hmove; [by apply ls_add| | |reflexivity]; done.
  - (* LoopTop *)
    destruct (disabled (bridge s)); [|destruct (paused (bridge s))].
    + cbn. intros [= <-]. eapply Hmove; [by apply ls_break| | |reflexivity]; done.
    + intros [= <-]. eapply Hmove; [by apply ls_sleep| | |reflexivity]; [done|simpl; lia].
    + intros [= <-]. eapply Hmove; [by apply ls_read| | |reflexivity]; [done|simpl; lia].
  - (* Reading *)
    pose proof (ReadDeSoMessage_post (source t) s) as Hr.
    destruct (ReadDeSoMessage (source t) s) as [r s1|s1|]; simpl in Hr; [|done..].
    destruct Hr as [ps ->].
    destruct r as [inMsg|e|].
    + destruct (disabled (bridge (set_peers ps s))).
      * cbn. intros [= <-]. eapply Hmove; [by apply (ls_discard _ _ inMsg)| | |reflexivity]; done.
      * destruct (forwarded inMsg) eqn:Hf.
        -- pose proof (WriteDeSoMessage_post (destination (log_write inMsg (log_read inMsg t))) inMsg (set_peers ps s)) as Hw.
           destruct inMsg; try discriminate Hf.
           all: destruct (WriteDeSoMessage _ _ _) as [[e|] s2|s2|]; simpl in Hw; [| |done..].
           all: destruct Hw as [ps2 ->]; intros [= <-].
           all: try (eapply Hmove; [by apply (ls_write_restart _ _ _ Hpc Hf)| | |reflexivity]; [done|simpl; lia]).
           all: try (eapply Hmove; [by apply (ls_forward _ _ _ Hpc Hf)| | |reflexivity]; [done|simpl; lia]).
        -- destruct inMsg; try discriminate Hf.
           all: intros [= <-]; eapply Hmove; [by apply (ls_filter _ _ _ Hpc Hf)| | |reflexivity]; [done|simpl; lia].
    + destruct (disabled (bridge (set_peers ps s))).
      * cbn. intros [= <-]. eapply Hmove; [by apply ls_error_break| | |reflexivity]; done.
      * intros [= <-]. eapply Hmove; [by apply ls_error_restart| | |reflexivity]; [done|simpl; lia].
    + intros [= <-]. by apply Hstay.
  - (* CallRestart *)
    pose proof (Disconnect_outcome s) as Hd.
    destruct (Disconnect s) as [[] s1|s1|]; simpl in Hd; [| |done].
    + intros [= <-].
      eapply Hmove; [by apply ls_disconnect_returned| | |reflexivity].
      * destruct (disabled (bridge s)); [by subst|]. by destruct Hd as (_ & ? & _).
      * destruct (disabled (bridge s)); [subst; lia|]. destruct Hd as (-> & _). simpl. lia.
    + intros [= <-]. destruct Hd as (_ & Hb & Ht & _).
      eapply Hmove; [by apply ls_disconnect_parked| | |reflexivity]; [done|].
      rewrite Hb. simpl. lia.
  - (* RestartWait *)
    unfold waitGroupWait. destruct (Z.eqb_spec (waitGroup (bridge s)) 0).
    + intros [= <-]. eapply Hmove; [by apply ls_wait_over| | |reflexivity]; [done|lia].
    + intros [= <-]. by apply Hstay.
  - (* RestartStart *)
    destruct env as [e|]; [|intros [= <-]; by apply Hstay].
    pose proof (Start_Frame e s) as Hs.
    destruct (Start e s) as [r s1|s1|]; simpl in Hs; [|done..].
    destruct Hs as [Hw (new & Ht & Hn)]. intros [= <-].
    exists (set_pc (Exited ExitRestart) t), 0, new.
    split; [by apply ls_started|]. simpl. rewrite Ht. repeat split; [|done|lia].
    apply insert_app_l. by eapply lookup_lt_Some.
  - (* Exited *)
    intros [= <-]. by apply Hstay.
Qed.
End RouterMoves.

(** ** Disconnect *)

Section DisconnectTwice.

Context {flags : ServiceFlags}.

(** C10. [Disconnect] on a bridge whose [disabled] flag is set returns at
    once with the store unchanged: it neither parks in the wait nor
    panics, and no leg or listener is touched. A [Disconnect] that returns
    leaves the flag set, so a second [Disconnect] right after it changes
    nothing; a [Disconnect] that has to wait has set the flag as well. *)
Theorem Disconnect_idempotent :
  (forall s, disabled (bridge s) = true -> Disconnect s = Returned tt s) /\
  (forall s s', Disconnect s = Returned tt s' ->
                Disconnect s' = Returned tt s') /\
  (forall s s', Disconnect s = Parked s' -> disabled (bridge s') = true).
Proof.
  assert (H1 : forall s, disabled (bridge s) = true ->
                         Disconnect s = Returned tt s).
  { intros s H. unfold Disconnect. rewrite bind_run. cbn [getBridge].
    by rewrite H. }
  split; [done|]. split.
  - intros s s' H. apply H1.
    pose proof (Disconnect_outcome s) as Ho. rewrite H in Ho. simpl in Ho.
    destruct (disabled (bridge s)) eqn:E; [by subst|].
    destruct Ho as (-> & _). reflexivity.
  - intros s s' H.
    pose proof (Disconnect_outcome s) as Ho. rewrite H in Ho. simpl in Ho.
    destruct Ho as (_ & -> & _). reflexivity.
Qed.

End DisconnectTwice.

(** C10, witness: two calls of [Disconnect] on the started bridge of the
    example, before any router has run; and a call once the four routers
    have added themselves to the wait group, which sets the flag and has
    to wait. *)
Lemma Disconnect_idempotent_witness :
  (exists s',
      Disconnect exStarted = Returned tt s' /\
      disabled (bridge s') = true /\
      Disconnect s' = Returned tt s' /\
      Disconnect s' = Returned tt s') /\
  (exists s',
      Disconnect exRunning = Parked s' /\
      disabled (bridge s') = true).
Proof.
  split.
  - eexists. split; [vm_compute; reflexivity|]. split; [reflexivity|]. split.
    + apply (proj1 Disconnect_idempotent). reflexivity.
    + apply (proj1 (proj2 Disconnect_idempotent) exStarted).
      vm_compute. reflexivity.
  - eexists. split; [vm_compute; reflexivity|].
    apply (proj2 (proj2 Disconnect_idempotent) exRunning).
    vm_compute. reflexivity.
Defined.

(** ** Counting the outstanding tasks *)

Lemma countOutstanding_cons (t : Task) (ts : list Task) :
  countOutstanding (t :: ts) = Z.b2z (outstanding t) + countOutstanding ts.
Proof.
  unfold countOutstanding. simpl. destruct (outstanding t); simpl; lia.
Qed.

Lemma countOutstanding_app (ts new : list Task) :
  countOutstanding (ts ++ new) = countOutstanding ts + countOutstanding new.
Proof.
  induction ts as [|t ts IH]; simpl.
  - unfold countOutstanding at 2. simpl. lia.
  - rewrite !countOutstanding_cons, IH. lia.
Qed.

Lemma countOutstanding_fresh (new : list Task) :
  Forall freshTask new -> countOutstanding new = 0.
Proof.
  induction 1 as [|t new (src & dst & ->) _ IH]; [done|].
  rewrite countOutstanding_cons, IH. reflexivity.
Qed.

Lemma countOutstanding_insert (ts : list Task) (i : nat) (t t' : Task) :
  ts !! i = Some t ->
  countOutstanding (<[i:=t']> ts) =
    countOutstanding ts - Z.b2z (outstanding t) + Z.b2z (outstanding t').
Proof.
  revert i. induction ts as [|u ts IH]; intros [|i] H; try done.
  - simpl in H. inversion H; subst. simpl. rewrite !countOutstanding_cons. lia.
  - simpl in *. rewrite !countOutstanding_cons, (IH _ H). lia.
Qed.

Lemma countOutstanding_nonneg (ts : list Task) : 0 <= countOutstanding ts.
Proof. unfold countOutstanding. lia. Qed.

Lemma countOutstanding_pos (ts : list Task) (i : nat) (t : Task) :
  ts !! i = Some t -> outstanding t = true -> 1 <= countOutstanding ts.
Proof.
  revert i. induction ts as [|u ts IH]; intros [|i] H Ho; try done.
  - simpl in H. inversion H; subst. rewrite countOutstanding_cons, Ho.
    pose proof (countOutstanding_nonneg ts). simpl. lia.
  - simpl in H. rewrite countOutstanding_cons.
    pose proof (IH _ H Ho). destruct (outstanding u); simpl; lia.
Qed.

(** ** What a local step keeps *)

Lemma localStep_outstanding b t delta t' :
  localStep b t delta t' ->
  Z.b2z (outstanding t') = Z.b2z (outstanding t) + delta.
Proof.
  destruct 1; unfold outstanding; simpl;
    repeat match goal with H : pc _ = _ |- _ => rewrite H end; try done.
  all: destruct (pc t) as [| | | | | |[]]; done.
Qed.

Lemma filter_forwarded_snoc (l : list DeSoMessage) (m : DeSoMessage) :
  List.filter forwarded (l ++ [m]) =
    List.filter forwarded l ++ (if forwarded m then [m] else []).
Proof. rewrite List.filter_app. simpl. by destruct (forwarded m). Qed.

Lemma localStep_logsInv b t delta t' :
  localStep b t delta t' -> logsInv t -> logsInv t'.
Proof.
  intros Hs Hl.
  assert (Hlive : pc t <> Exited ExitDone ->
                  discarded t = [] /\ writes t = List.filter forwarded (reads t)).
  { intros Hpc. destruct Hl as [?|(f & m & _ & _ & _ & ?)]; [done|congruence]. }
  destruct Hs; try done; unfold logsInv; simpl.
  all: try (destruct Hlive as [Hd Hw]; [congruence|]).
  all: try (left; split; [done|]).
  all: rewrite ?filter_forwarded_snoc; try done.
  all: try match goal with H : forwarded _ = _ |- _ => rewrite H end.
  all: rewrite ?app_nil_r; try congruence.
  right. exists (reads t), m. rewrite Hd. done.
Qed.

Lemma localStep_doneInv b t delta t' :
  localStep b t delta t' -> doneInv t -> doneInv t'.
Proof.
  unfold doneInv. destruct 1; simpl; try done.
  all: repeat match goal with H : pc _ = _ |- _ => rewrite H end; try done.
  all: intros ->; done.
Qed.

(** ** Invariants of a run *)

Section Runs.

Context {flags : ServiceFlags}.

(** What one event does to the tasks and the counter: it may launch fresh
    tasks, and it lets at most one task take one local step. *)
Lemma step_shape (e : Event) (s s' : System) :
  step e s = Some s' ->
  (waitGroup (bridge s') = waitGroup (bridge s) /\
   exists new, tasks s' = tasks s ++ new /\ Forall freshTask new) \/
  (exists i t t' delta new,
      tasks s !! i = Some t /\
      localStep (bridge s) t delta t' /\
      tasks s' = <[i:=t']> (tasks s) ++ new /\
      Forall freshTask new /\
      waitGroup (bridge s') = waitGroup (bridge s) + delta).
Proof.
  assert (Hsame : tasks s' = tasks s ->
                  waitGroup (bridge s') = waitGroup (bridge s) ->
    (waitGroup (bridge s') = waitGroup (bridge s) /\
     exists new, tasks s' = tasks s ++ new /\ Forall freshTask new)).
  { intros Ht Hw. split; [done|]. exists []. by rewrite app_nil_r. }
  assert (Htask : forall i env, taskStep i env s = Some s' ->
    (waitGroup (bridge s') = waitGroup (bridge s) /\
     exists new, tasks s' = tasks s ++ new /\ Forall freshTask new) \/
    (exists i t t' delta new,
      tasks s !! i = Some t /\
      localStep (bridge s) t delta t' /\
      tasks s' = <[i:=t']> (tasks s) ++ new /\
      Forall freshTask new /\
      waitGroup (bridge s') = waitGroup (bridge s) + delta)).
  { intros i env. unfold taskStep.
    destruct (tasks s !! i) as [t|] eqn:Hi;
      [|intros [= <-]; left; by apply Hsame].
    intros H. right.
    destruct (routeTraffic_localStep i env t s s' Hi H) as (t' & d & new & ?).
    exists i, t, t', d, new. tauto. }
  destruct e; simpl; eauto.
  1-4: intros [= <-]; left; by apply Hsame.
  - pose proof (Start_Frame env s) as Hf.
    destruct (Start env s) as [r s1|s1|]; simpl in Hf; [| |done].
    all: intros [= <-]; left; by destruct Hf.
  - pose proof (Disconnect_outcome s) as Hd.
    destruct (Disconnect s) as [[] s1|s1|]; simpl in Hd; [| |done].
    + intros [= <-]. left.
      destruct (disabled (bridge s)); [subst; by apply Hsame|].
      destruct Hd as (Hb & Ht & _). apply Hsame; [done|]. by rewrite Hb.
    + intros [= <-]. left. destruct Hd as (_ & Hb & Ht & _).
      apply Hsame; [done|]. by rewrite Hb.
Qed.

Lemma step_inv (e : Event) (s s' : System) :
  SystemInv s -> step e s = Some s' -> SystemInv s'.
Proof.
  intros [Hw Hl Hd] Hs.
  destruct (step_shape e s s' Hs)
    as [[Hg (new & Ht & Hn)]
       |(i & t & t' & delta & new & Hi & Hls & Ht & Hn & Hg)].
  - assert (Forall logsInv new /\ Forall doneInv new) as [Hnl Hnd].
    { split; (eapply Forall_impl; [done|]); intros ? (src & dst & ->);
        [by left|done]. }
    split; unfold waitGroupInv in *; rewrite ?Ht.
    + rewrite countOutstanding_app, (countOutstanding_fresh _ Hn). lia.
    + by apply Forall_app.
    + by apply Forall_app.
  - split.
    + unfold waitGroupInv in *.
      rewrite Hg, Ht, countOutstanding_app, (countOutstanding_fresh _ Hn),
        (countOutstanding_insert _ _ _ _ Hi), Hw.
      pose proof (localStep_outstanding _ _ _ _ Hls). lia.
    + rewrite Ht. apply Forall_app. split.
      * apply Forall_insert; [done|].
        eapply localStep_logsInv; [done|].
        eapply Forall_lookup_1; eauto.
      * eapply Forall_impl; [done|]. intros ? (src & dst & ->). by left.
    + rewrite Ht. apply Forall_app. split.
      * apply Forall_insert; [done|].
        eapply localStep_doneInv; [done|].
        eapply Forall_lookup_1; eauto.
      * eapply Forall_impl; [done|]. intros ? (src & dst & ->). done.
Qed.

Lemma run_inv (sched : list Event) (s s' : System) :
  SystemInv s -> run sched s = Some s' -> SystemInv s'.
Proof.
  revert s. induction sched as [|e sched IH]; intros s Hinv; simpl.
  - by intros [= <-].
  - destruct (step e s) as [s1|] eqn:E; [|done].
    apply IH. by eapply step_inv.
Qed.

Lemma run_app (sched1 sched2 : list Event) (s : System) :
  run (sched1 ++ sched2) s =
    match run sched1 s with
    | Some s1 => run sched2 s1
    | None => None
    end.
Proof.
  revert s. induction sched1 as [|e sched1 IH]; intros s; simpl; [done|].
  destruct (step e s); [apply IH|done].
Qed.

Lemma fresh_SystemInv (s : System) :
  Forall freshTask (tasks s) -> waitGroup (bridge s) = 0 -> SystemInv s.
Proof.
  intros Hf Hw. split.
  - unfold waitGroupInv. by rewrite Hw, countOutstanding_fresh.
  - eapply Forall_impl; [done|]. intros ? (src & dst & ->). by left.
  - eapply Forall_impl; [done|]. intros ? (src & dst & ->). done.
Qed.

(** A task parked in the wait of its own restart stays there: the counter
    it waits on counts the task itself. *)
Lemma step_waiting (e : Event) (s s' : System) (i : nat) :
  SystemInv s -> waitingInRestart i s -> step e s = Some s' ->
  waitingInRestart i s'.
Proof.
  intros Hinv (t & Hi & Hpc & Hd) Hs.
  destruct (step_shape e s s' Hs)
    as [[Hg (new & Ht & Hn)]
       |(j & u & u' & delta & new & Hj & Hls & Ht & Hn & Hg)].
  - exists t. rewrite Ht. split; [|done]. by apply lookup_app_l_Some.
  - destruct (decide (j = i)) as [->|Hne].
    + assert (u = t) as -> by congruence.
      assert (u' = t) as ->.
      { inversion Hls; subst; try congruence.
        exfalso.
        pose proof (inv_waitGroup _ Hinv) as Hw. unfold waitGroupInv in Hw.
        assert (outstanding t = true) by (unfold outstanding; by rewrite Hpc).
        pose proof (countOutstanding_pos _ _ _ Hi H1). lia. }
      exists t. rewrite Ht. split; [|done].
      apply lookup_app_l_Some. apply list_lookup_insert_eq.
      by eapply lookup_lt_Some.
    + exists t. rewrite Ht. split; [|done].
      apply lookup_app_l_Some. by rewrite list_lookup_insert_ne.
Qed.

Lemma run_waiting (sched : list Event) (s s' : System) (i : nat) :
  SystemInv s -> waitingInRestart i s -> run sched s = Some s' ->
  waitingInRestart i s'.
Proof.
  revert s. induction sched as [|e sched IH]; intros s Hinv Hw; simpl.
  - by intros [= <-].
  - destruct (step e s) as [s1|] eqn:E; [|done].
    apply IH; [by eapply step_inv|by eapply step_waiting].
Qed.

End Runs.

(** ** Router tasks and the wait group *)

Lemma exStarted_fresh : Forall freshTask (tasks exStarted).
Proof. vm_compute. repeat constructor; eexists _, _; reflexivity. Qed.

Lemma exStarted_inv : SystemInv exStarted.
Proof. apply fresh_SystemInv; [apply exStarted_fresh|reflexivity]. Qed.

(** C3, at the failing input. Router 0 is reading when its source socket
    goes down while the bridge is not disabled. It calls [Restart], whose
    [Disconnect] disables the bridge and waits on the wait group. The
    other three routers leave by [break] and signal once each. Router 0
    has signalled nothing: the counter stays at one, and router 0 itself
    is the task waiting for it to reach zero. In the second run the bridge
    is disabled by someone else before router 0 calls [Restart], so that
    the restart goes through: router 0 returns, and has exited without a
    signal, its [Add] still counted. *)
Theorem routeTraffic_read_error_never_signals :
  (exists s',
      run (flags := desoFlags) exReadFailure exStarted = Some s' /\
      pcOf 0 s' = Some RestartWait /\
      doneSignalsOf 0 s' = Some 0%nat /\
      pcOf 1 s' = Some (Exited ExitDone) /\ doneSignalsOf 1 s' = Some 1%nat /\
      pcOf 2 s' = Some (Exited ExitDone) /\ doneSignalsOf 2 s' = Some 1%nat /\
      pcOf 3 s' = Some (Exited ExitDone) /\ doneSignalsOf 3 s' = Some 1%nat /\
      disabled (bridge s') = true /\
      waitGroup (bridge s') = 1) /\
  (exists s',
      run (flags := desoFlags) exReadFailureRace exStarted = Some s' /\
      pcOf 0 s' = Some (Exited ExitRestart) /\
      doneSignalsOf 0 s' = Some 0%nat /\
      waitGroup (bridge s') = countOutstanding (tasks s') /\
      outstanding <$> tasks s' !! 0%nat = Some true).
Proof.
  split.
  - set (o := run exReadFailure exStarted). vm_compute in o. subst o.
    eexists. repeat split; reflexivity.
  - set (o := run exReadFailureRace exStarted). vm_compute in o. subst o.
    eexists. repeat split; reflexivity.
Qed.

Section Restarting.

Context {flags : ServiceFlags}.

(** A router that has gone to restart the bridge has not signalled the
    wait group, wherever it is on that path, and never will: at every
    point of every run a task has signalled once if it left by [break] and
    not at all otherwise. *)
Lemma run_doneSignals (sched : list Event) (s s' : System) (i : nat)
    (t : Task) :
  Forall freshTask (tasks s) -> waitGroup (bridge s) = 0 ->
  run sched s = Some s' -> tasks s' !! i = Some t ->
  doneSignals t = match pc t with
                  | Exited ExitDone => 1%nat
                  | _ => 0%nat
                  end.
Proof.
  intros Hf Hw Hr Hi.
  pose proof (run_inv sched s s' (fresh_SystemInv s Hf Hw) Hr) as Hinv.
  exact (Forall_lookup_1 _ _ _ _ (inv_done _ Hinv) Hi).
Qed.

End Restarting.

(** C6, at the failing input. After the read failure of the example,
    router 0 is inside the wait of its own [Restart] whatever happens
    next: its [Disconnect] never returns, so the [Start] of the restart is
    never run and the router never exits. *)
Theorem routeTraffic_restart_never_returns (sched : list Event) (s' : System) :
  run (flags := desoFlags) (exReadFailure ++ sched) exStarted = Some s' ->
  waitingInRestart 0 s'.
Proof.
  rewrite run_app.
  destruct (run exReadFailure exStarted) as [s1|] eqn:E; [|done].
  intros H.
  pose proof (run_inv _ _ _ exStarted_inv E) as Hinv.
  refine (run_waiting sched s1 s' 0 Hinv _ H).
  revert E. vm_compute. intros [= <-]. eexists. repeat split; reflexivity.
Qed.

(** C6, witness: router 0 is scheduled again, the test driver calls
    [Disconnect], and router 0 is scheduled once more, with an environment
    in which a [Start] would succeed. *)
Lemma routeTraffic_restart_never_returns_witness :
  exists s',
    run (flags := desoFlags)
      (exReadFailure ++ [Tick 0; CallDisconnect; TickStart 0 exEnv])
      exStarted = Some s' /\
    waitingInRestart 0 s'.
Proof.
  eexists. split; [vm_compute; reflexivity|].
  eapply (routeTraffic_restart_never_returns
            [Tick 0; CallDisconnect; TickStart 0 exEnv]).
  vm_compute. reflexivity.
Defined.

(** ** The router between two suspensions *)

Section Steady.

Context {flags : ServiceFlags}.

(** A poll of the paused router: it sleeps and reads nothing. *)
Lemma paused_tick (i p d : nat) (q : list DeSoMessage) (s : System) :
  Ready i p d q s -> paused (bridge s) = true ->
  exists s1,
    step (Tick i) s = Some s1 /\
    Ready i p d q s1 /\ paused (bridge s1) = true /\
    peers s1 = peers s /\
    readsOf i s1 = readsOf i s /\ writesOf i s1 = writesOf i s.
Proof.
  intros [(t & Hi & Hpc & Hsrc & Hdst) Hne Hs Hd Hen] Hp.
  exists (setTask i (log_sleep t) s).
  assert (Hlt : (i < length (tasks s))%nat) by (by eapply lookup_lt_Some).
  split.
  { simpl. unfold taskStep. rewrite Hi. unfold routeTraffic.
    by rewrite Hpc, Hen, Hp. }
  split; [split; try done|].
  - exists (log_sleep t). split; [|done]. simpl.
    by apply list_lookup_insert_eq.
  - unfold readsOf, writesOf. simpl.
    rewrite list_lookup_insert_eq, Hi by done. done.
Qed.

(** The far end sends while the router is paused: the message queues. *)
Lemma paused_deliver (i p d : nat) (q : list DeSoMessage) (m : DeSoMessage)
    (s : System) :
  Ready i p d q s ->
  exists s1,
    step (Deliver p (Arrive m)) s = Some s1 /\
    Ready i p d (q ++ [m]) s1 /\ paused (bridge s1) = paused (bridge s) /\
    outboxOf d s1 = outboxOf d s /\
    readsOf i s1 = readsOf i s /\ writesOf i s1 = writesOf i s.
Proof.
  intros [Ht Hne (x & Hx & Hc & Hq) (y & Hy & Hyc & Hyw) Hen].
  eexists. split; [reflexivity|].
  split; [split; try done|].
  - exists (deliverTo (Arrive m) x). simpl.
    rewrite list_lookup_alter_eq, Hx. simpl. 
    split; [done|]. split; [done|]. rewrite Hq, map_app. done.
  - exists y. simpl. by rewrite list_lookup_alter_ne.
  - unfold outboxOf. simpl. by rewrite list_lookup_alter_ne.
Qed.

Lemma paused_phase (i p d : nat) (sched : list Event) :
  pauseSchedule i p sched ->
  forall (q : list DeSoMessage) (s : System),
  Ready i p d q s -> paused (bridge s) = true ->
  exists s1,
    run sched s = Some s1 /\
    Ready i p d (q ++ deliveredTo p sched) s1 /\
    paused (bridge s1) = true /\
    outboxOf d s1 = outboxOf d s /\
    readsOf i s1 = readsOf i s /\ writesOf i s1 = writesOf i s.
Proof.
  induction 1 as [|e sched He Hsched IH]; intros q s Hr Hp.
  - exists s. simpl. rewrite app_nil_r. done.
  - destruct He as [->|[m ->]].
    + destruct (paused_tick i p d q s Hr Hp)
        as (s1 & Hs & Hr1 & Hp1 & Hps & Hrd & Hwr).
      destruct (IH q s1 Hr1 Hp1) as (s2 & Hrun & Hr2 & Hp2 & Ho & Hrd2 & Hwr2).
      exists s2. cbn [run deliveredTo]. rewrite Hs.
      assert (outboxOf d s1 = outboxOf d s)
        by (unfold outboxOf; by rewrite Hps).
      split_and!; try done; congruence.
    + destruct (paused_deliver i p d q m s Hr)
        as (s1 & Hs & Hr1 & Hp1 & Ho1 & Hrd & Hwr).
      destruct (IH (q ++ [m]) s1 Hr1) as (s2 & Hrun & Hr2 & Hp2 & Ho & Hrd2 & Hwr2);
        [congruence|].
      exists s2. cbn [run deliveredTo]. rewrite Hs.
      rewrite decide_True by done. rewrite <- app_assoc in Hr2.
      split_and!; try done; congruence.
Qed.

(** One message through the running router: it is read, and written to the
    destination unless it is of an address kind. *)
Lemma drain_one (i p d : nat) (m : DeSoMessage) (q : list DeSoMessage)
    (s : System) :
  Ready i p d (m :: q) s -> paused (bridge s) = false ->
  exists s2,
    run (ticks i 2) s = Some s2 /\
    Ready i p d q s2 /\ paused (bridge s2) = false /\
    readsOf i s2 = readsOf i s ++ [m] /\
    writesOf i s2 = writesOf i s ++ List.filter forwarded [m] /\
    outboxOf d s2 = outboxOf d s ++ List.filter forwarded [m].
Proof.
  intros [(t & Hi & Hpc & Hsrc & Hdst) Hne (x & Hx & Hc & Hq)
          (y & Hy & Hyc & Hyw) Hen] Hp.
  assert (Hlt : (i < length (tasks s))%nat) by (by eapply lookup_lt_Some).
  assert (Hpl : (p < length (peers s))%nat) by (by eapply lookup_lt_Some).
  assert (Hdl : (d < length (peers s))%nat) by (by eapply lookup_lt_Some).
  cbn [ticks repeat run step]. unfold taskStep at 1. rewrite Hi.
  unfold routeTraffic at 1. rewrite Hpc, Hen, Hp.
  set (s1 := setTask i (set_pc Reading t) s).
  assert (Hi1 : tasks s1 !! i = Some (set_pc Reading t))
    by (by apply list_lookup_insert_eq).
  unfold taskStep. rewrite Hi1. unfold routeTraffic.
  cbn [pc set_pc source destination].
  rewrite Hsrc, (ReadDeSoMessage_run p x s1 Hx).
  unfold connRead. rewrite Hc, Hq. cbn [map fst snd].
  change (disabled (bridge (withPeer p _ s1))) with (disabled (bridge s)).
  rewrite Hen.
  set (x' := set_PConn _ x).
  set (t1 := log_read m (set_pc Reading t)).
  assert (Hx' : closed (PConn x') = false /\ inbox (PConn x') = map Arrive q)
    by done.
  destruct (forwarded m) eqn:Hf.
  - assert (Hw : WriteDeSoMessage (destination (log_write m t1)) m
                   (withPeer p x' s1)
                 = Returned None
                     (withPeer d (set_PConn
                        {| inbox := inbox (PConn y); wfaults := [];
                           outbox := outbox (PConn y) ++ [m];
                           closed := closed (PConn y) |} y)
                        (withPeer p x' s1))).
    { cbn [destination log_write t1 log_read set_pc]. rewrite Hdst.
      rewrite (WriteDeSoMessage_run d y).
      2:{ rewrite withPeer_lookup_ne by done. exact Hy. }
      unfold connWrite. rewrite Hyc, Hyw. reflexivity. }
    exists (setTask i (set_pc LoopTop (log_write m t1))
              (withPeer d (set_PConn
                        {| inbox := inbox (PConn y); wfaults := [];
                           outbox := outbox (PConn y) ++ [m];
                           closed := closed (PConn y) |} y)
                        (withPeer p x' s1))).
    split.
    { destruct m; try discriminate Hf; rewrite Hw; reflexivity. }
    split; [split; try done|].
    + eexists. split; [simpl; apply list_lookup_insert_eq; by rewrite ?length_insert|].
      done.
    + exists x'. simpl. rewrite list_lookup_insert_ne by done.
      rewrite list_lookup_insert_eq by done. done.
    + eexists. simpl. split.
      * apply list_lookup_insert_eq. by rewrite ?length_insert.
      * done.
    + split; [done|]. unfold readsOf, writesOf, outboxOf. simpl.
      rewrite !list_lookup_insert_eq by (by rewrite ?length_insert).
      rewrite Hi, Hy. simpl. by rewrite Hf.
  - exists (setTask i (set_pc LoopTop t1) (withPeer p x' s1)).
    split.
    { destruct m; try discriminate Hf; reflexivity. }
    split; [split; try done|].
    + eexists. split; [simpl; apply list_lookup_insert_eq; by rewrite ?length_insert|].
      done.
    + exists x'. simpl. rewrite list_lookup_insert_eq by done. done.
    + exists y. simpl. rewrite list_lookup_insert_ne by done. done.
    + split; [done|]. unfold readsOf, writesOf, outboxOf. simpl.
      rewrite !list_lookup_insert_eq by (by rewrite ?length_insert).
      rewrite list_lookup_insert_ne by done.
      rewrite Hi, Hy. simpl. rewrite Hf, !app_nil_r. done.
Qed.

Lemma ticks_add (i n k : nat) : ticks i (n + k) = ticks i n ++ ticks i k.
Proof. unfold ticks. apply repeat_app. Qed.

(** The running router empties its source, in order. *)
Lemma drain (i p d : nat) (q : list DeSoMessage) :
  forall s : System,
  Ready i p d q s -> paused (bridge s) = false ->
  exists s2,
    run (ticks i (2 * length q)) s = Some s2 /\
    Ready i p d [] s2 /\ paused (bridge s2) = false /\
    readsOf i s2 = readsOf i s ++ q /\
    writesOf i s2 = writesOf i s ++ List.filter forwarded q /\
    outboxOf d s2 = outboxOf d s ++ List.filter forwarded q.
Proof.
  induction q as [|m q IH]; intros s Hr Hp.
  - exists s. simpl. rewrite !app_nil_r. done.
  - destruct (drain_one i p d m q s Hr Hp)
      as (s1 & Hrun1 & Hr1 & Hp1 & Hrd1 & Hwr1 & Ho1).
    destruct (IH s1 Hr1 Hp1) as (s2 & Hrun2 & Hr2 & Hp2 & Hrd2 & Hwr2 & Ho2).
    exists s2.
    replace (2 * length (m :: q))%nat with (2 + 2 * length q)%nat
      by (simpl; lia).
    rewrite ticks_add, run_app, Hrun1, Hrun2, Hrd2, Hwr2, Ho2, Hrd1, Hwr1, Ho1.
    rewrite <- !app_assoc.
    change (m :: q) with ([m] ++ q). rewrite List.filter_app.
    done.
Qed.

(** Clearing [paused] leaves the router and the sockets as they are. *)
Lemma resume_ready (i p d : nat) (q : list DeSoMessage) (s : System) :
  Ready i p d q s ->
  Ready i p d q (set_bridge (set_paused false (bridge s)) s).
Proof. intros [Ht Hne Hs Hd Hen]. by split. Qed.

End Steady.

(** ** Filtering and order *)

Section Forwarding.

Context {flags : ServiceFlags}.

Lemma step_logs (e : Event) (s s' : System) :
  Forall logsInv (tasks s) -> step e s = Some s' -> Forall logsInv (tasks s').
Proof.
  intros Hl Hs.
  destruct (step_shape e s s' Hs)
    as [[Hg (new & Ht & Hn)]
       |(i & t & t' & delta & new & Hi & Hls & Ht & Hn & Hg)].
  - rewrite Ht. apply Forall_app. split; [done|].
    eapply Forall_impl; [done|]. intros ? (src & dst & ->). by left.
  - rewrite Ht. apply Forall_app. split.
    + apply Forall_insert; [done|].
      eapply localStep_logsInv; [done|].
      eapply Forall_lookup_1; eauto.
    + eapply Forall_impl; [done|]. intros ? (src & dst & ->). by left.
Qed.

Lemma run_logs (sched : list Event) (s s' : System) :
  Forall logsInv (tasks s) -> run sched s = Some s' ->
  Forall logsInv (tasks s').
Proof.
  revert s. induction sched as [|e sched IH]; intros s Hl; simpl.
  - by intros [= <-].
  - destruct (step e s) as [s1|] eqn:E; [|done].
    apply IH. by eapply step_logs.
Qed.

(** C4 (as amended). Take any run that starts with freshly launched
    routers, any point of it and any router. The messages the router has
    handed to its destination's write are the messages it has read from
    its source with the address-list and address-request messages removed,
    unmodified and in the order read; the one exception is a last message
    read when the [disabled] check that follows the read found the flag
    set: the router drops it and leaves. And while the bridge is neither
    disabled nor paused and both sockets are up, a router at the head of
    its loop reads every message waiting on its source, and the
    destination's outbox grows by exactly those messages with the two
    address kinds removed, in the order they were read. *)
Theorem routeTraffic_forwards_in_order :
  (forall (sched : list Event) (s s' : System) (i : nat) (t : Task),
      Forall freshTask (tasks s) ->
      run sched s = Some s' ->
      tasks s' !! i = Some t ->
      (discarded t = [] /\ writes t = List.filter forwarded (reads t)) \/
      (exists front m,
          reads t = front ++ [m] /\ discarded t = [m] /\
          writes t = List.filter forwarded front /\
          pc t = Exited ExitDone)) /\
  (forall (i p d : nat) (q : list DeSoMessage) (s : System),
      Ready i p d q s ->
      paused (bridge s) = false ->
      exists s2,
        run (ticks i (2 * length q)) s = Some s2 /\
        readsOf i s2 = readsOf i s ++ q /\
        writesOf i s2 = writesOf i s ++ List.filter forwarded q /\
        outboxOf d s2 = outboxOf d s ++ List.filter forwarded q).
Proof.
  split.
  - intros sched s s' i t Hf Hr Hi.
    assert (Hl : Forall logsInv (tasks s)).
    { eapply Forall_impl; [done|]. intros ? (src & dst & ->). by left. }
    exact (Forall_lookup_1 _ _ _ _ (run_logs sched s s' Hl Hr) Hi).
  - intros i p d q s Hr Hp.
    destruct (drain i p d q s Hr Hp) as (s2 & Hrun & _ & _ & H).
    by exists s2.
Qed.

End Forwarding.

Lemma exQueued_ready :
  Ready 0 2 1 [exPing; MsgDeSoAddr [7]; exPong] exQueued.
Proof.
  split.
  - eexists. split; [vm_compute; reflexivity|]. done.
  - done.
  - eexists. split; [vm_compute; reflexivity|]. done.
  - eexists. split; [vm_compute; reflexivity|]. done.
  - reflexivity.
Qed.

(** C4, witness: router 0 relays a ping, an address list, an address
    request and a pong, as they come; and router 0 empties a source on
    which a ping, an address list and a pong wait. *)
Lemma routeTraffic_forwards_in_order_witness :
  (exists s' t,
      run (flags := desoFlags) exTraffic exStarted = Some s' /\
      tasks s' !! 0%nat = Some t /\
      reads t = [exPing; MsgDeSoAddr [7]; MsgDeSoGetAddr; exPong] /\
      writes t = [exPing; exPong] /\
      ((discarded t = [] /\ writes t = List.filter forwarded (reads t)) \/
       (exists front m,
           reads t = front ++ [m] /\ discarded t = [m] /\
           writes t = List.filter forwarded front /\
           pc t = Exited ExitDone))) /\
  (exists s2,
      run (flags := desoFlags)
        (ticks 0 (2 * length [exPing; MsgDeSoAddr [7]; exPong])) exQueued
        = Some s2 /\
      readsOf 0 s2 = readsOf 0 exQueued ++ [exPing; MsgDeSoAddr [7]; exPong] /\
      writesOf 0 s2
        = writesOf 0 exQueued
          ++ List.filter forwarded [exPing; MsgDeSoAddr [7]; exPong] /\
      outboxOf 1 s2
        = outboxOf 1 exQueued
          ++ List.filter forwarded [exPing; MsgDeSoAddr [7]; exPong]).
Proof.
  split.
  - do 2 eexists. split; [vm_compute; reflexivity|].
    split; [reflexivity|]. split; [reflexivity|]. split; [reflexivity|].
    eapply (proj1 (routeTraffic_forwards_in_order (flags := desoFlags))
              exTraffic exStarted _ 0%nat).
    + apply exStarted_fresh.
    + vm_compute. reflexivity.
    + reflexivity.
  - apply (proj2 (routeTraffic_forwards_in_order (flags := desoFlags))
             0%nat 2%nat 1%nat [exPing; MsgDeSoAddr [7]; exPong] exQueued).
    + apply exQueued_ready.
    + reflexivity.
Defined.

(** C4, counterexample. Router 0 is reading; node A sends a ping; the
    bridge is disabled before the router runs again. The router reads the
    ping, finds [disabled] set and leaves: the ping, a message of a
    forwarded kind, was read from the source and is never written to the
    destination. *)
Lemma routeTraffic_drops_read_when_disabled :
  exists s',
    run (flags := desoFlags) exDisabledAfterRead exStarted = Some s' /\
    readsOf 0 s' = [exPing] /\
    forwarded exPing = true /\
    writesOf 0 s' = [] /\
    outboxOf 1 s' = outboxOf 1 exStarted /\
    writesOf 0 s' <> List.filter forwarded (readsOf 0 s').
Proof.
  set (o := run exDisabledAfterRead exStarted). vm_compute in o. subst o.
  eexists. repeat split; try reflexivity.
  vm_compute. discriminate.
Qed.

(** ** Pause *)

Section Pause.

Context {flags : ServiceFlags}.

(** C9 (as amended). A router at the head of its loop that finds [paused]
    set sleeps and polls again: in any stretch in which it is scheduled
    while the bridge stays paused and the far end of its source keeps
    sending, it reads nothing and writes nothing, and the messages queue
    on the source in the order sent. Once [paused] is cleared, and with
    both sockets up and the bridge not disabled, the router reads all of
    them in that order and writes them to the destination in that order,
    except those of the address-list and address-request kinds, which it
    consumes without forwarding. *)
Theorem paused_router_delays (i p d : nat) (q : list DeSoMessage)
    (sched : list Event) (s : System) :
  Ready i p d q s ->
  paused (bridge s) = true ->
  pauseSchedule i p sched ->
  exists s1 s2,
    run sched s = Some s1 /\
    readsOf i s1 = readsOf i s /\
    writesOf i s1 = writesOf i s /\
    outboxOf d s1 = outboxOf d s /\
    Ready i p d (q ++ deliveredTo p sched) s1 /\
    run (SetPaused false
           :: ticks i (2 * length (q ++ deliveredTo p sched))) s1 = Some s2 /\
    readsOf i s2 = readsOf i s ++ (q ++ deliveredTo p sched) /\
    writesOf i s2
      = writesOf i s ++ List.filter forwarded (q ++ deliveredTo p sched) /\
    outboxOf d s2
      = outboxOf d s ++ List.filter forwarded (q ++ deliveredTo p sched).
Proof.
  intros Hr Hp Hsched.
  destruct (paused_phase i p d sched Hsched q s Hr Hp)
    as (s1 & Hrun & Hr1 & Hp1 & Ho1 & Hrd1 & Hwr1).
  destruct (drain i p d _ _ (resume_ready i p d _ s1 Hr1) eq_refl)
    as (s2 & Hrun2 & _ & _ & Hrd2 & Hwr2 & Ho2).
  exists s1, s2. split_and!; try done.
  - by rewrite Hrd2, <- Hrd1.
  - by rewrite Hwr2, <- Hwr1.
  - by rewrite Ho2, <- Ho1.
Qed.
End Pause.

Lemma exPaused_ready : Ready 0 2 1 [] exPaused.
Proof.
  split.
  - eexists. split; [vm_compute; reflexivity|]. done.
  - done.
  - eexists. split; [vm_compute; reflexivity|]. done.
  - eexists. split; [vm_compute; reflexivity|]. done.
  - reflexivity.
Qed.

(** C9, witness: node A sends a ping, an address request and a pong while
    the bridge is paused and router 0 polls three times. *)
Lemma paused_router_delays_witness :
  exists s1 s2,
    run (flags := desoFlags) exPausedTraffic exPaused = Some s1 /\
    readsOf 0 s1 = readsOf 0 exPaused /\
    writesOf 0 s1 = writesOf 0 exPaused /\
    outboxOf 1 s1 = outboxOf 1 exPaused /\
    Ready 0 2 1 ([] ++ deliveredTo 2 exPausedTraffic) s1 /\
    run (flags := desoFlags)
      (SetPaused false
         :: ticks 0 (2 * length ([] ++ deliveredTo 2 exPausedTraffic))) s1
      = Some s2 /\
    readsOf 0 s2
      = readsOf 0 exPaused ++ ([] ++ deliveredTo 2 exPausedTraffic) /\
    writesOf 0 s2
      = writesOf 0 exPaused
        ++ List.filter forwarded ([] ++ deliveredTo 2 exPausedTraffic) /\
    outboxOf 1 s2
      = outboxOf 1 exPaused
        ++ List.filter forwarded ([] ++ deliveredTo 2 exPausedTraffic).
Proof.
  apply (paused_router_delays (flags := desoFlags) 0 2 1 [] exPausedTraffic
           exPaused).
  - apply exPaused_ready.
  - reflexivity.
  - unfold pauseSchedule, exPausedTraffic.
    repeat (apply Forall_cons; split;
            [first [by left | right; eexists; reflexivity]|]).
    apply Forall_nil_2.
Defined.

(** C9, counterexample. Node A sends an address list while the bridge is
    paused. After the bridge is resumed the router reads the message and
    consumes it: nothing is written to the destination, and the router
    waits for the next message with nothing left to forward. *)
Lemma paused_addr_never_forwarded :
  exists s',
    run (flags := desoFlags) exPausedAddr exStarted = Some s' /\
    deliveredTo 2 exPausedAddr = [MsgDeSoAddr [7]] /\
    readsOf 0 s' = [MsgDeSoAddr [7]] /\
    writesOf 0 s' = [] /\
    outboxOf 1 s' = outboxOf 1 exStarted /\
    pcOf 0 s' = Some Reading /\
    outboxOf 1 s' <> outboxOf 1 exStarted ++ deliveredTo 2 exPausedAddr.
Proof.
  set (o := run exPausedAddr exStarted). vm_compute in o. subst o.
  eexists. repeat split; try reflexivity.
  vm_compute. discriminate.
Qed.

(** The pause gates the head of the loop only. A router that is already
    inside the read when [paused] is set completes that read and forwards
    the message while the bridge is still paused. *)
Lemma paused_inflight_read_forwards :
  exists s',
    run (flags := desoFlags) exPausedInFlight exStarted = Some s' /\
    paused (bridge s') = true /\
    readsOf 0 s' = [exPing] /\
    writesOf 0 s' = [exPing] /\
    outboxOf 1 s' = outboxOf 1 exStarted ++ [exPing].
Proof.
  set (o := run exPausedInFlight exStarted). vm_compute in o. subst o.
  eexists. repeat split; reflexivity.
Qed.

(** * Further properties of the bridge *)

(** ** The store after [Start] *)

Lemma insert_two_l (l : list Peer) (a a' b : Peer) :
  <[length l := a']> ((l ++ [a]) ++ [b]) = (l ++ [a']) ++ [b].
Proof.
  rewrite <- !app_assoc. rewrite insert_app_r_alt by lia.
  by rewrite Nat.sub_diag.
Qed.

Lemma insert_last (l : list Peer) (b b' : Peer) (n : nat) :
  n = length l -> <[n := b']> (l ++ [b]) = l ++ [b'].
Proof.
  intros ->. rewrite insert_app_r_alt by lia. by rewrite Nat.sub_diag.
Qed.

Lemma lookup_last (l : list Peer) (b : Peer) (n : nat) :
  n = length l -> (l ++ [b]) !! n = Some b.
Proof. intros ->. by apply list_lookup_middle. Qed.

Ltac start_done :=
  split; [done|]; eexists; split;
  [ split; rewrite ?length_app; simpl; rewrite <- ?app_assoc;
    try done; repeat constructor; done
  | try (split; [done|]) ].

(** The channel case of the [select] is taken only for a peer that was
    ready no later than the ticker. *)
Lemma selectHandoff_FromChan (h : option Accepted) (tie : bool) (a : Accepted) :
  fst (selectHandoff h tie) = FromChan a ->
  h = Some a /\ accDelay a <= waitTimeout.
Proof.
  unfold selectHandoff. destruct h as [b|]; [|done].
  destruct (Z.ltb_spec (accDelay b) waitTimeout).
  { cbn. intros [= ->]. split; [done|lia]. }
  destruct (Z.eqb_spec (accDelay b) waitTimeout); [|done].
  destruct tie; [|done]. cbn. intros [= ->]. split; [done|lia].
Qed.

Section StartCases.

Context {flags : ServiceFlags}.

(** The handshake leaves the ID and the direction of a leg alone, sets
    [VersionNegotiated] when it succeeds, and never reports the timeout
    of [waitForConnection]. *)
Lemma legHandshake_keeps (node : Node) (io : HandshakeEnv) (x : Peer) :
  ID (snd (legHandshake node io x)) = ID x /\
  isOutbound (snd (legHandshake node io x)) = isOutbound x /\
  disconnectCalls (snd (legHandshake node io x)) = disconnectCalls x /\
  (fst (legHandshake node io x) = None ->
   VersionNegotiated (snd (legHandshake node io x)) = true) /\
  fst (legHandshake node io x) <> Some ErrTimedOut.
Proof.
  split_and!.
  - unfold legHandshake. leg_simpl.
    destruct (connWrite _ _) as [[e|] c1]; leg_simpl; [done|].
    destruct (connRead c1) as [[msg|e|] c2]; leg_simpl; [|done..].
    set (x2 := match msg with MsgVersion _ => _ | _ => _ end).
    assert (Hx2 : ID x2 = ID x) by (subst x2; by destruct msg).
    clearbody x2.
    destruct (connWrite _ _) as [[e|] c3]; leg_simpl; [done|].
    destruct (connRead c3) as [[[?|nn| | |]|e|] c4]; leg_simpl; try done.
    by destruct (negb _).
  - unfold legHandshake. leg_simpl.
    destruct (connWrite _ _) as [[e|] c1]; leg_simpl; [done|].
    destruct (connRead c1) as [[msg|e|] c2]; leg_simpl; [|done..].
    set (x2 := match msg with MsgVersion _ => _ | _ => _ end).
    assert (Hx2 : isOutbound x2 = isOutbound x) by (subst x2; by destruct msg).
    clearbody x2.
    destruct (connWrite _ _) as [[e|] c3]; leg_simpl; [done|].
    destruct (connRead c3) as [[[?|nn| | |]|e|] c4]; leg_simpl; try done.
    by destruct (negb _).
  - apply legHandshake_invariants.
  - intros H. by rewrite legHandshake_negotiated, H.
  - unfold legHandshake, connWrite, connRead.
    repeat (case_match; simplify_eq; cbn [fst snd]); done.
Qed.

(** Every way a call of [Start] can end. *)
Lemma Start_cases (env : StartEnv) (s : System) :
  match Start env s with
  | Panicked =>
      envListenA env = false \/ envListenB env = false \/
      envDialA env = None \/ envDialB env = None
  | Parked _ => False
  | Returned r s' =>
      (envListenA env = true /\ envListenB env = true /\
       envDialA env <> None /\ envDialB env <> None) /\
      exists new,
        Begun s s' new /\
        match r with
        | Some e =>
            tasks s' = tasks s /\
            ((length new = 2%nat /\ e <> ErrTimedOut /\
              connectionOutboundA (bridge s') = connectionOutboundA (bridge s) /\
              connectionOutboundB (bridge s') = connectionOutboundB (bridge s)) \/
             (length new = 2%nat /\ e = ErrTimedOut /\
              connectionOutboundA (bridge s') = None /\
              connectionOutboundB (bridge s') = connectionOutboundB (bridge s)) \/
             (length new = 3%nat /\ e = ErrTimedOut /\
              connectionOutboundA (bridge s')
                = Some (length (peers s) + 2)%nat /\
              connectionOutboundB (bridge s') = None) \/
             (length new = 4%nat /\ e <> ErrTimedOut /\
              connectionOutboundA (bridge s')
                = Some (length (peers s) + 2)%nat /\
              connectionOutboundB (bridge s')
                = Some (length (peers s) + 3)%nat))
        | None =>
            length new = 4%nat /\
            Forall (fun x => VersionNegotiated x = true) new /\
            isOutbound <$> new = [true; true; false; false] /\
            (exists aA aB,
                envAcceptA env = Some aA /\ accDelay aA <= waitTimeout /\
                envAcceptB env = Some aB /\ accDelay aB <= waitTimeout /\
                ID <$> new = [uint64 (envRandInA env); uint64 (envRandInB env);
                              uint64 (accRand aA); uint64 (accRand aB)]) /\
            connectionOutboundA (bridge s')
              = Some (length (peers s) + 2)%nat /\
            connectionOutboundB (bridge s')
              = Some (length (peers s) + 3)%nat /\
            tasks s' = tasks s ++
              routes (length (peers s)) (length (peers s) + 1)
                     (length (peers s) + 2) (length (peers s) + 3)
        end
  end.
Proof.
  unfold Start.
  destruct s as [ps ls [nA iA oA lA nB iB oB lB pa di wg ca] ts].
  unfold createOutboundConnection, netListen, createInboundConnection.
  destruct (envListenA env) eqn:HlA;
    [|repeat (rewrite bind_run; cbn); auto].
  destruct (envListenB env) eqn:HlB;
    [|repeat (rewrite bind_run; cbn); auto].
  destruct (envDialA env) as [cA|] eqn:HdA;
    [|repeat (rewrite bind_run; cbn); auto].
  destruct (envDialB env) as [cB|] eqn:HdB;
    [|repeat (rewrite bind_run; cbn); auto].
  repeat (rewrite bind_run; cbn).
  rewrite orReturn_run, startConnection_run. cbn.
  rewrite lookup_two_l.
  pose proof (legHandshake_keeps nB (envHsInA env)
                (set_ID (uint64 (envRandInA env)) (NewPeer cA true)))
    as (Hid1 & Hob1 & Hd1 & Hn1 & Hk1).
  destruct (legHandshake nB _ _) as [[e1|] x1]; cbn [fst snd] in *;
    unfold withPeer; cbn; rewrite insert_two_l.
  { start_done. left. split_and!; [done|congruence|done..]. }
  rewrite bind_run. cbn.
  rewrite orReturn_run, startConnection_run. cbn.
  rewrite lookup_last by (by rewrite !length_app).
  pose proof (legHandshake_keeps nA (envHsInB env)
                (set_ID (uint64 (envRandInB env)) (NewPeer cB true)))
    as (Hid2 & Hob2 & Hd2 & Hn2 & Hk2).
  destruct (legHandshake nA _ _) as [[e2|] x2]; cbn [fst snd] in *;
    unfold withPeer; cbn; rewrite insert_last by (by rewrite !length_app).
  { start_done. left. split_and!; [done|congruence|done..]. }
  rewrite bind_run. cbn. rewrite bind_run. cbn.
  rewrite bind_run, waitForConnection_run.
  destruct (fst (selectHandoff (envAcceptA env) _)) as [|aA] eqn:HaA; cbn.
  { repeat (rewrite bind_run; cbn). rewrite orReturn_run. cbn.
    start_done. right; left. by split_and!. }
  repeat (rewrite bind_run; cbn).
  rewrite orReturn_run. cbn.
  repeat (rewrite bind_run; cbn).
  rewrite waitForConnection_run.
  destruct (fst (selectHandoff (envAcceptB env) _)) as [|aB] eqn:HaB; cbn.
  { repeat (rewrite bind_run; cbn). rewrite orReturn_run. cbn.
    start_done. right; right; left. split_and!; try done.
    simpl. f_equal. rewrite !length_app. simpl. lia. }
  repeat (rewrite bind_run; cbn).
  rewrite orReturn_run. cbn.
  repeat (rewrite bind_run; cbn).
  rewrite orReturn_run, startConnection_run. cbn.
  rewrite lookup_two_l.
  pose proof (legHandshake_keeps nB (envHsOutA env) (acceptedPeer aA))
    as (Hid3 & Hob3 & Hd3 & Hn3 & Hk3).
  destruct (legHandshake nB (envHsOutA env) _) as [[e3|] x3];
    cbn [fst snd] in *; unfold withPeer; cbn; rewrite insert_two_l.
  { start_done. right; right; right. rewrite !length_app. simpl.
    split_and!; [done|congruence|f_equal; lia..]. }
  rewrite bind_run. cbn.
  rewrite orReturn_run, startConnection_run. cbn.
  rewrite lookup_last by (by rewrite !length_app).
  pose proof (legHandshake_keeps nB (envHsOutB env) (acceptedPeer aB))
    as (Hid4 & Hob4 & Hd4 & Hn4 & Hk4).
  destruct (legHandshake nB (envHsOutB env) _) as [[e4|] x4];
    cbn [fst snd] in *; unfold withPeer; cbn;
    rewrite insert_last by (by rewrite !length_app).
  { start_done. right; right; right. rewrite !length_app. simpl.
    split_and!; [done|congruence|f_equal; lia..]. }
  repeat (rewrite bind_run; cbn).
  start_done.
  rewrite !length_app. simpl. rewrite <- !app_assoc. simpl.
  replace (length ps + 1 + 1 + 1)%nat with (length ps + 3)%nat by lia.
  replace (length ps + 1 + 1)%nat with (length ps + 2)%nat by lia.
  apply selectHandoff_FromChan in HaA as [HaA HtA].
  apply selectHandoff_FromChan in HaB as [HaB HtB].
  split_and!; try done.
  - repeat constructor; auto.
  - by rewrite Hob1, Hob2, Hob3, Hob4.
  - exists aA, aB. split_and!; try done. cbn. by rewrite Hid1, Hid2, Hid3, Hid4.
Qed.

End StartCases.

Section StartExtras.

Context {flags : ServiceFlags}.

(** X1. When [Start] returns no error, the store holds exactly four new
    legs after the old ones, in the order inbound A, inbound B, outbound
    A, outbound B, and two new open listeners; the bridge points at them;
    all four legs have completed the handshake, none has been
    disconnected, the two dialled legs are marked outbound and the two
    accepted legs are not, and each carries the random ID drawn for it;
    both nodes had connected to their listener within the 30 seconds of
    the acquisition; [disabled] is false, [paused], the nodes and
    the wait-group counter are as before; and exactly four routers have
    been launched, none of which has run yet: outbound A to inbound B and
    back, outbound B to inbound A and back. The legs, listeners and tasks
    the store had before are still there, unchanged. *)
Theorem Start_success_wires_bridge (env : StartEnv) (s s' : System) :
  Start env s = Returned None s' ->
  exists inA inB outA outB : Peer,
    Begun s s' [inA; inB; outA; outB] /\
    Forall (fun x => VersionNegotiated x = true) [inA; inB; outA; outB] /\
    isOutbound inA = true /\ isOutbound inB = true /\
    isOutbound outA = false /\ isOutbound outB = false /\
    (exists aA aB,
        envAcceptA env = Some aA /\ accDelay aA <= waitTimeout /\
        envAcceptB env = Some aB /\ accDelay aB <= waitTimeout /\
        ID inA = uint64 (envRandInA env) /\
        ID inB = uint64 (envRandInB env) /\
        ID outA = uint64 (accRand aA) /\ ID outB = uint64 (accRand aB)) /\
    connectionOutboundA (bridge s') = Some (length (peers s) + 2)%nat /\
    connectionOutboundB (bridge s') = Some (length (peers s) + 3)%nat /\
    tasks s' = tasks s ++
      routes (length (peers s)) (length (peers s) + 1)
             (length (peers s) + 2) (length (peers s) + 3).
Proof.
  intros H. pose proof (Start_cases env s) as Hc. rewrite H in Hc.
  destruct Hc as (_ & new & Hb & Hlen & Hneg & Hout & Hacc & HoA & HoB & Ht).
  destruct new as [|inA [|inB [|outA [|outB [|]]]]]; try done.
  exists inA, inB, outA, outB. simpl in Hout.
  injection Hout as -> -> -> ->.
  destruct Hacc as (aA & aB & ? & ? & ? & ? & Hid). simpl in Hid.
  injection Hid as ? ? ? ?.
  split_and!; try done. by exists aA, aB.
Qed.

(** X2. [Start] panics when one of the two listeners cannot be opened or
    one of the two nodes cannot be dialled, and in no other case: a
    failed handshake and a timed-out acquisition are returned as errors.
    It never blocks on the wait group. *)
Theorem Start_panics_iff_no_listener_or_dial (env : StartEnv) (s : System) :
  (Start env s = Panicked <->
   envListenA env = false \/ envListenB env = false \/
   envDialA env = None \/ envDialB env = None) /\
  (forall s', Start env s <> Parked s').
Proof.
  pose proof (Start_cases env s) as Hc.
  destruct (Start env s) as [r s1|s1|]; [|done|].
  - destruct Hc as ((HlA & HlB & HdA & HdB) & _). split; [|done].
    split; [done|]. intros [?|[?|[?|?]]]; congruence.
  - split; [|done]. by split.
Qed.

(** X3. When [Start] returns an error, what it had built before the
    failing step stays in the store and in the bridge: the two listeners,
    open, and the new legs, none disconnected, with the bridge's listener
    and inbound fields already pointing at the new objects; no router has
    been launched. Which legs exist tells the failing step apart: a
    failed inbound handshake leaves two new legs and the outbound fields
    as they were; a timeout of the first acquisition leaves two new legs
    and [connectionOutboundA] nil; a timeout of the second leaves three
    and [connectionOutboundB] nil; a failed outbound handshake leaves all
    four legs, with both outbound fields set. The timeout error comes
    from the acquisitions only. *)
Theorem Start_error_leaves_partial_bridge (env : StartEnv) (s s' : System)
    (e : Error) :
  Start env s = Returned (Some e) s' ->
  exists new,
    Begun s s' new /\
    tasks s' = tasks s /\
    ((length new = 2%nat /\ e <> ErrTimedOut /\
      connectionOutboundA (bridge s') = connectionOutboundA (bridge s) /\
      connectionOutboundB (bridge s') = connectionOutboundB (bridge s)) \/
     (length new = 2%nat /\ e = ErrTimedOut /\
      connectionOutboundA (bridge s') = None /\
      connectionOutboundB (bridge s') = connectionOutboundB (bridge s)) \/
     (length new = 3%nat /\ e = ErrTimedOut /\
      connectionOutboundA (bridge s') = Some (length (peers s) + 2)%nat /\
      connectionOutboundB (bridge s') = None) \/
     (length new = 4%nat /\ e <> ErrTimedOut /\
      connectionOutboundA (bridge s') = Some (length (peers s) + 2)%nat /\
      connectionOutboundB (bridge s') = Some (length (peers s) + 3)%nat)).
Proof.
  intros H. pose proof (Start_cases env s) as Hc. rewrite H in Hc.
  destruct Hc as (_ & new & Hb & Ht & Hstage). by exists new.
Qed.

End StartExtras.

(** X1, witness: the example run in which every step succeeds. *)
Lemma Start_success_wires_bridge_witness :
  exists inA inB outA outB : Peer,
    Begun exSystem exStarted [inA; inB; outA; outB] /\
    Forall (fun x => VersionNegotiated x = true) [inA; inB; outA; outB] /\
    isOutbound inA = true /\ isOutbound inB = true /\
    isOutbound outA = false /\ isOutbound outB = false /\
    (exists aA aB,
        Some exAcceptA = Some aA /\ accDelay aA <= waitTimeout /\
        Some exAcceptB = Some aB /\ accDelay aB <= waitTimeout /\
        ID inA = 11 /\ ID inB = 12 /\
        ID outA = uint64 (accRand aA) /\ ID outB = uint64 (accRand aB)) /\
    connectionOutboundA (bridge exStarted) = Some 2%nat /\
    connectionOutboundB (bridge exStarted) = Some 3%nat /\
    tasks exStarted = routes 0 1 2 3.
Proof.
  apply (Start_success_wires_bridge (flags := desoFlags) exEnv exSystem
           exStarted).
  vm_compute. reflexivity.
Defined.

(** X3, witness: node A dials and then stays silent, so that the third
    handshake times out, with all four legs created. *)
Lemma Start_error_leaves_partial_bridge_witness :
  exists s',
    Start (flags := desoFlags) exEnvSilent exSystem
      = Returned (Some ErrReadTimeout) s' /\
    exists new,
      Begun exSystem s' new /\
      tasks s' = tasks exSystem /\
      ((length new = 2%nat /\ ErrReadTimeout <> ErrTimedOut /\
        connectionOutboundA (bridge s') = None /\
        connectionOutboundB (bridge s') = None) \/
       (length new = 2%nat /\ ErrReadTimeout = ErrTimedOut /\
        connectionOutboundA (bridge s') = None /\
        connectionOutboundB (bridge s') = None) \/
       (length new = 3%nat /\ ErrReadTimeout = ErrTimedOut /\
        connectionOutboundA (bridge s') = Some 2%nat /\
        connectionOutboundB (bridge s') = None) \/
       (length new = 4%nat /\ ErrReadTimeout <> ErrTimedOut /\
        connectionOutboundA (bridge s') = Some 2%nat /\
        connectionOutboundB (bridge s') = Some 3%nat)).
Proof.
  eexists. split; [vm_compute; reflexivity|].
  eapply (Start_error_leaves_partial_bridge (flags := desoFlags) exEnvSilent).
  vm_compute. reflexivity.
Defined.

(** ** More on the handshake *)

Lemma connWrite_cases (m : DeSoMessage) (c : Conn) :
  inbox (snd (connWrite m c)) = inbox c /\
  closed (snd (connWrite m c)) = closed c /\
  ((fst (connWrite m c) = None /\
    outbox (snd (connWrite m c)) = outbox c ++ [m]) \/
   (fst (connWrite m c) <> None /\
    outbox (snd (connWrite m c)) = outbox c)).
Proof.
  unfold connWrite. destruct (closed c) eqn:E.
  - split_and!; try done. by right.
  - destruct (wfaults c) as [|[] r]; simpl; split_and!; try done;
      first [by left | by right].
Qed.

Lemma connRead_cases (c : Conn) :
  outbox (snd (connRead c)) = outbox c /\
  closed (snd (connRead c)) = closed c /\
  wfaults (snd (connRead c)) = wfaults c /\
  (inbox (snd (connRead c)) = inbox c \/
   inbox (snd (connRead c)) = drop 1 (inbox c)) /\
  (forall m, fst (connRead c) = ReadOk m ->
             inbox c = Arrive m :: inbox (snd (connRead c))).
Proof.
  unfold connRead. destruct (closed c) eqn:E.
  { split_and!; try done. by left. }
  destruct (inbox c) as [|[m|] q] eqn:Ei; simpl; rewrite ?Ei; split_and!;
    try done; try (by left); try (by right).
  by intros ? [= ->].
Qed.

Section HandshakeExtras.

Context {flags : ServiceFlags}.

(** What the handshake writes and consumes, whatever the far end does. *)
Lemma legHandshake_traffic (node : Node) (io : HandshakeEnv) (x : Peer) :
  exists nwritten nread : nat,
    outbox (PConn (snd (legHandshake node io x))) =
      outbox (PConn x)
      ++ take nwritten
           [MsgVersion (getVersionMessage node (hsNow io) (hsRand io));
            MsgDeSoVerack
              (VersionNonceReceived (snd (legHandshake node io x)))] /\
    inbox (PConn (snd (legHandshake node io x)))
      = drop nread (inbox (PConn x)) /\
    (nread <= nwritten <= 2)%nat /\
    (fst (legHandshake node io x) = None ->
     nwritten = 2%nat /\ nread = 2%nat) /\
    ID (snd (legHandshake node io x)) = ID x /\
    isOutbound (snd (legHandshake node io x)) = isOutbound x.
Proof.
  unfold legHandshake.
  set (ver := getVersionMessage _ _ _). leg_simpl.
  pose proof (connWrite_cases (MsgVersion ver) (PConn x)) as (Hi1 & _ & Ho1).
  destruct (connWrite (MsgVersion ver) (PConn x)) as [e1 c1];
    cbn [fst snd] in *.
  destruct Ho1 as [[-> Ho1]|[He1 Ho1]].
  2:{ destruct e1 as [e|]; [|done]. leg_simpl. exists 0%nat, 0%nat.
      cbn [PConn set_PConn ID isOutbound set_VersionNonceSent].
      rewrite Ho1, Hi1, app_nil_r. split_and!; try done; lia. }
  pose proof (connRead_cases c1) as (Ho2 & _ & _ & Hi2 & Hok2).
  destruct (connRead c1) as [r1 c2]; cbn [fst snd] in *.
  assert (Hin2 : exists k, (k <= 1)%nat /\ inbox c2 = drop k (inbox (PConn x))).
  { destruct Hi2 as [H|H]; [exists 0%nat|exists 1%nat]; rewrite H, Hi1;
      split; try lia; done. }
  destruct Hin2 as (k1 & Hk1 & Hin2).
  destruct r1 as [msg|e|]; leg_simpl.
  2,3: exists 1%nat, k1;
       cbn [PConn set_PConn ID isOutbound set_VersionNonceSent];
       rewrite Ho2, Ho1; split_and!; try done; lia.
  set (x2 := match msg with MsgVersion _ => _ | _ => _ end).
  assert (Hx2 : PConn x2 = c2 /\ ID x2 = ID x /\ isOutbound x2 = isOutbound x)
    by (subst x2; by destruct msg).
  destruct Hx2 as (Hp2 & Hid2 & Hob2).
  set (nr := VersionNonceReceived x2).
  assert (Hnr : VersionNonceReceived x2 = nr) by done.
  clearbody x2 nr.
  pose proof (connWrite_cases (MsgDeSoVerack nr) (PConn x2)) as (Hi3 & _ & Ho3).
  destruct (connWrite _ (PConn x2)) as [e3 c3]; cbn [fst snd] in *.
  destruct Ho3 as [[-> Ho3]|[He3 Ho3]].
  2:{ destruct e3 as [e|]; [|done]. exists 1%nat, k1.
      cbn [PConn set_PConn ID isOutbound set_VersionNonceSent fst snd
           VersionNonceReceived].
      rewrite Hnr, Ho3, Hi3, Hp2, Ho2, Ho1. split_and!; try done; lia. }
  pose proof (connRead_cases c3) as (Ho4 & _ & _ & Hi4 & Hok4).
  destruct (connRead c3) as [r2 c4]; cbn [fst snd] in *.
  assert (Hin4 : exists k, (k <= 2)%nat /\ inbox c4 = drop k (inbox (PConn x))).
  { destruct Hi4 as [H|H]; [exists k1|exists (k1 + 1)%nat];
      rewrite H, Hi3, Hp2, Hin2, ?drop_drop; split; try lia; done. }
  destruct Hin4 as (k2 & Hk2 & Hin4).
  assert (Hout4 : outbox c4 = outbox (PConn x)
                   ++ take 2 [MsgVersion ver; MsgDeSoVerack nr]).
  { rewrite Ho4, Ho3, Hp2, Ho2, Ho1, <- app_assoc. done. }
  assert (Hsucc : inbox c3 = drop k1 (inbox (PConn x)))
    by (by rewrite Hi3, Hp2).
  destruct r2 as [[?|nn| | |]|e|]; cbn [fst snd].
  all: try (exists 2%nat, k2;
            cbn [PConn set_PConn ID isOutbound VersionNonceReceived];
            rewrite Hnr; split_and!; try done; lia).
  destruct (negb _); cbn [fst snd].
  - exists 2%nat, k2.
    cbn [PConn set_PConn ID isOutbound VersionNonceReceived].
    rewrite Hnr. split_and!; try done; lia.
  - exists 2%nat, 2%nat.
    cbn [PConn set_PConn set_VersionNegotiated ID isOutbound
         VersionNonceReceived].
    rewrite Hnr. split_and!; try done; try lia.
    specialize (Hok2 _ eq_refl). specialize (Hok4 _ eq_refl).
    rewrite Hi1 in Hok2. rewrite Hi3, Hp2 in Hok4.
    rewrite Hok2, Hok4. done.
Qed.

(** X4. Whatever the far end does, [startConnection] on a live leg
    returns (it neither panics nor blocks) and touches nothing but that
    leg. It writes at most two messages, the version message built for
    the impersonated node and then the verack carrying the nonce recorded
    as received, and nothing else; it consumes at most two arrivals, never
    more than it has written; when it returns no error it has written both
    and consumed two. The leg's ID and direction, whether its socket is
    closed, and its count of disconnects are unchanged. *)
Theorem startConnection_writes_and_reads_at_most_two (node : Node)
    (io : HandshakeEnv) (c : nat) (x : Peer) (s : System) :
  peers s !! c = Some x ->
  exists r x' (nwritten nread : nat),
    startConnection (Some c) node io s = Returned r (withPeer c x' s) /\
    outbox (PConn x') =
      outbox (PConn x)
      ++ take nwritten
           [MsgVersion (getVersionMessage node (hsNow io) (hsRand io));
            MsgDeSoVerack (VersionNonceReceived x')] /\
    inbox (PConn x') = drop nread (inbox (PConn x)) /\
    (nread <= nwritten <= 2)%nat /\
    (r = None -> nwritten = 2%nat /\ nread = 2%nat) /\
    ID x' = ID x /\ isOutbound x' = isOutbound x /\
    closed (PConn x') = closed (PConn x) /\
    disconnectCalls x' = disconnectCalls x.
Proof.
  intros Hx. rewrite startConnection_run, Hx.
  destruct (legHandshake_traffic node io x)
    as (nw & nr & Ho & Hi & Hn & Hr & Hid & Hob).
  destruct (legHandshake_invariants node io x) as (Hdc & Hcl & _).
  exists (fst (legHandshake node io x)), (snd (legHandshake node io x)), nw, nr.
  split_and!; try done; lia.
Qed.

(** X5. The handshake against a far end that answers properly: on an
    open leg whose writes succeed and on which the far end's version
    message and then a verack echoing the nonce sent are waiting,
    [startConnection] returns no error; the leg is marked negotiated, has
    recorded the nonce it sent, the far end's nonce and timestamp, and the
    offset of that timestamp from the local clock as a signed 64-bit
    number; it has written the version message and then the verack
    carrying the far end's nonce, and has consumed exactly the two
    replies. *)
Theorem startConnection_completes (node : Node) (io : HandshakeEnv) (c : nat)
    (x : Peer) (s : System) (reply : MsgDeSoVersion) (rest : list Arrival) :
  peers s !! c = Some x ->
  closed (PConn x) = false ->
  wfaults (PConn x) = [] ->
  inbox (PConn x)
    = Arrive (MsgVersion reply)
      :: Arrive (MsgDeSoVerack (uint64 (hsRand io))) :: rest ->
  exists x',
    startConnection (Some c) node io s = Returned None (withPeer c x' s) /\
    VersionNegotiated x' = true /\
    VersionNonceSent x' = uint64 (hsRand io) /\
    VersionNonceReceived x' = Nonce reply /\
    TimeConnected x' = TstampSecs reply /\
    TimeOffsetSecs x' = int64 (TstampSecs reply - hsNowReply io) /\
    outbox (PConn x')
      = outbox (PConn x)
        ++ [MsgVersion (getVersionMessage node (hsNow io) (hsRand io));
            MsgDeSoVerack (Nonce reply)] /\
    inbox (PConn x') = rest /\
    closed (PConn x') = false.
Proof.
  intros Hx Hc Hw Hi. rewrite startConnection_run, Hx.
  exists (snd (legHandshake node io x)).
  unfold legHandshake, connWrite, connRead. leg_simpl.
  rewrite Hc, Hw. leg_simpl. cbn [closed inbox wfaults].
  rewrite ?Hc, ?Hi. leg_simpl. cbn [closed inbox wfaults].
  rewrite ?Hc. leg_simpl. cbn [Nonce getVersionMessage].
  rewrite Z.eqb_refl. cbn [negb fst snd].
  split_and!; try reflexivity.
  cbn. by rewrite <- app_assoc.
Qed.

(** X6. A second reply that is not a verack aborts the handshake:
    whatever the first reply was, [startConnection] returns the error
    naming the kind received, has consumed both replies, and leaves
    [VersionNegotiated] as it was. *)
Theorem startConnection_rejects_non_verack (node : Node) (io : HandshakeEnv)
    (c : nat) (x : Peer) (s : System) (first second : DeSoMessage)
    (rest : list Arrival) :
  peers s !! c = Some x ->
  closed (PConn x) = false ->
  wfaults (PConn x) = [] ->
  inbox (PConn x) = Arrive first :: Arrive second :: rest ->
  GetMsgType second <> MsgTypeVerack ->
  exists x',
    startConnection (Some c) node io s
      = Returned (Some (ErrNotVerack (GetMsgType second))) (withPeer c x' s) /\
    VersionNegotiated x' = VersionNegotiated x /\
    inbox (PConn x') = rest.
Proof.
  intros Hx Hc Hw Hi Hk. rewrite startConnection_run, Hx.
  exists (snd (legHandshake node io x)).
  assert (H : fst (legHandshake node io x)
              = Some (ErrNotVerack (GetMsgType second)) /\
              inbox (PConn (snd (legHandshake node io x))) = rest).
  { unfold legHandshake, connWrite, connRead. leg_simpl.
    rewrite Hc, Hw. leg_simpl. cbn [closed inbox wfaults].
    rewrite ?Hc, ?Hi. leg_simpl.
    destruct first; leg_simpl; cbn [closed inbox wfaults]; rewrite ?Hc;
      leg_simpl; destruct second; try done; by (exfalso; apply Hk). }
  destruct H as [H1 H2]. rewrite H1. split; [done|]. split; [|done].
  by rewrite legHandshake_negotiated, H1.
Qed.
End HandshakeExtras.

(** X4, witness: the handshake of the inbound leg of node A in the example
    run. *)
Lemma startConnection_writes_and_reads_at_most_two_witness :
  exists r x' (nwritten nread : nat),
    startConnection (flags := desoFlags) (Some 0%nat) exNodeB (exHs 101)
      (exLegSystem (exSocket 501 101))
    = Returned r (withPeer 0 x' (exLegSystem (exSocket 501 101))) /\
    outbox (PConn x') =
      outbox (exSocket 501 101)
      ++ take nwritten
           [MsgVersion (getVersionMessage (flags := desoFlags) exNodeB
                          1700000000 101);
            MsgDeSoVerack (VersionNonceReceived x')] /\
    inbox (PConn x') = drop nread (inbox (exSocket 501 101)) /\
    (nread <= nwritten <= 2)%nat /\
    (r = None -> nwritten = 2%nat /\ nread = 2%nat) /\
    ID x' = 0 /\ isOutbound x' = true /\
    closed (PConn x') = false /\
    disconnectCalls x' = 0%nat.
Proof.
  apply (startConnection_writes_and_reads_at_most_two (flags := desoFlags)
           exNodeB (exHs 101) 0%nat (NewPeer (exSocket 501 101) true)).
  reflexivity.
Defined.

(** X5, witness: the same handshake; node A answers with nonce 501 and
    echoes the nonce 101 it was sent. *)
Lemma startConnection_completes_witness :
  exists x',
    startConnection (flags := desoFlags) (Some 0%nat) exNodeB (exHs 101)
      (exLegSystem (exSocket 501 101))
    = Returned None (withPeer 0 x' (exLegSystem (exSocket 501 101))) /\
    VersionNegotiated x' = true /\
    VersionNonceSent x' = 101 /\
    VersionNonceReceived x' = 501 /\
    TimeConnected x' = 1700000005 /\
    TimeOffsetSecs x' = 4 /\
    outbox (PConn x')
      = [MsgVersion (getVersionMessage (flags := desoFlags) exNodeB
                       1700000000 101);
         MsgDeSoVerack 501] /\
    inbox (PConn x') = [] /\
    closed (PConn x') = false.
Proof.
  apply (startConnection_completes (flags := desoFlags) exNodeB (exHs 101)
           0%nat (NewPeer (exSocket 501 101) true)
           (exLegSystem (exSocket 501 101)) (exReply 501) []);
    reflexivity.
Defined.

(** X6, witness: node A answers the version message and then sends an
    address request where the verack is due. *)
Lemma startConnection_rejects_non_verack_witness :
  exists x',
    startConnection (flags := desoFlags) (Some 0%nat) exNodeB (exHs 101)
      (exLegSystem exNoVerackSocket)
    = Returned (Some (ErrNotVerack MsgTypeGetAddr))
               (withPeer 0 x' (exLegSystem exNoVerackSocket)) /\
    VersionNegotiated x' = false /\
    inbox (PConn x') = [].
Proof.
  apply (startConnection_rejects_non_verack (flags := desoFlags) exNodeB
           (exHs 101) 0%nat (NewPeer exNoVerackSocket true)
           (exLegSystem exNoVerackSocket) (MsgVersion (exReply 501))
           MsgDeSoGetAddr []);
    try reflexivity.
  discriminate.
Defined.

(** ** Acquiring an outbound leg *)


(** ** Teardown *)

Lemma modifyPeer_alter (i : nat) (f : Peer -> Peer) (s : System) :
  (i < length (peers s))%nat ->
  modifyPeer (Some i) f s = Returned tt (set_peers (alter f i (peers s)) s).
Proof.
  intros Hi. unfold modifyPeer.
  destruct (lookup_lt_is_Some_2 _ _ Hi) as [x Hx]. rewrite Hx.
  do 2 f_equal. apply list_eq. intros j.
  destruct (decide (i = j)) as [<-|Hne].
  - by rewrite list_lookup_insert_eq, list_lookup_alter_eq, Hx.
  - by rewrite list_lookup_insert_ne, list_lookup_alter_ne.
Qed.

Lemma modifyListener_alter (i : nat) (f : Listener -> Listener) (s : System) :
  (i < length (listeners s))%nat ->
  modifyListener (Some i) f s
    = Returned tt (set_listeners (alter f i (listeners s)) s).
Proof.
  intros Hi. unfold modifyListener.
  destruct (lookup_lt_is_Some_2 _ _ Hi) as [x Hx]. rewrite Hx.
  do 2 f_equal. apply list_eq. intros j.
  destruct (decide (i = j)) as [<-|Hne].
  - by rewrite list_lookup_insert_eq, list_lookup_alter_eq, Hx.
  - by rewrite list_lookup_insert_ne, list_lookup_alter_ne.
Qed.

Lemma validPtr_Some (n : nat) (p : option nat) :
  validPtr n p = true -> exists i, p = Some i /\ (i < n)%nat.
Proof.
  destruct p as [i|]; [|done]. simpl. intros H%bool_decide_eq_true. eauto.
Qed.

Ltac split_notin :=
  repeat match goal with
         | H : _ ∉ _ :: _ |- _ => apply not_elem_of_cons in H as [? ?]
         end.

Section Teardown.

Context {flags : ServiceFlags}.

(** [Disconnect] on an enabled bridge whose fields all point at objects. *)
Lemma Disconnect_run (s : System) (iA iB oA oB lA lB : nat) :
  disabled (bridge s) = false ->
  legsOf (bridge s) = [Some iA; Some iB; Some oA; Some oB] ->
  listenersOf (bridge s) = [Some lA; Some lB] ->
  Forall (fun i => i < length (peers s))%nat [iA; iB; oA; oB] ->
  Forall (fun i => i < length (listeners s))%nat [lA; lB] ->
  let s' :=
    {| peers := alter peerDisconnect oB
                  (alter peerDisconnect oA
                     (alter peerDisconnect iB
                        (alter peerDisconnect iA (peers s))));
       listeners := alter listenerClose lB
                      (alter listenerClose lA (listeners s));
       bridge := set_disabled true (bridge s);
       tasks := tasks s |} in
  Disconnect s
    = if waitGroup (bridge s) =? 0 then Returned tt s' else Parked s'.
Proof.
  intros Hd Hlegs Hls Hp Hl. cbv zeta.
  destruct s as [ps ls [nA iA' oA' lA' nB iB' oB' lB' pa di wg ca] ts].
  cbn in Hd, Hlegs, Hls, Hp, Hl. subst di.
  injection Hlegs as -> -> -> ->. injection Hls as -> ->.
  apply Forall_cons in Hp as [HiA Hp]. apply Forall_cons in Hp as [HiB Hp].
  apply Forall_cons in Hp as [HoA Hp]. apply Forall_cons in Hp as [HoB _].
  apply Forall_cons in Hl as [HlA Hl]. apply Forall_cons in Hl as [HlB _].
  unfold Disconnect. rewrite bind_run. cbn.
  rewrite bind_run. cbn.
  rewrite bind_run, modifyPeer_alter by done. cbn.
  rewrite bind_run, modifyPeer_alter by (cbn; by rewrite !length_alter). cbn.
  rewrite bind_run, modifyPeer_alter by (cbn; by rewrite !length_alter). cbn.
  rewrite bind_run, modifyPeer_alter by (cbn; by rewrite !length_alter). cbn.
  rewrite bind_run, modifyListener_alter by done. cbn.
  rewrite bind_run, modifyListener_alter by (cbn; by rewrite !length_alter).
  cbn. unfold waitGroupWait. cbn. reflexivity.
Qed.

(** X8. [Disconnect] on a bridge that is not disabled, whose four leg
    fields point at four different legs and whose two listener fields
    point at two different listeners: it sets [disabled] and changes no
    other field of the bridge and no task; each of the four legs gets
    exactly one [Disconnect] call, which closes its socket, and each of
    the two listeners exactly one [Close]; every other leg and listener
    of the store is left as it was. It does not panic. It returns when
    the wait-group counter is zero and blocks in the wait otherwise, and
    in both cases the teardown above has been done. *)
Theorem Disconnect_tears_down (s : System) :
  disabled (bridge s) = false ->
  wired s = true ->
  NoDup (legsOf (bridge s)) ->
  NoDup (listenersOf (bridge s)) ->
  exists s',
    Disconnect s
      = (if waitGroup (bridge s) =? 0 then Returned tt s' else Parked s') /\
    bridge s' = set_disabled true (bridge s) /\
    tasks s' = tasks s /\
    (forall i,
        peers s' !! i =
          if bool_decide (Some i ∈ legsOf (bridge s))
          then peerDisconnect <$> peers s !! i
          else peers s !! i) /\
    (forall i,
        listeners s' !! i =
          if bool_decide (Some i ∈ listenersOf (bridge s))
          then listenerClose <$> listeners s !! i
          else listeners s !! i).
Proof.
  intros Hd Hw Hnp Hnl.
  destruct s as [ps ls [nA iA oA lA nB iB oB lB pa di wg ca] ts].
  apply andb_prop in Hw as [Hp Hl].
  unfold legsOf, listenersOf in *. simpl in Hd, Hp, Hl, Hnp, Hnl |- *.
  repeat match goal with
         | H : _ && _ = true |- _ => apply andb_prop in H as [? ?]
         | H : validPtr _ _ = true |- _ =>
             apply validPtr_Some in H as (? & -> & ?)
         end.
  eexists. split.
  { apply Disconnect_run; try done; cbn; repeat constructor; done. }
  cbn. split_and!; try done.
  - intros i.
    apply NoDup_cons in Hnp as [Hn1 Hnp]. apply NoDup_cons in Hnp as [Hn2 Hnp].
    apply NoDup_cons in Hnp as [Hn3 _].
    split_notin.
    case_bool_decide as Hin.
    + rewrite !elem_of_cons in Hin.
      destruct Hin as [Hin|[Hin|[Hin|[Hin|Hin]]]];
        [injection Hin as <-..|by apply elem_of_nil in Hin];
        repeat first [ rewrite list_lookup_alter_eq
                     | rewrite list_lookup_alter_ne by congruence ].
      all: done.
    + split_notin.
      by rewrite !list_lookup_alter_ne by congruence.
  - intros i.
    apply NoDup_cons in Hnl as [Hn1 _].
    split_notin.
    case_bool_decide as Hin.
    + rewrite !elem_of_cons in Hin.
      destruct Hin as [Hin|[Hin|Hin]];
        [injection Hin as <-..|by apply elem_of_nil in Hin];
        repeat first [ rewrite list_lookup_alter_eq
                     | rewrite list_lookup_alter_ne by congruence ];
        done.
    + split_notin.
      by rewrite !list_lookup_alter_ne by congruence.
Qed.

Lemma modifyPeer_invalid (p : option nat) (f : Peer -> Peer) (s : System) :
  validPtr (length (peers s)) p = false -> modifyPeer p f s = Panicked.
Proof.
  destruct p as [i|]; [|done]. simpl. intros H%bool_decide_eq_false.
  unfold modifyPeer. by rewrite lookup_ge_None_2 by lia.
Qed.

Lemma modifyListener_invalid (p : option nat) (f : Listener -> Listener)
    (s : System) :
  validPtr (length (listeners s)) p = false -> modifyListener p f s = Panicked.
Proof.
  destruct p as [i|]; [|done]. simpl. intros H%bool_decide_eq_false.
  unfold modifyListener. by rewrite lookup_ge_None_2 by lia.
Qed.

(** [Disconnect] on an enabled bridge with a field that points at
    nothing. *)
Lemma Disconnect_not_wired (s : System) :
  disabled (bridge s) = false -> wired s = false -> Disconnect s = Panicked.
Proof.
  intros Hd Hw.
  destruct s as [ps ls [nA iA oA lA nB iB oB lB pa di wg ca] ts].
  cbn in Hd. subst di. unfold wired, legsOf, listenersOf in Hw. simpl in Hw.
  unfold Disconnect. rewrite bind_run. cbn. rewrite bind_run. cbn.
  rewrite bind_run.
  destruct (validPtr (length ps) iA) eqn:E1;
    [apply validPtr_Some in E1 as (? & -> & ?)
    |by rewrite modifyPeer_invalid].
  rewrite modifyPeer_alter by done. cbn. rewrite bind_run.
  destruct (validPtr (length ps) iB) eqn:E2;
    [apply validPtr_Some in E2 as (? & -> & ?)
    |by rewrite modifyPeer_invalid by (cbn; by rewrite !length_alter)].
  rewrite modifyPeer_alter by (cbn; by rewrite !length_alter).
  cbn. rewrite bind_run.
  destruct (validPtr (length ps) oA) eqn:E3;
    [apply validPtr_Some in E3 as (? & -> & ?)
    |by rewrite modifyPeer_invalid by (cbn; by rewrite !length_alter)].
  rewrite modifyPeer_alter by (cbn; by rewrite !length_alter).
  cbn. rewrite bind_run.
  destruct (validPtr (length ps) oB) eqn:E4;
    [apply validPtr_Some in E4 as (? & -> & ?)
    |by rewrite modifyPeer_invalid by (cbn; by rewrite !length_alter)].
  rewrite modifyPeer_alter by (cbn; by rewrite !length_alter).
  cbn. rewrite bind_run.
  destruct (validPtr (length ls) lA) eqn:E5;
    [apply validPtr_Some in E5 as (? & -> & ?)
    |by rewrite modifyListener_invalid].
  rewrite modifyListener_alter by done. cbn. rewrite bind_run.
  destruct (validPtr (length ls) lB) eqn:E6;
    [done|by rewrite modifyListener_invalid by (cbn; by rewrite !length_alter)].
Qed.

(** [Disconnect] creates and drops no object. *)
Lemma Disconnect_lengths (s : System) :
  post (Disconnect s)
       (fun _ s' => length (peers s') = length (peers s) /\
                    length (listeners s') = length (listeners s))
       (fun s' => length (peers s') = length (peers s) /\
                  length (listeners s') = length (listeners s)).
Proof.
  destruct (disabled (bridge s)) eqn:Hd.
  { unfold Disconnect. rewrite bind_run. cbn. by rewrite Hd. }
  destruct (wired s) eqn:Hw; [|by rewrite Disconnect_not_wired].
  apply andb_prop in Hw as [Hp Hl].
  destruct s as [ps ls [nA iA oA lA nB iB oB lB pa di wg ca] ts].
  unfold legsOf, listenersOf in *. simpl in Hd, Hp, Hl.
  repeat match goal with
         | H : _ && _ = true |- _ => apply andb_prop in H as [? ?]
         | H : validPtr _ _ = true |- _ =>
             apply validPtr_Some in H as (? & -> & ?)
         end.
  erewrite Disconnect_run; try done; [|cbn; repeat constructor; done..].
  cbn. destruct (wg =? 0); cbn; by rewrite !length_alter.
Qed.

Lemma Disconnect_disabled (s : System) :
  disabled (bridge s) = true -> Disconnect s = Returned tt s.
Proof.
  intros H. unfold Disconnect. rewrite bind_run. cbn [getBridge]. by rewrite H.
Qed.

(** [Disconnect] on a bridge whose fields all point at objects does not
    panic. *)
Lemma Disconnect_wired (s : System) :
  wired s = true -> Disconnect s <> Panicked.
Proof.
  intros Hw. destruct (disabled (bridge s)) eqn:Hd.
  { by rewrite Disconnect_disabled. }
  apply andb_prop in Hw as [Hp Hl].
  destruct s as [ps ls [nA iA oA lA nB iB oB lB pa di wg ca] ts].
  unfold legsOf, listenersOf in *. simpl in Hd, Hp, Hl.
  repeat match goal with
         | H : _ && _ = true |- _ => apply andb_prop in H as [? ?]
         | H : validPtr _ _ = true |- _ =>
             apply validPtr_Some in H as (? & -> & ?)
         end.
  erewrite Disconnect_run; try done; [|cbn; repeat constructor; done..].
  cbn. by destruct (wg =? 0).
Qed.

Lemma Disconnect_panicked (s : System) :
  Disconnect s = Panicked -> disabled (bridge s) = false /\ wired s = false.
Proof.
  intros H. destruct (disabled (bridge s)) eqn:Hd.
  { by rewrite Disconnect_disabled in H. }
  split; [done|]. destruct (wired s) eqn:Hw; [|done].
  by destruct (Disconnect_wired s Hw).
Qed.

(** X9. [Disconnect] panics exactly when the bridge is not disabled and
    one of its four leg fields or two listener fields points at nothing;
    on a disabled bridge it never does, whatever the fields hold. *)
Theorem Disconnect_panics_iff_unwired (s : System) :
  Disconnect s = Panicked <->
  disabled (bridge s) = false /\ wired s = false.
Proof.
  split; [apply Disconnect_panicked|].
  intros [Hd Hw]. by apply Disconnect_not_wired.
Qed.

(** X10. A bridge as [NewConnectionBridge] makes it, in any store: it is
    not disabled, not paused, its counter is zero and all its leg and
    listener fields are nil. [Disconnect] on it, and so [Restart], does
    not take the already-disconnected exit and panics on a nil field. *)
Theorem Disconnect_before_Start_panics (a b : Node) (ps : list Peer)
    (ls : list Listener) (ts : list Task) (env : StartEnv) :
  let s := {| peers := ps; listeners := ls;
              bridge := NewConnectionBridge a b; tasks := ts |} in
  disabled (bridge s) = false /\ paused (bridge s) = false /\
  waitGroup (bridge s) = 0 /\
  legsOf (bridge s) = [None; None; None; None] /\
  listenersOf (bridge s) = [None; None] /\
  Disconnect s = Panicked /\
  Restart env s = Panicked.
Proof. cbv zeta. split_and!; reflexivity. Qed.

(** X11. After a [Start] that returned the timeout error of an
    acquisition, [Disconnect] panics, and so does [Restart]: the bridge
    is enabled and the outbound field the acquisition was for is nil,
    in whatever state the bridge was before that [Start]. *)
Theorem Disconnect_after_timed_out_Start_panics (env env' : StartEnv)
    (s s' : System) :
  Start env s = Returned (Some ErrTimedOut) s' ->
  Disconnect s' = Panicked /\ Restart env' s' = Panicked.
Proof.
  intros H. pose proof (Start_cases env s) as Hc. rewrite H in Hc.
  destruct Hc as (_ & new & Hb & _ & Hstage).
  assert (Hd : Disconnect s' = Panicked).
  { apply Disconnect_not_wired; [by destruct Hb|].
    unfold wired, legsOf. simpl.
    destruct Hstage as [(_ & ? & _)|[(_ & _ & -> & _)|[(_ & _ & _ & ->)
                       |(_ & ? & _)]]]; try done.
    - by rewrite !andb_false_r.
    - by rewrite !andb_false_r. }
  split; [done|]. unfold Restart. rewrite bind_run. by rewrite Hd.
Qed.

End Teardown.

(** X8, witness: the started bridge of the example before any router has
    run; the counter is zero and the call returns. *)
Lemma Disconnect_tears_down_witness :
  exists s',
    Disconnect exStarted = Returned tt s' /\
    bridge s' = set_disabled true (bridge exStarted) /\
    tasks s' = tasks exStarted /\
    (forall i,
        peers s' !! i =
          if bool_decide (Some i ∈ legsOf (bridge exStarted))
          then peerDisconnect <$> peers exStarted !! i
          else peers exStarted !! i) /\
    (forall i,
        listeners s' !! i =
          if bool_decide (Some i ∈ listenersOf (bridge exStarted))
          then listenerClose <$> listeners exStarted !! i
          else listeners exStarted !! i).
Proof.
  apply (Disconnect_tears_down exStarted); try reflexivity.
  - apply (bool_decide_unpack _). vm_compute. exact I.
  - apply (bool_decide_unpack _). vm_compute. exact I.
Defined.

(** X11, witness: node A never dials in the example run. *)
Lemma Disconnect_after_timed_out_Start_panics_witness :
  exists s',
    Start (flags := desoFlags) exEnvNoDial exSystem
      = Returned (Some ErrTimedOut) s' /\
    Disconnect s' = Panicked /\
    Restart (flags := desoFlags) exEnv s' = Panicked.
Proof.
  eexists. split; [vm_compute; reflexivity|].
  eapply (Disconnect_after_timed_out_Start_panics (flags := desoFlags)
            exEnvNoDial exEnv exSystem).
  vm_compute. reflexivity.
Defined.

(** ** Restart *)

Section RestartOutcome.

Context {flags : ServiceFlags}.

(** X12. Every way a call of [Restart] can end. When it returns, its
    [Disconnect] found the bridge disabled already or the wait-group
    counter at zero, and its [Start] has run: [disabled] is false and the
    counter is what it was; the result of [Start] is gone, and the caller
    finds either the four routes of a successful [Start] launched on four
    new legs, or no new router at all, which is how a failed restart
    looks. When it blocks, it is in the wait of [Disconnect]: the bridge
    was enabled and the counter was not zero; [disabled] is now set, and
    [Start] has not run: no leg, listener or router was created. When it
    panics, either [Disconnect] met a field pointing at nothing on an
    enabled bridge, or [Start] could not listen or dial. *)
Theorem Restart_outcome (env : StartEnv) (s : System) :
  match Restart env s with
  | Returned _ s' =>
      (disabled (bridge s) = true \/ waitGroup (bridge s) = 0) /\
      disabled (bridge s') = false /\
      waitGroup (bridge s') = waitGroup (bridge s) /\
      (length (peers s) + 2 <= length (peers s') <= length (peers s) + 4)%nat /\
      length (listeners s') = (length (listeners s) + 2)%nat /\
      (tasks s' = tasks s \/
       (length (peers s') = length (peers s) + 4)%nat /\
       tasks s' = tasks s ++
         routes (length (peers s)) (length (peers s) + 1)
                (length (peers s) + 2) (length (peers s) + 3))
  | Parked s' =>
      disabled (bridge s) = false /\ waitGroup (bridge s) <> 0 /\
      disabled (bridge s') = true /\
      tasks s' = tasks s /\
      length (peers s') = length (peers s) /\
      length (listeners s') = length (listeners s)
  | Panicked =>
      (disabled (bridge s) = false /\ wired s = false) \/
      envListenA env = false \/ envListenB env = false \/
      envDialA env = None \/ envDialB env = None
  end.
Proof.
  unfold Restart. rewrite bind_run.
  pose proof (Disconnect_outcome s) as Ho.
  pose proof (Disconnect_lengths s) as Hl.
  pose proof (Disconnect_panicked s) as Hp.
  destruct (Disconnect s) as [[] s1|s1|]; simpl in Ho, Hl.
  - clear Hp. destruct Hl as [Hlp Hll].
    assert (Hs1 : (disabled (bridge s) = true \/ waitGroup (bridge s) = 0) /\
                  waitGroup (bridge s1) = waitGroup (bridge s) /\
                  tasks s1 = tasks s).
    { destruct (disabled (bridge s)); [subst; auto|].
      destruct Ho as (-> & ? & ?). auto. }
    destruct Hs1 as (Hwhy & Hwg & Hts).
    rewrite bind_run.
    pose proof (Start_cases env s1) as Hc.
    destruct (Start env s1) as [r s2|s2|]; [|done|auto].
    destruct Hc as (_ & new & Hb & Hr). cbn.
    split; [done|]. split; [by destruct Hb|].
    split; [destruct Hb; congruence|].
    rewrite (begun_peers _ _ _ Hb), (begun_listeners _ _ _ Hb), !length_app,
      Hlp, Hll, Hts in *. simpl.
    destruct r as [e|].
    + destruct Hr as (Ht & Hstage). split_and!; [| |lia|by left].
      all: destruct Hstage as [(-> & _)|[(-> & _)|[(-> & _)|(-> & _)]]]; lia.
    + destruct Hr as (Hlen & _ & _ & _ & _ & _ & Ht). rewrite Hlen.
      split_and!; [lia..|]. right. split; [lia|done].
  - clear Hp. destruct Ho as (? & -> & ? & ?). destruct Hl.
    by split_and!.
  - left. by apply Hp.
Qed.

End RestartOutcome.

(** ** The wait group in every run *)

Section Counter.

Context {flags : ServiceFlags}.

(** X13. In every run that starts with freshly launched routers and the
    counter at zero, whatever the schedule, the nodes and the driver do,
    the wait-group counter equals at every point the number of routers
    that have run [waitGroup.Add(1)] and not [waitGroup.Done()]; so it is
    never negative (no [Done] can panic on the counter), and never more
    than the number of routers launched. *)
Theorem waitGroup_counts_running_routers (sched : list Event)
    (s s' : System) :
  Forall freshTask (tasks s) ->
  waitGroup (bridge s) = 0 ->
  run sched s = Some s' ->
  waitGroup (bridge s') = countOutstanding (tasks s') /\
  0 <= waitGroup (bridge s') <= Z.of_nat (length (tasks s')).
Proof.
  intros Hf Hw Hr.
  pose proof (run_inv sched s s' (fresh_SystemInv s Hf Hw) Hr) as Hinv.
  pose proof (inv_waitGroup _ Hinv) as Hc. unfold waitGroupInv in Hc.
  split; [done|]. rewrite Hc. unfold countOutstanding.
  pose proof (List.filter_length_le outstanding (tasks s')). lia.
Qed.

End Counter.

(** X13, witness: the run of the example in which router 0 meets a read
    failure and the other three routers leave. *)
Lemma waitGroup_counts_running_routers_witness :
  exists s',
    run (flags := desoFlags) exReadFailure exStarted = Some s' /\
    waitGroup (bridge s') = countOutstanding (tasks s') /\
    0 <= waitGroup (bridge s') <= Z.of_nat (length (tasks s')).
Proof.
  eexists. split; [vm_compute; reflexivity|].
  apply (waitGroup_counts_running_routers (flags := desoFlags) exReadFailure
           exStarted).
  - apply exStarted_fresh.
  - reflexivity.
  - vm_compute. reflexivity.
Defined.

(** ** A disabled bridge *)






Section Disabled.

Context {flags : ServiceFlags}.



End Disabled.


(** ** Shutdown *)

Lemma set_PConn_id (x : Peer) : set_PConn (PConn x) x = x.
Proof. by destruct x. Qed.

Lemma connRead_closed (c : Conn) :
  closed c = true -> connRead c = (ReadErr ErrIO, c).
Proof. intros H. unfold connRead. by rewrite H. Qed.

Lemma countOutstanding_done (ts : list Task) :
  Forall (fun t => pc t = Exited ExitDone) ts -> countOutstanding ts = 0.
Proof.
  induction 1 as [|t ts Ht _ IH]; [done|].
  rewrite countOutstanding_cons, IH. unfold outstanding. by rewrite Ht.
Qed.

Section Shutdown.

Context {flags : ServiceFlags}.

(** Scheduled twice on a disabled bridge, a router that is leaving has
    left. *)
Lemma leaving_two_ticks (i : nat) (t : Task) (s : System) :
  disabled (bridge s) = true ->
  tasks s !! i = Some t ->
  leaving s t = true ->
  exists s2 t',
    run [Tick i; Tick i] s = Some s2 /\
    pc t' = Exited ExitDone /\
    tasks s2 = <[i:=t']> (tasks s) /\
    peers s2 = peers s /\
    disabled (bridge s2) = true.
Proof.
  intros Hd Hi Hl.
  assert (Hlt : (i < length (tasks s))%nat) by (by eapply lookup_lt_Some).
  assert (Hexit : forall s1 t1,
    tasks s1 !! i = Some t1 -> pc t1 = Exited ExitDone ->
    step (Tick i) s1 = Some s1).
  { intros s1 t1 H1 Hpc. simpl. unfold taskStep. rewrite H1.
    unfold routeTraffic. by rewrite Hpc. }
  unfold leaving in Hl. destruct (pc t) as [| | | | | |[|]] eqn:Hpc; try done.
  - (* Entry *)
    eexists _, _. split.
    { cbn [run step]. unfold taskStep at 1. rewrite Hi.
      unfold routeTraffic at 1. rewrite Hpc. cbn.
      unfold taskStep. cbn. rewrite list_lookup_insert_eq by done. cbn.
      rewrite Hd. cbn. reflexivity. }
    cbn. rewrite list_insert_insert_eq.
    refine (conj _ (conj eq_refl (conj eq_refl _))); done.
  - (* LoopTop *)
    eexists _, _. split.
    { cbn [run]. cbn [step]. unfold taskStep at 1. rewrite Hi.
      unfold routeTraffic at 1. rewrite Hpc, Hd. cbn.
      unfold taskStep. cbn. rewrite list_lookup_insert_eq by done. cbn.
      reflexivity. }
    cbn. refine (conj _ (conj eq_refl (conj eq_refl _))); done.
  - (* Reading *)
    destruct (source t) as [c|] eqn:Hsrc; [|done].
    destruct (peers s !! c) as [x|] eqn:Hx; [|done].
    eexists _, _. split.
    { cbn [run]. cbn [step]. unfold taskStep at 1. rewrite Hi.
      unfold routeTraffic at 1.
      rewrite Hpc, Hsrc, (ReadDeSoMessage_run _ _ _ Hx),
        (connRead_closed _ Hl). cbn [fst snd].
      rewrite set_PConn_id. unfold withPeer.
      rewrite list_insert_id by done.
      cbn. rewrite Hd. cbn.
      unfold taskStep. cbn. rewrite list_lookup_insert_eq by done. cbn.
      reflexivity. }
    cbn. refine (conj _ (conj eq_refl (conj eq_refl _))); done.
  - (* Exited ExitDone *)
    exists s, t. split.
    { cbn [run]. by rewrite !(Hexit s t Hi Hpc). }
    rewrite list_insert_id by done. by split_and!.
Qed.

Lemma drain_from (k a : nat) (s : System) :
  disabled (bridge s) = true ->
  (a + k)%nat = length (tasks s) ->
  (forall j t, tasks s !! j = Some t -> leaving s t = true) ->
  (forall j t, (j < a)%nat -> tasks s !! j = Some t ->
               pc t = Exited ExitDone) ->
  exists s',
    run (flat_map (fun i => [Tick i; Tick i]) (seq a k)) s = Some s' /\
    Forall (fun t => pc t = Exited ExitDone) (tasks s') /\
    peers s' = peers s /\
    disabled (bridge s') = true.
Proof.
  revert a s. induction k as [|k IH]; intros a s Hd Hlen Hl Hdone.
  - exists s. split; [done|]. split; [|done].
    apply Forall_lookup. intros j t Hj. apply (Hdone j t); [|done].
    apply lookup_lt_Some in Hj. lia.
  - destruct (lookup_lt_is_Some_2 (tasks s) a) as [t Ht]; [lia|].
    destruct (leaving_two_ticks a t s Hd Ht (Hl _ _ Ht))
      as (s2 & t' & Hrun & Hpc & Hts & Hps & Hd2).
    destruct (IH (S a) s2) as (s' & Hrun' & Hall & Hps' & Hd');
      [done|rewrite Hts, length_insert; lia| | |].
    + intros j u. rewrite Hts. destruct (decide (a = j)) as [<-|Hne].
      * rewrite list_lookup_insert_eq by (by eapply lookup_lt_Some).
        intros [= <-]. unfold leaving. by rewrite Hpc.
      * rewrite list_lookup_insert_ne by done. intros Hj.
        specialize (Hl _ _ Hj). unfold leaving in *. by rewrite Hps.
    + intros j u Hj. rewrite Hts. destruct (decide (a = j)) as [<-|Hne].
      * rewrite list_lookup_insert_eq by (by eapply lookup_lt_Some).
        by intros [= <-].
      * rewrite list_lookup_insert_ne by done. apply Hdone. lia.
    + exists s'. split; [|by rewrite Hps', Hps].
      change (seq a (S k)) with (a :: seq (S a) k).
      change (flat_map ?f (a :: ?l)) with ([Tick a; Tick a] ++ flat_map f l).
      by rewrite run_app, Hrun.
Qed.

(** X15. Shutdown completes when every router can see it. Take a
    disabled bridge at any point of a run that began with freshly
    launched routers, and suppose every router either has not entered
    its loop, or is at the head of the loop, or is inside a read on a leg
    whose socket is closed, or has left by [break] already. Then
    scheduling every router twice, with nothing else happening, makes
    every router leave by [break], each having signalled the wait group
    exactly once; the counter is back at zero, so that the
    [waitGroup.Wait()] of [Disconnect] returns; and no leg was touched. *)
Theorem shutdown_drains (s : System) :
  SystemInv s ->
  disabled (bridge s) = true ->
  forallb (leaving s) (tasks s) = true ->
  exists s',
    run (drainSchedule (length (tasks s))) s = Some s' /\
    Forall (fun t => pc t = Exited ExitDone /\ doneSignals t = 1%nat)
           (tasks s') /\
    waitGroup (bridge s') = 0 /\
    waitGroupWait s' = Returned tt s' /\
    peers s' = peers s.
Proof.
  intros Hinv Hd Hl.
  destruct (drain_from (length (tasks s)) 0 s) as (s' & Hrun & Hall & Hps & _);
    [done|done| |intros; lia|].
  { intros j t Hj. rewrite forallb_forall in Hl. apply Hl.
    apply list_elem_of_In. by eapply list_elem_of_lookup_2. }
  exists s'. split; [done|].
  pose proof (run_inv _ _ _ Hinv Hrun) as Hinv'.
  assert (Hw : waitGroup (bridge s') = 0).
  { rewrite (inv_waitGroup _ Hinv'). by apply countOutstanding_done. }
  split_and!; try done.
  - pose proof (inv_done _ Hinv') as Hdn.
    apply Forall_lookup. intros j t Hj. split.
    + by eapply (Forall_lookup_1 _ _ _ _ Hall).
    + pose proof (Forall_lookup_1 _ _ _ _ Hdn Hj) as H1. unfold doneInv in H1.
      by rewrite (Forall_lookup_1 _ _ _ _ Hall Hj) in H1.
  - unfold waitGroupWait. by rewrite Hw.
Qed.

End Shutdown.

Lemma exStopped_inv : SystemInv exStopped.
Proof.
  apply (run_inv (flags := desoFlags)
           [Tick 0; Tick 1; Tick 2; Tick 3; Tick 0; Tick 1; CallDisconnect]
           exStarted); [apply exStarted_inv|].
  vm_compute. reflexivity.
Qed.

(** X15, witness: the example after the driver's [Disconnect], which
    closed the sockets under the reads of routers 0 and 1 and is waiting
    with the counter at four. *)
Lemma shutdown_drains_witness :
  waitGroup (bridge exStopped) = 4 /\
  exists s',
    run (flags := desoFlags) (drainSchedule 4) exStopped = Some s' /\
    Forall (fun t => pc t = Exited ExitDone /\ doneSignals t = 1%nat)
           (tasks s') /\
    waitGroup (bridge s') = 0 /\
    waitGroupWait s' = Returned tt s' /\
    peers s' = peers exStopped.
Proof.
  split; [reflexivity|].
  apply (shutdown_drains (flags := desoFlags) exStopped).
  - apply exStopped_inv.
  - reflexivity.
  - reflexivity.
Defined.

(** ** Teardown right after startup *)

Section StartThenDisconnect.

Context {flags : ServiceFlags}.

(** X16. A router adds itself to the wait group when it first runs, not
    when [Start] launches it. So a [Disconnect] that follows a successful
    [Start] before any of the four routers has run (the counter being
    zero before that [Start]) does not wait for them: it returns at once,
    with the bridge disabled, the four new legs disconnected once each and
    their sockets closed, the legs from before that [Start] untouched,
    and the four routers still launched and not yet counted. *)
Theorem Disconnect_right_after_Start_does_not_wait (env : StartEnv)
    (s s1 : System) :
  Start env s = Returned None s1 ->
  waitGroup (bridge s) = 0 ->
  exists s2,
    Disconnect s1 = Returned tt s2 /\
    disabled (bridge s2) = true /\
    waitGroup (bridge s2) = 0 /\
    tasks s2 = tasks s ++
      routes (length (peers s)) (length (peers s) + 1)
             (length (peers s) + 2) (length (peers s) + 3) /\
    (forall i, (length (peers s) <= i < length (peers s) + 4)%nat ->
               exists x, peers s1 !! i = Some x /\
                         peers s2 !! i = Some (peerDisconnect x)) /\
    (forall i, (i < length (peers s))%nat -> peers s2 !! i = peers s !! i).
Proof.
  intros H Hw. pose proof (Start_cases env s) as Hc. rewrite H in Hc.
  destruct Hc as (_ & new & Hb & Hlen & _ & _ & _ & HoA & HoB & Ht).
  destruct Hb as [Hps _ Hls HlA HlB HiA HiB _ _ _ Hwg Hen].
  assert (Hn : length (peers s1) = (length (peers s) + 4)%nat)
    by (by rewrite Hps, length_app, Hlen).
  assert (Hm : length (listeners s1) = (length (listeners s) + 2)%nat)
    by (by rewrite Hls, length_app).
  eexists. split.
  { erewrite Disconnect_run; [rewrite Hwg, Hw; reflexivity|done|..].
    - unfold legsOf. by rewrite HiA, HiB, HoA, HoB.
    - unfold listenersOf. by rewrite HlA, HlB.
    - rewrite Hn. repeat constructor; lia.
    - rewrite Hm. repeat constructor; lia. }
  cbn. split; [done|]. split; [by rewrite Hwg|]. split; [done|]. split.
  - intros i Hi.
    destruct (lookup_lt_is_Some_2 (peers s1) i) as [x Hx]; [lia|].
    exists x. split; [done|].
    assert (i = length (peers s) \/ i = (length (peers s) + 1)%nat \/
            i = (length (peers s) + 2)%nat \/
            i = (length (peers s) + 3)%nat) as [-> | [-> | [-> | ->]]] by lia.
    all: repeat first [ rewrite list_lookup_alter_eq
                      | rewrite list_lookup_alter_ne by lia ].
    all: by rewrite Hx.
  - intros i Hi. rewrite !list_lookup_alter_ne by lia.
    rewrite Hps. by apply lookup_app_l.
Qed.

End StartThenDisconnect.

(** X16, witness: [Start] in the example run, then [Disconnect]. *)
Lemma Disconnect_right_after_Start_does_not_wait_witness :
  exists s2,
    Disconnect exStarted = Returned tt s2 /\
    disabled (bridge s2) = true /\
    waitGroup (bridge s2) = 0 /\
    tasks s2 = routes 0 1 2 3 /\
    (forall i, (0 <= i < 4)%nat ->
               exists x, peers exStarted !! i = Some x /\
                         peers s2 !! i = Some (peerDisconnect x)) /\
    (forall i, (i < 0)%nat -> peers s2 !! i = @nil Peer !! i).
Proof.
  apply (Disconnect_right_after_Start_does_not_wait (flags := desoFlags)
           exEnv exSystem exStarted).
  - vm_compute. reflexivity.
  - reflexivity.
Defined.

(** ** No nil leg after a successful start *)






Section Sound.

Context {flags : ServiceFlags}.




End Sound.


(** ** A write that fails *)

Section WriteFailure.

Context {flags : ServiceFlags}.

(** X18. A router inside its read, on an enabled bridge, with a message
    of a forwarded kind waiting on its open source and a destination
    whose write fails: scheduled once, it consumes the message from the
    source, hands it to the destination's write, and goes on to call
    [Restart]. The message is lost: it is gone from the source and the
    destination's outbox has not grown. The router has not signalled the
    wait group and the counter is unchanged. *)
Theorem routeTraffic_write_error_loses_message (i p d : nat) (t : Task)
    (x y : Peer) (m : DeSoMessage) (q : list Arrival) (e : Error)
    (s : System) :
  tasks s !! i = Some t ->
  pc t = Reading -> source t = Some p -> destination t = Some d ->
  p <> d ->
  peers s !! p = Some x ->
  closed (PConn x) = false -> inbox (PConn x) = Arrive m :: q ->
  peers s !! d = Some y ->
  fst (connWrite m (PConn y)) = Some e ->
  disabled (bridge s) = false ->
  forwarded m = true ->
  exists s' x',
    step (Tick i) s = Some s' /\
    pcOf i s' = Some CallRestart /\
    readsOf i s' = readsOf i s ++ [m] /\
    writesOf i s' = writesOf i s ++ [m] /\
    peers s' !! p = Some x' /\ inbox (PConn x') = q /\
    outboxOf d s' = outboxOf d s /\
    doneSignalsOf i s' = doneSignalsOf i s /\
    waitGroup (bridge s') = waitGroup (bridge s).
Proof.
  intros Hi Hpc Hsrc Hdst Hne Hx Hc Hq Hy Hw Hen Hf.
  assert (Hlt : (i < length (tasks s))%nat) by (by eapply lookup_lt_Some).
  assert (Hpl : (p < length (peers s))%nat) by (by eapply lookup_lt_Some).
  assert (Hdl : (d < length (peers s))%nat) by (by eapply lookup_lt_Some).
  cbn [step]. unfold taskStep. rewrite Hi. unfold routeTraffic.
  rewrite Hpc, Hsrc, (ReadDeSoMessage_run p x s Hx).
  unfold connRead. rewrite Hc, Hq. cbn [fst snd].
  change (disabled (bridge (withPeer p _ s))) with (disabled (bridge s)).
  rewrite Hen.
  set (x' := set_PConn _ x).
  set (t1 := log_read m t).
  assert (Hwr : WriteDeSoMessage (destination (log_write m t1)) m
                  (withPeer p x' s)
                = Returned (Some e)
                    (withPeer d (set_PConn (snd (connWrite m (PConn y))) y)
                       (withPeer p x' s))).
  { cbn [destination log_write t1 log_read]. rewrite Hdst.
    rewrite (WriteDeSoMessage_run d y).
    2:{ rewrite withPeer_lookup_ne by done. exact Hy. }
    by rewrite Hw. }
  eexists _, x'. split.
  { destruct m; try discriminate Hf; rewrite Hwr; reflexivity. }
  pose proof (connWrite_spec m (PConn y)) as (_ & _ & Hout).
  unfold pcOf, readsOf, writesOf, doneSignalsOf, outboxOf. cbn.
  rewrite !list_lookup_insert_eq by (by rewrite ?length_insert).
  rewrite list_lookup_insert_ne by done.
  rewrite list_lookup_insert_eq by done.
  rewrite Hi, Hy. cbn. split_and!; try done.
  apply Hout. by rewrite Hw.
Qed.

End WriteFailure.

(** X18, witness: router 0 of the example relays node A's ping towards
    node B, whose socket has gone down. *)
Lemma routeTraffic_write_error_loses_message_witness :
  exists s' x',
    step (flags := desoFlags) (Tick 0) exWriteFailure = Some s' /\
    pcOf 0 s' = Some CallRestart /\
    readsOf 0 s' = readsOf 0 exWriteFailure ++ [exPing] /\
    writesOf 0 s' = writesOf 0 exWriteFailure ++ [exPing] /\
    peers s' !! 2%nat = Some x' /\ inbox (PConn x') = [] /\
    outboxOf 1 s' = outboxOf 1 exWriteFailure /\
    doneSignalsOf 0 s' = doneSignalsOf 0 exWriteFailure /\
    waitGroup (bridge s') = waitGroup (bridge exWriteFailure).
Proof.
  set (t := default (newTask None None) (tasks exWriteFailure !! 0%nat)).
  set (x := default (NewPeer exSilentSocket true)
              (peers exWriteFailure !! 2%nat)).
  set (y := default (NewPeer exSilentSocket true)
              (peers exWriteFailure !! 1%nat)).
  apply (routeTraffic_write_error_loses_message (flags := desoFlags)
           0%nat 2%nat 1%nat t x y exPing [] ErrIO exWriteFailure);
    try (vm_compute; reflexivity).
  discriminate.
Defined.
